(** * Notification feed: repository queries and the client feed store

    A shallow embedding of

    - [libs/dal/src/repositories/notification/notification.repository.ts]
      (module [Dal], with the calendar arithmetic of the date helpers it
      calls in module [DateFns]), and
    - [packages/notification-center/src/store/notifications-provider.context.tsx]
      (module [FeedStore]),

    followed by the properties of the feed specification that concern
    them. *)

From Stdlib Require Import ZArith List Lia Bool Sorted.
From stdpp Require Import strings gmap list.
Import ListNotations.

Local Open Scope Z_scope.

(* ===================================================================== *)
(** * Calendar arithmetic: the date helpers in UTC *)
(* ===================================================================== *)

(** [getStats] computes its three cut-off instants with the helpers
    [subYears], [subMonths] and [subWeeks] of the date library it
    imports.  The repository code is embedded over any such library
    ([Dal.DateLib]); this module gives the helpers for a process whose
    time zone is UTC, following the library's algorithm on the calendar
    fields of a [Date], with instants as milliseconds since the epoch in
    the proleptic Gregorian calendar. *)
Module DateFns.

Definition msPerDay : Z := 86400000.
Definition msPerHour : Z := 3600000.

(** Number of days in 400 Gregorian years. *)
Definition daysPerEra : Z := 146097.

(** Day number (days since 1970-01-01) of the civil date [y]-[m]-[d],
    with [m] in 1..12. *)
Definition days_from_civil (y m d : Z) : Z :=
  let y' := if m <=? 2 then y - 1 else y in
  let era := y' / 400 in
  let yoe := y' mod 400 in
  let mp := if 2 <? m then m - 3 else m + 9 in
  let doy := (153 * mp + 2) / 5 + d - 1 in
  let doe := yoe * 365 + yoe / 4 - yoe / 100 + doy in
  era * daysPerEra + doe - 719468.

(** Civil date (year, month 1..12, day of month) of a day number. *)
Definition civil_from_days (z : Z) : Z * Z * Z :=
  let z' := z + 719468 in
  let era := z' / daysPerEra in
  let doe := z' mod daysPerEra in
  let yoe := (doe - doe / 1460 + doe / 36524 - doe / 146096) / 365 in
  let doy := doe - (365 * yoe + yoe / 4 - yoe / 100) in
  let mp := (5 * doy + 2) / 153 in
  let d := doy - (153 * mp + 2) / 5 + 1 in
  let m := if mp <? 10 then mp + 3 else mp - 9 in
  (if m <=? 2 then yoe + era * 400 + 1 else yoe + era * 400, m, d).

(** [MakeDay(year, month, date)] of the language standard: [month] is
    zero-based and may lie outside 0..11, [date] may lie outside the
    month; both overflow into the neighbouring months and years. *)
Definition MakeDay (year month date : Z) : Z :=
  days_from_civil (year + month / 12) (month mod 12 + 1) 1 + date - 1.

(** [addMonths] on day numbers: the day of the month is kept unless the
    target month is shorter, in which case the last day of that month is
    taken. *)
Definition addMonthsDay (z amount : Z) : Z :=
  let '(year, m, dayOfMonth) := civil_from_days z in
  (* endOfDesiredMonth.setMonth(date.getMonth() + amount + 1, 0) *)
  let endOfDesiredMonth := MakeDay year ((m - 1) + amount + 1) 0 in
  let '(endYear, endM, daysInMonth) := civil_from_days endOfDesiredMonth in
  if daysInMonth <=? dayOfMonth then endOfDesiredMonth
  else (* date.setFullYear(endYear, endMonth, dayOfMonth) *)
    MakeDay endYear (endM - 1) dayOfMonth.

Definition addMonths (date amount : Z) : Z :=
  if amount =? 0 then date
  else addMonthsDay (date / msPerDay) amount * msPerDay + date mod msPerDay.

Definition addDays (date amount : Z) : Z :=
  if amount =? 0 then date
  else (date / msPerDay + amount) * msPerDay + date mod msPerDay.

Definition addYears (date amount : Z) : Z := addMonths date (amount * 12).
Definition addWeeks (date amount : Z) : Z := addDays date (amount * 7).

Definition subMonths (date amount : Z) : Z := addMonths date (- amount).
Definition subYears (date amount : Z) : Z := addYears date (- amount).
Definition subWeeks (date amount : Z) : Z := addWeeks date (- amount).

(** ** Checking one 400-year period by computation *)

(** [checkRange f hi depth lo]: does [f] hold on the integers from [lo]
    on that are below both [lo + 2 ^ depth] and [hi]? *)
Fixpoint checkRange (f : Z -> bool) (hi : Z) (depth : nat) (lo : Z) : bool :=
  if hi <=? lo then true
  else
    match depth with
    | O => f lo
    | S depth' =>
        checkRange f hi depth' lo
        && checkRange f hi depth' (lo + 2 ^ Z.of_nat depth')
    end.

(** What is to hold on each day: one month back is 28 to 31 days back,
    and twelve months back is 365 or 366 days back. *)
Definition dayCheck (z : Z) : bool :=
  let monthBack := addMonthsDay z (-1) in
  let yearBack := addMonthsDay z (-12) in
  (z - 31 <=? monthBack) && (monthBack <=? z - 28)
  && (z - 366 <=? yearBack) && (yearBack <=? z - 365).

(** [dayCheck] is established month by month.  Months are numbered from
    January of year 0; [monthStart k] is the first day of month [k]. *)
Definition monthStart (k : Z) : Z := MakeDay 0 k 1.

(** What [addMonthsDay] computes from the month of a date alone: the
    last day of the target month, the length of the target month, and
    the day before its first day. *)
Definition targetMonth (year m amount : Z) : Z * Z * Z :=
  let endOfDesiredMonth := MakeDay year ((m - 1) + amount + 1) 0 in
  let '(endYear, endM, daysInMonth) := civil_from_days endOfDesiredMonth in
  (endOfDesiredMonth, daysInMonth, MakeDay endYear (endM - 1) 0).

(** ... and what it then computes from the day of the month. *)
Definition addMonthsFrom (target : Z * Z * Z) (dayOfMonth : Z) : Z :=
  let '(endOfDesiredMonth, daysInMonth, before) := target in
  if daysInMonth <=? dayOfMonth then endOfDesiredMonth
  else before + dayOfMonth.

(** The check of day [i] (from 0) of the month [m] of [year] that starts
    on day [z0]. *)
Definition dayOk (year m z0 : Z) (oneBack twelveBack : Z * Z * Z) (i : Z) : bool :=
  let z := z0 + i in
  let '(y', m', d') := civil_from_days z in
  (y' =? year) && (m' =? m) && (d' =? i + 1)
  && (z - 31 <=? addMonthsFrom oneBack (i + 1))
  && (addMonthsFrom oneBack (i + 1) <=? z - 28)
  && (z - 366 <=? addMonthsFrom twelveBack (i + 1))
  && (addMonthsFrom twelveBack (i + 1) <=? z - 365).

(** [ok] on the days [i], [i + 1], ... below [len]; at most [n] of
    them. *)
Fixpoint daysOk (n : nat) (len : Z) (ok : Z -> bool) (i : Z) : bool :=
  if len <=? i then true
  else
    match n with
    | O => false
    | S n' => ok i && daysOk n' len ok (i + 1)
    end.

Definition monthCheck (k : Z) : bool :=
  let year := k / 12 in
  let m := k mod 12 + 1 in
  let z0 := monthStart k in
  let len := monthStart (k + 1) - z0 in
  let oneBack := targetMonth year m (-1) in
  let twelveBack := targetMonth year m (-12) in
  daysOk 31 len (dayOk year m z0 oneBack twelveBack) 0.

(** Number of months in 400 years. *)
Definition monthsPerEra : Z := 4800.

End DateFns.

(* ===================================================================== *)
(** * The notification repository *)
(* ===================================================================== *)

Module Dal.

(** Modelled from the spec: the two enumerations come from the shared
    package, which is not part of the source at hand; the repository
    only names the step type [TRIGGER], which populated jobs must not
    have. *)
Inductive ChannelTypeEnum := IN_APP | EMAIL | SMS | CHAT | PUSH.

Inductive StepTypeEnum :=
  | STEP_IN_APP | STEP_EMAIL | STEP_SMS | STEP_CHAT | STEP_PUSH
  | DIGEST | TRIGGER | DELAY.

#[global] Instance ChannelTypeEnum_eq_dec : EqDecision ChannelTypeEnum.
Proof. solve_decision. Defined.

#[global] Instance StepTypeEnum_eq_dec : EqDecision StepTypeEnum.
Proof. solve_decision. Defined.

(** Modelled from the spec: the entity and schema declarations are not
    part of the source at hand.  A stored notification document has an
    environment id, organization id, subscriber id, template id,
    transaction id, channel list and creation timestamp; its subscriber,
    template and jobs are documents of other collections that refer to
    it, or that it refers to, by id. *)
Record NotificationEntity := {
  _id : string;
  _environmentId : string;
  _organizationId : string;
  _subscriberId : string;
  _templateId : string;
  transactionId : string;
  channels : list ChannelTypeEnum;
  createdAt : Z
}.

Record SubscriberEntity := {
  subscriber_id : string;
  firstName : string;
  lastName : string;
  email : string;
  phone : string
}.

Record TemplateEntity := {
  template_id : string;
  template_name : string;
  triggers : list string
}.

Record JobEntity := {
  job_id : string;
  job_notificationId : string;
  job_environmentId : string;
  job_type : StepTypeEnum
}.

(** The collections the feed reads. *)
Record Db := {
  notifications : list NotificationEntity;
  subscribers : list SubscriberEntity;
  templates : list TemplateEntity;
  jobs : list JobEntity
}.

(** The [query] argument of [getFeed]; [None] is an absent (or null)
    field. *)
Record FeedQuery := {
  query_channels : option (list ChannelTypeEnum);
  query_templates : option (list string);
  query_subscriberIds : option (list string);
  query_transactionId : option string
}.

Definition emptyFeedQuery : FeedQuery :=
  {| query_channels := None; query_templates := None;
     query_subscriberIds := None; query_transactionId := None |}.

(** The filter document handed to the store.  A field that was never
    assigned puts no condition on the documents. *)
Record FilterQuery := {
  fq_environmentId : option string;
  fq_transactionId : option string;
  fq_templateId_in : option (list string);
  fq_subscriberId_in : option (list string);
  fq_channels_in : option (list ChannelTypeEnum);
  fq_createdAt_gte : option Z
}.

Definition set_transactionId (t : string) (q : FilterQuery) : FilterQuery :=
  {| fq_environmentId := fq_environmentId q; fq_transactionId := Some t;
     fq_templateId_in := fq_templateId_in q;
     fq_subscriberId_in := fq_subscriberId_in q;
     fq_channels_in := fq_channels_in q;
     fq_createdAt_gte := fq_createdAt_gte q |}.

Definition set_templateId_in (l : list string) (q : FilterQuery) : FilterQuery :=
  {| fq_environmentId := fq_environmentId q;
     fq_transactionId := fq_transactionId q;
     fq_templateId_in := Some l;
     fq_subscriberId_in := fq_subscriberId_in q;
     fq_channels_in := fq_channels_in q;
     fq_createdAt_gte := fq_createdAt_gte q |}.

Definition set_subscriberId_in (l : list string) (q : FilterQuery) : FilterQuery :=
  {| fq_environmentId := fq_environmentId q;
     fq_transactionId := fq_transactionId q;
     fq_templateId_in := fq_templateId_in q;
     fq_subscriberId_in := Some l;
     fq_channels_in := fq_channels_in q;
     fq_createdAt_gte := fq_createdAt_gte q |}.

Definition set_channels_in (l : list ChannelTypeEnum) (q : FilterQuery) : FilterQuery :=
  {| fq_environmentId := fq_environmentId q;
     fq_transactionId := fq_transactionId q;
     fq_templateId_in := fq_templateId_in q;
     fq_subscriberId_in := fq_subscriberId_in q;
     fq_channels_in := Some l;
     fq_createdAt_gte := fq_createdAt_gte q |}.

(** One condition of a filter: absent, or a test on the document. *)
Definition cond {A} (c : option A) (test : A -> bool) : bool :=
  match c with
  | None => true
  | Some a => test a
  end.

Definition elemb `{EqDecision A} (x : A) (l : list A) : bool :=
  existsb (fun y => bool_decide (x = y)) l.

(** Does a document satisfy a filter?  [$in] on the array field
    [channels] holds when one of its elements is listed. *)
Definition matches (q : FilterQuery) (n : NotificationEntity) : bool :=
  cond (fq_environmentId q) (fun e => bool_decide (_environmentId n = e))
  && cond (fq_transactionId q) (fun t => bool_decide (transactionId n = t))
  && cond (fq_templateId_in q) (fun l => elemb (_templateId n) l)
  && cond (fq_subscriberId_in q) (fun l => elemb (_subscriberId n) l)
  && cond (fq_channels_in q) (fun l => existsb (fun c => elemb c l) (channels n))
  && cond (fq_createdAt_gte q) (fun d => d <=? createdAt n).

Definition find (q : FilterQuery) (coll : list NotificationEntity)
  : list NotificationEntity :=
  List.filter (matches q) coll.

Definition countDocuments (q : FilterQuery) (coll : list NotificationEntity) : nat :=
  length (find q coll).

(** [.sort('-createdAt')]: newest first; documents with equal timestamps
    keep their relative order. *)
Fixpoint insertDesc (n : NotificationEntity) (l : list NotificationEntity)
  : list NotificationEntity :=
  match l with
  | [] => [n]
  | x :: xs =>
      if createdAt x <=? createdAt n then n :: x :: xs
      else x :: insertDesc n xs
  end.

Definition sortDesc (l : list NotificationEntity) : list NotificationEntity :=
  fold_right insertDesc [] l.

(** [.skip(skip).limit(limit)]; a limit of 0 is no limit. *)
Definition skipLimit {A} (skip limit : nat) (l : list A) : list A :=
  let rest := skipn skip l in
  match limit with
  | O => rest
  | _ => firstn limit rest
  end.

(** A feed entry: the document with its populated paths. *)
Record FeedItem := {
  entity : NotificationEntity;
  subscriber : option SubscriberEntity;
  template : option TemplateEntity;
  item_jobs : list JobEntity
}.

(** [populateFeed]: attach the subscriber, the template, and the jobs of
    the notification that match [_environmentId: environmentId] and
    [type: { $nin: [TRIGGER] }]. *)
Definition populateFeed (db : Db) (environmentId : string)
    (n : NotificationEntity) : FeedItem :=
  {| entity := n;
     subscriber :=
       List.find (fun s => bool_decide (subscriber_id s = _subscriberId n))
                 (subscribers db);
     template :=
       List.find (fun t => bool_decide (template_id t = _templateId n))
                 (templates db);
     item_jobs :=
       List.filter
         (fun j => bool_decide (job_notificationId j = _id n)
                   && bool_decide (job_environmentId j = environmentId)
                   && negb (elemb (job_type j) [TRIGGER]))
         (jobs db) |}.

Record Feed := {
  totalCount : nat;
  data : list FeedItem
}.

(** The filter [getFeed] builds.  An empty [transactionId] is falsy and
    ignored; an empty [templates] or [channels] list is not; an empty
    [subscriberIds] list is ignored by the explicit length test. *)
Definition feedRequestQuery (environmentId : string) (query : FeedQuery)
  : FilterQuery :=
  let requestQuery :=
    {| fq_environmentId := Some environmentId; fq_transactionId := None;
       fq_templateId_in := None; fq_subscriberId_in := None;
       fq_channels_in := None; fq_createdAt_gte := None |} in
  let requestQuery :=
    match query_transactionId query with
    | Some t => if bool_decide (t = "") then requestQuery
                else set_transactionId t requestQuery
    | None => requestQuery
    end in
  let requestQuery :=
    match query_templates query with
    | Some l => set_templateId_in l requestQuery
    | None => requestQuery
    end in
  let requestQuery :=
    match query_subscriberIds query with
    | Some l => if (0 <? length l)%nat then set_subscriberId_in l requestQuery
                else requestQuery
    | None => requestQuery
    end in
  match query_channels query with
  | Some l => set_channels_in l requestQuery
  | None => requestQuery
  end.

Definition getFeed (db : Db) (environmentId : string) (query : FeedQuery)
    (skip limit : nat) : Feed :=
  let requestQuery := feedRequestQuery environmentId query in
  let totalCount := countDocuments requestQuery (notifications db) in
  let response :=
    map (populateFeed db environmentId)
        (skipLimit skip limit (sortDesc (find requestQuery (notifications db)))) in
  {| totalCount := totalCount; data := response |}.

(** ** [getStats] *)

(** The single document a [$group] stage with [_id: null] produces. *)
Record StatsDoc := {
  doc_weekly : Z;
  doc_monthly : Z;
  doc_yearly : Z
}.

(** [x || 0] on a number that may be undefined. *)
Definition orZero (x : option Z) : Z :=
  match x with
  | Some v => if v =? 0 then 0 else v
  | None => 0
  end.

Record Stats := {
  weekly : Z;
  monthly : Z;
  yearly : Z
}.

Definition sumZ (l : list Z) : Z := fold_right Z.add 0 l.

(** [$match] on the environment and on [createdAt >= yearBefore]. *)
Definition statsMatch (environmentId : string) (yearBefore : Z)
    (coll : list NotificationEntity) : list NotificationEntity :=
  find {| fq_environmentId := Some environmentId; fq_transactionId := None;
          fq_templateId_in := None; fq_subscriberId_in := None;
          fq_channels_in := None; fq_createdAt_gte := Some yearBefore |}
       coll.

(** [$group]: no input document, no output document; otherwise one
    document of conditional sums. *)
Definition statsGroup (weekBefore monthBefore : Z)
    (docs : list NotificationEntity) : list StatsDoc :=
  match docs with
  | [] => []
  | _ =>
      [ {| doc_weekly :=
             sumZ (map (fun n => if weekBefore <=? createdAt n then 1 else 0) docs);
           doc_monthly :=
             sumZ (map (fun n => if monthBefore <=? createdAt n then 1 else 0) docs);
           doc_yearly := sumZ (map (fun _ => 1) docs) |} ]
  end.

(** The date helpers [getStats] imports: [subYears date amount] and so
    on, on instants in milliseconds since the epoch. *)
Record DateLib := {
  subYears : Z -> Z -> Z;
  subMonths : Z -> Z -> Z;
  subWeeks : Z -> Z -> Z
}.

(** [getStats]; [now] is the value of [Date.now()]. *)
Definition getStats (lib : DateLib) (now : Z) (coll : list NotificationEntity)
    (environmentId : string) : Stats :=
  let yearBefore := subYears lib now 1 in
  let monthBefore := subMonths lib now 1 in
  let weekBefore := subWeeks lib now 1 in
  let result :=
    statsGroup weekBefore monthBefore (statsMatch environmentId yearBefore coll) in
  (* const stats = result[0] || {} *)
  let stats := head result in
  {| weekly := orZero (doc_weekly <$> stats);
     monthly := orZero (doc_monthly <$> stats);
     yearly := orZero (doc_yearly <$> stats) |}.

(** The helpers of a process running in UTC. *)
Definition utcDates : DateLib :=
  {| subYears := DateFns.subYears;
     subMonths := DateFns.subMonths;
     subWeeks := DateFns.subWeeks |}.

(** ** Counting documents, to state what [getStats] returns *)

Definition countIf (p : NotificationEntity -> bool)
    (coll : list NotificationEntity) : Z :=
  Z.of_nat (length (List.filter p coll)).

(** A document of environment [env] created at or after [since]. *)
Definition createdSince (env : string) (since : Z) (n : NotificationEntity) : bool :=
  bool_decide (_environmentId n = env) && (since <=? createdAt n).

(** ** Sample data *)

Definition sampleNotification (id env : string) (created : Z) : NotificationEntity :=
  {| _id := id; _environmentId := env; _organizationId := "org";
     _subscriberId := "sub"; _templateId := "tpl"; transactionId := "tx";
     channels := [IN_APP]; createdAt := created |}.

(** Two tenants sharing one collection. *)
Definition sampleDb : Db :=
  {| notifications :=
       [ sampleNotification "n1" "env1" 100;
         sampleNotification "n2" "env2" 200;
         sampleNotification "n3" "env1" 300 ];
     subscribers := []; templates := [];
     jobs := [ {| job_id := "j1"; job_notificationId := "n3";
                  job_environmentId := "env1"; job_type := STEP_IN_APP |} ] |}.

Definition sampleItem : FeedItem :=
  populateFeed sampleDb "env1" (sampleNotification "n3" "env1" 300).

(** 2026-11-03T00:00:00Z, in milliseconds since the epoch. *)
Definition sampleNow : Z := 1793664000000.

(** ** The other queries of the repository *)

(** [findBySubscriberId].  Modelled from the spec: [find] of the base
    repository, which is not part of the source at hand, returns all
    records matching the fields of the query; here in collection
    order. *)
Definition findBySubscriberId (coll : list NotificationEntity)
    (environmentId subscriberId : string) : list NotificationEntity :=
  List.filter
    (fun n => bool_decide (_environmentId n = environmentId)
              && bool_decide (_subscriberId n = subscriberId))
    coll.

(** [getFeedItem]: [findOne] on the three ids, populated like the feed;
    [None] is the [null] of a query without a match, which the entity
    mapping of the base repository hands on. *)
Definition getFeedItem (db : Db) (notificationId environmentId organizationId : string)
  : option FeedItem :=
  populateFeed db environmentId
    <$> List.find
          (fun n => bool_decide (_id n = notificationId)
                    && bool_decide (_environmentId n = environmentId)
                    && bool_decide (_organizationId n = organizationId))
          (notifications db).

(** What the caller's filters of [getFeed] ask of a document: a
    non-empty transaction id must be equal, a template list and a
    non-empty subscriber list must contain the document's id, a channel
    list must share a channel with the document. *)
Definition satisfies (environmentId : string) (query : FeedQuery)
    (n : NotificationEntity) : Prop :=
  _environmentId n = environmentId
  /\ (forall t, query_transactionId query = Some t -> t <> "" -> transactionId n = t)
  /\ (forall l, query_templates query = Some l -> In (_templateId n) l)
  /\ (forall l, query_subscriberIds query = Some l -> l <> [] ->
                In (_subscriberId n) l)
  /\ (forall l, query_channels query = Some l ->
                exists c, In c (channels n) /\ In c l).

(** From newest to oldest. *)
Definition newerFirst (a b : NotificationEntity) : Prop :=
  createdAt b <= createdAt a.

(** ** [getActivityGraphStats] *)

(** The calendar day of a document in UTC, as [$dateToString] with the
    format [%Y-%m-%d] renders it: year, month and day of the month.  The
    rendered strings (four-digit year, two-digit month and day) compare
    like these triples. *)
Definition dayOf (n : NotificationEntity) : Z * Z * Z :=
  DateFns.civil_from_days (createdAt n / DateFns.msPerDay).

Definition dayLtb (a b : Z * Z * Z) : bool :=
  let '(y1, m1, d1) := a in
  let '(y2, m2, d2) := b in
  (y1 <? y2) || ((y1 =? y2) && ((m1 <? m2) || ((m1 =? m2) && (d1 <? d2)))).

(** [$unwind: '$channels']: one document per channel of each document; a
    document without channels yields none. *)
Definition unwindChannels (docs : list NotificationEntity)
  : list (NotificationEntity * ChannelTypeEnum) :=
  flat_map (fun n => map (pair n) (channels n)) docs.

(** One output document of the [$group] stage. *)
Record ActivityGroup := {
  group_id : Z * Z * Z;
  group_count : Z;
  group_templates : list string;
  group_channels : list ChannelTypeEnum
}.

(** [$addToSet] *)
Definition addToSet `{EqDecision A} (x : A) (l : list A) : list A :=
  if elemb x l then l else l ++ [x].

(** One unwound document enters its group. *)
Fixpoint groupInsert (key : Z * Z * Z) (templateId : string)
    (channel : ChannelTypeEnum) (groups : list ActivityGroup)
  : list ActivityGroup :=
  match groups with
  | [] =>
      [ {| group_id := key; group_count := 1;
           group_templates := [templateId]; group_channels := [channel] |} ]
  | g :: rest =>
      if bool_decide (group_id g = key) then
        {| group_id := key; group_count := group_count g + 1;
           group_templates := addToSet templateId (group_templates g);
           group_channels := addToSet channel (group_channels g) |} :: rest
      else g :: groupInsert key templateId channel rest
  end.

Definition groupByDay (unwound : list (NotificationEntity * ChannelTypeEnum))
  : list ActivityGroup :=
  fold_left
    (fun groups '(n, channel) => groupInsert (dayOf n) (_templateId n) channel groups)
    unwound [].

(** [$sort: { _id: -1 }] *)
Fixpoint insertGroupDesc (g : ActivityGroup) (l : list ActivityGroup)
  : list ActivityGroup :=
  match l with
  | [] => [g]
  | x :: xs =>
      if dayLtb (group_id g) (group_id x) then x :: insertGroupDesc g xs
      else g :: x :: xs
  end.

(** From the latest day to the earliest, without repetition. *)
Definition laterDay (a b : ActivityGroup) : Prop :=
  dayLtb (group_id b) (group_id a) = true.

Definition sortGroupsDesc (l : list ActivityGroup) : list ActivityGroup :=
  fold_right insertGroupDesc [] l.

(** The documents the [$match] stage lets through. *)
Definition activityMatch (date : Z) (environmentId : string)
    (coll : list NotificationEntity) : list NotificationEntity :=
  find {| fq_environmentId := Some environmentId; fq_transactionId := None;
          fq_templateId_in := None; fq_subscriberId_in := None;
          fq_channels_in := None; fq_createdAt_gte := Some date |}
       coll.

Definition getActivityGraphStats (date : Z) (environmentId : string)
    (coll : list NotificationEntity) : list ActivityGroup :=
  sortGroupsDesc (groupByDay (unwindChannels (activityMatch date environmentId coll))).

(** More sample data: a feed of four, two of them without channels on
    the same day. *)
Definition sampleFeedQuery : FeedQuery :=
  {| query_channels := Some [IN_APP]; query_templates := Some ["tpl"];
     query_subscriberIds := Some ["sub"]; query_transactionId := Some "tx" |}.

Definition sampleActivity : list NotificationEntity :=
  [ {| _id := "a1"; _environmentId := "env1"; _organizationId := "org";
       _subscriberId := "sub"; _templateId := "tpl"; transactionId := "t1";
       channels := [IN_APP; EMAIL]; createdAt := 1793664000000 |};
    {| _id := "a2"; _environmentId := "env1"; _organizationId := "org";
       _subscriberId := "sub"; _templateId := "tpl2"; transactionId := "t2";
       channels := []; createdAt := 1793664000001 |};
    {| _id := "a3"; _environmentId := "env1"; _organizationId := "org";
       _subscriberId := "sub"; _templateId := "tpl"; transactionId := "t3";
       channels := [SMS]; createdAt := 1793577600000 |};
    {| _id := "a4"; _environmentId := "env2"; _organizationId := "org";
       _subscriberId := "sub"; _templateId := "tpl"; transactionId := "t4";
       channels := [SMS]; createdAt := 1793664000000 |} ].

End Dal.

(* ===================================================================== *)
(** * The client feed store *)
(* ===================================================================== *)

(** The provider component keeps five pieces of state: the object
    [notifications] (store id to message array) and the maps [page],
    [hasNextPage] and [refetchTimeout], plus the flag [fetching].  The
    three maps are created once and mutated in place, so every callback
    sees the same maps.  Each callback is embedded as a computation that
    runs from its call to its completion on the current state: the
    response of an awaited remote call is taken from an oracle at the
    point of the [await], and the [notifications] object a callback
    closes over is the current one.  The remote calls made are recorded
    in order.  Pending timers are part of the runtime state. *)
Module FeedStore.

(** Modelled from the spec: the message types come from the shared
    package, which is not part of the source at hand.  A message has an
    id, seen and read flags and a call-to-action with an action status
    (not yet done, done). *)
Inductive MessageActionStatusEnum := PENDING | DONE.

Inductive ButtonTypeEnum := PRIMARY | SECONDARY.

Record IMessageAction := {
  status : option MessageActionStatusEnum
}.

Record IMessageCTA := {
  action : option IMessageAction
}.

(** A feed message.  The provider tests whether [read] is defined, so
    it may be undefined; so may [cta] and its [action], on which
    [updateAction] relies without a test. *)
Record IMessage := {
  _id : string;
  seen : bool;
  read : option bool;
  cta : option IMessageCTA
}.

(** A store query and an action payload are plain JSON objects; the
    stores come from the [useFeed] hook. *)
Definition IStoreQuery := list (string * string).
Definition Payload := list (string * string).

Record IStore := {
  storeId : string;
  query : option IStoreQuery
}.

(** A JavaScript number holding a page counter. *)
Inductive PageNum := PNum (n : Z) | PNaN.

(** [page.get(storeId) + 1] *)
Definition plusOne (p : option PageNum) : PageNum :=
  match p with
  | Some (PNum n) => PNum (n + 1)
  | Some PNaN => PNaN
  | None => PNaN
  end.

(** The remote calls of the [api] object. *)
Inductive ApiCall :=
  | GetNotificationsList (pageToFetch : PageNum) (q : IStoreQuery)
  | MarkMessageAsRead (messageId : string)
  | UpdateAction (messageId : string) (actionButtonType : ButtonTypeEnum)
                 (st : MessageActionStatusEnum) (payload : option Payload)
  | MarkMessageAsSeen (ids : list string).

Inductive Promise (A : Type) :=
  | Resolved (a : A)
  | Rejected (reason : string).
Arguments Resolved {A} a.
Arguments Rejected {A} reason.

(** Modelled from the spec: the [api] object of the [useApi] hook, which
    is not part of the source at hand, with the four remote calls the
    provider makes.  Each field tells what the call settles to, given
    the calls made before it.  The provider reads the list with [?.], so
    [getNotificationsList] may resolve to [undefined] ([None]). *)
Record Api := {
  getNotificationsList :
    list ApiCall -> PageNum -> IStoreQuery -> Promise (option (list IMessage));
  markMessageAsRead : list ApiCall -> string -> Promise IMessage;
  api_updateAction :
    list ApiCall -> string -> ButtonTypeEnum -> MessageActionStatusEnum ->
    option Payload -> Promise unit;
  markMessageAsSeen : list ApiCall -> list string -> Promise unit
}.

(** The [notifications] object: its properties in the order [for ... in]
    visits them, which for store ids that are not array indices is the
    order in which they were added; the value [None] is a property
    holding [undefined]. *)
Definition Notifications := list (string * option (list IMessage)).

Fixpoint obj_get (k : string) (o : Notifications) : option (option (list IMessage)) :=
  match o with
  | [] => None
  | (k', v) :: rest => if bool_decide (k' = k) then Some v else obj_get k rest
  end.

(** [o[k] = v]: an existing property keeps its place, a new one is
    added last. *)
Fixpoint obj_set (k : string) (v : option (list IMessage)) (o : Notifications)
  : Notifications :=
  match o with
  | [] => [(k, v)]
  | (k', v') :: rest =>
      if bool_decide (k' = k) then (k', v) :: rest
      else (k', v') :: obj_set k v rest
  end.

(** [o[k]], where a missing property reads as [undefined]. *)
Definition obj_read (k : string) (o : Notifications) : option (list IMessage) :=
  match obj_get k o with
  | Some v => v
  | None => None
  end.

(** The component state. *)
Record Store := {
  notifications : Notifications;
  page : gmap string PageNum;
  hasNextPage : gmap string bool;
  fetching : bool;
  refetchTimeout : gmap string (option positive)
}.

(** A pending timer of [refetch]: its handle, the instant it is due, and
    the store id its callback fetches. *)
Record Timer := {
  handle : positive;
  due : Z;
  timer_storeId : string
}.

Record World := {
  store : Store;
  timers : list Timer;
  nextHandle : positive;
  clock : Z;
  calls : list ApiCall
}.

Definition initialStore : Store :=
  {| notifications := [("default_store", Some [])];
     page := {[ "default_store" := PNum 0 ]};
     hasNextPage := {[ "default_store" := true ]};
     fetching := false;
     refetchTimeout := ∅ |}.

Definition initialWorld : World :=
  {| store := initialStore; timers := []; nextHandle := 1%positive;
     clock := 0; calls := [] |}.

(** ** Computations: state, exceptions *)

Inductive Exn :=
  | TypeError
  | Rejection (reason : string).

Inductive Outcome (A : Type) :=
  | Ok (a : A)
  | Throw (e : Exn).
Arguments Ok {A} a.
Arguments Throw {A} e.

Definition Comp (A : Type) : Type := World -> Outcome A * World.

Definition ret {A} (a : A) : Comp A := fun w => (Ok a, w).

Definition bind {A B} (m : Comp A) (k : A -> Comp B) : Comp B :=
  fun w =>
    match m w with
    | (Ok a, w') => k a w'
    | (Throw e, w') => (Throw e, w')
    end.

Definition throw {A} (e : Exn) : Comp A := fun w => (Throw e, w).

(** Record updates. *)
Definition withNotifications (o : Notifications) (s : Store) : Store :=
  {| notifications := o; page := page s; hasNextPage := hasNextPage s;
     fetching := fetching s; refetchTimeout := refetchTimeout s |}.

Definition withPage (p : gmap string PageNum) (s : Store) : Store :=
  {| notifications := notifications s; page := p; hasNextPage := hasNextPage s;
     fetching := fetching s; refetchTimeout := refetchTimeout s |}.

Definition withHasNextPage (h : gmap string bool) (s : Store) : Store :=
  {| notifications := notifications s; page := page s; hasNextPage := h;
     fetching := fetching s; refetchTimeout := refetchTimeout s |}.

Definition withFetching (b : bool) (s : Store) : Store :=
  {| notifications := notifications s; page := page s;
     hasNextPage := hasNextPage s; fetching := b;
     refetchTimeout := refetchTimeout s |}.

Definition withRefetchTimeout (t : gmap string (option positive)) (s : Store) : Store :=
  {| notifications := notifications s; page := page s;
     hasNextPage := hasNextPage s; fetching := fetching s;
     refetchTimeout := t |}.

Definition withStore (s : Store) (w : World) : World :=
  {| store := s; timers := timers w; nextHandle := nextHandle w;
     clock := clock w; calls := calls w |}.

Definition withTimers (l : list Timer) (w : World) : World :=
  {| store := store w; timers := l; nextHandle := nextHandle w;
     clock := clock w; calls := calls w |}.

Definition withClock (t : Z) (w : World) : World :=
  {| store := store w; timers := timers w; nextHandle := nextHandle w;
     clock := t; calls := calls w |}.

Definition recordCall (c : ApiCall) (w : World) : World :=
  {| store := store w; timers := timers w; nextHandle := nextHandle w;
     clock := clock w; calls := calls w ++ [c] |}.

Definition gets {A} (f : Store -> A) : Comp A := fun w => (Ok (f (store w)), w).

Definition modify (f : Store -> Store) : Comp unit :=
  fun w => (Ok tt, withStore (f (store w)) w).

Declare Scope feed_scope.
Delimit Scope feed_scope with feed.
Notation "'let!' x ':=' m 'in' k" := (bind m (fun x => k))
  (at level 10, x name, m at level 100, k at level 200) : feed_scope.
Notation "m ;;; k" := (bind m (fun _ => k))
  (at level 100, k at level 200, right associativity) : feed_scope.
Local Open Scope feed_scope.

(** [await] of a remote call: the call is recorded, a rejection is
    thrown. *)
Definition await {A} (c : ApiCall) (settle : list ApiCall -> Promise A) : Comp A :=
  fun w =>
    match settle (calls w) with
    | Resolved a => (Ok a, recordCall c w)
    | Rejected reason => (Throw (Rejection reason), recordCall c w)
    end.

(** ** State setters *)

(** [notifications[storeId] = v; setNotifications(Object.assign({}, notifications))] *)
Definition setNotificationsOf (storeId : string) (v : option (list IMessage)) : Comp unit :=
  modify (fun s => withNotifications (obj_set storeId v (notifications s)) s).

Definition replaceNotifications (o : Notifications) : Comp unit :=
  modify (withNotifications o).

(** [setPage(page.set(storeId, p))] *)
Definition setPageOf (storeId : string) (p : PageNum) : Comp unit :=
  modify (fun s => withPage (<[storeId := p]> (page s)) s).

(** [setHasNextPage(hasNextPage.set(storeId, b))] *)
Definition setHasNextPageOf (storeId : string) (b : bool) : Comp unit :=
  modify (fun s => withHasNextPage (<[storeId := b]> (hasNextPage s)) s).

Definition setFetching (b : bool) : Comp unit := modify (withFetching b).

(** [setRefetchTimeout(refetchTimeout.set(storeId, h))] *)
Definition setRefetchTimeoutOf (storeId : string) (h : option positive) : Comp unit :=
  modify (fun s => withRefetchTimeout (<[storeId := h]> (refetchTimeout s)) s).

(** ** Timers of the runtime *)

(** [setTimeout(callback, delay)], where the callback fetches page 0 of
    [storeId]. *)
Definition setTimeout (storeId : string) (delay : Z) : Comp positive :=
  fun w =>
    let h := nextHandle w in
    (Ok h, {| store := store w;
              timers := timers w ++ [ {| handle := h; due := clock w + delay;
                                         timer_storeId := storeId |} ];
              nextHandle := Pos.succ h; clock := clock w;
              calls := calls w |}).

(** The pending timers without the one of handle [h]. *)
Definition withoutTimer (h : positive) (l : list Timer) : list Timer :=
  List.filter (fun t => negb (Pos.eqb (handle t) h)) l.

(** [clearTimeout(h)]: nothing happens when [h] is not pending. *)
Definition clearTimeout (h : positive) : Comp unit :=
  fun w => (Ok tt, withTimers (withoutTimer h (timers w)) w).

(** ** The callbacks of the provider *)

Section Provider.

Context (api : Api) (stores : option (list IStore)).

(** [stores?.find(store => store.storeId === storeId)?.query || {}] *)
Definition getStoreQuery (sid : string) : IStoreQuery :=
  match stores with
  | None => []
  | Some l =>
      match List.find (fun st => bool_decide (storeId st = sid)) l with
      | Some st => match query st with Some q => q | None => [] end
      | None => []
      end
  end.

(** [newNotifications?.length < 10] *)
Definition fewerThanTen (newNotifications : option (list IMessage)) : bool :=
  match newNotifications with
  | Some l => (length l <? 10)%nat
  | None => false
  end.

(** [...newNotifications]: spreading [undefined] is a [TypeError]. *)
Definition spread (newNotifications : option (list IMessage)) : Comp (list IMessage) :=
  match newNotifications with
  | Some l => ret l
  | None => throw TypeError
  end.

Definition fetchPage (pageToFetch : PageNum) (isRefetch : bool) (sid : string)
  : Comp unit :=
  setFetching true ;;;
  let! newNotifications :=
    await (GetNotificationsList pageToFetch (getStoreQuery sid))
          (fun past => getNotificationsList api past pageToFetch (getStoreQuery sid)) in
  (if fewerThanTen newNotifications
   then setHasNextPageOf sid false
   else setHasNextPageOf sid true) ;;;
  let! known := gets (fun s => page s !! sid) in
  (match known with
   | Some _ => ret tt
   | None => setPageOf sid (PNum 0)
   end) ;;;
  (if isRefetch
   then setNotificationsOf sid newNotifications
   else
     let! old := gets (fun s => obj_read sid (notifications s)) in
     let! fresh := spread newNotifications in
     setNotificationsOf sid (Some (default [] old ++ fresh))) ;;;
  setFetching false.

Definition fetchNextPage (sid : string) : Comp unit :=
  let! more := gets (fun s => hasNextPage s !! sid) in
  match more with
  | Some true =>
      let! current := gets (fun s => page s !! sid) in
      let nextPage := plusOne current in
      setPageOf sid nextPage ;;;
      fetchPage nextPage false sid
  | _ => ret tt
  end.

Definition markAsRead (messageId : string) : Comp IMessage :=
  await (MarkMessageAsRead messageId)
        (fun past => markMessageAsRead api past messageId).

(** The body of the [map] callback of [updateAction]:
    [message.cta.action.status = DONE] on a matching message, a
    [TypeError] when that message has no [cta] or no [action]. *)
Definition patchAction (messageId : string) (message : IMessage) : option IMessage :=
  if bool_decide (_id message = messageId) then
    match cta message with
    | Some c =>
        match action c with
        | Some _ =>
            Some {| _id := _id message; seen := seen message; read := read message;
                    cta := Some {| action := Some {| status := Some DONE |} |} |}
        | None => None
        end
    | None => None
    end
  else Some message.

(** [array.map] with a callback that mutates the elements: when the
    callback throws, the elements already visited stay mutated. *)
Fixpoint mapMutating (f : IMessage -> option IMessage) (l : list IMessage)
  : Outcome unit * list IMessage :=
  match l with
  | [] => (Ok tt, [])
  | x :: xs =>
      match f x with
      | Some y => let '(r, ys) := mapMutating f xs in (r, y :: ys)
      | None => (Throw TypeError, x :: xs)
      end
  end.

(** The [for (const storeId in notifications)] loop of [updateAction]. *)
Fixpoint patchStores (messageId : string) (o : Notifications)
  : Outcome unit * Notifications :=
  match o with
  | [] => (Ok tt, [])
  | (k, None) :: rest => (Throw TypeError, (k, None) :: rest)
  | (k, Some l) :: rest =>
      match mapMutating (patchAction messageId) l with
      | (Ok _, l') =>
          let '(r, rest') := patchStores messageId rest in
          (r, (k, Some l') :: rest')
      | (Throw e, l') => (Throw e, (k, Some l') :: rest)
      end
  end.

Definition updateAction (messageId : string) (actionButtonType : ButtonTypeEnum)
    (st : MessageActionStatusEnum) (payload : option Payload) : Comp unit :=
  await (UpdateAction messageId actionButtonType st payload)
        (fun past => api_updateAction api past messageId actionButtonType st payload) ;;;
  let! o := gets notifications in
  let '(r, o') := patchStores messageId o in
  replaceNotifications o' ;;;
  match r with
  | Ok _ => ret tt
  | Throw e => throw e
  end.

Definition refetch (sid : string) : Comp unit :=
  setFetching true ;;;
  let! pending := gets (fun s => refetchTimeout s !! sid) in
  (match pending with
   | Some (Some h) =>
       clearTimeout h ;;;
       setRefetchTimeoutOf sid None
   | _ => ret tt
   end) ;;;
  let! h := setTimeout sid 250 in
  setRefetchTimeoutOf sid (Some h).

(** The [messagesToMark] argument when it is given. *)
Inductive MessagesToMark :=
  | OneMessage (m : IMessage)
  | ManyMessages (l : list IMessage).

Definition getNotificationsToMark (messagesToMark : option MessagesToMark)
    (o : Notifications) (sid : string) : Outcome (list IMessage) :=
  match messagesToMark with
  | Some (ManyMessages l) => Ok l
  | Some (OneMessage m) => Ok [m]
  | None =>
      match obj_read sid o with
      | Some l => Ok (List.filter (fun notification => negb (seen notification)) l)
      | None => Throw TypeError
      end
  end.

Definition filterReadNotifications (readExist : option bool)
    (notificationsToMark : list IMessage) : list IMessage :=
  match readExist with
  | Some true =>
      List.filter (fun msg => match read msg with Some _ => true | None => false end)
                  notificationsToMark
  | _ => notificationsToMark
  end.

Definition markNotificationsAsSeen (readExist : option bool)
    (messagesToMark : option MessagesToMark) (sid : string) : Comp unit :=
  let! o := gets notifications in
  match getNotificationsToMark messagesToMark o sid with
  | Throw e => throw e
  | Ok notificationsToMark =>
      if (0 <? length notificationsToMark)%nat then
        let notificationsToUpdate :=
          filterReadNotifications readExist notificationsToMark in
        let ids := map _id notificationsToUpdate in
        await (MarkMessageAsSeen ids) (fun past => markMessageAsSeen api past ids)
      else ret tt
  end.

(** ** Passing time *)

(** A due timer fires: it leaves the pending list and its callback,
    [fetchPage(0, true, storeId)], runs.  An exception of the callback
    stays inside its promise. *)
Definition fire (t : Timer) : World -> World :=
  fun w =>
    let w1 := withClock (Z.max (clock w) (due t))
                (withTimers (withoutTimer (handle t) (timers w)) w) in
    snd (fetchPage (PNum 0) true (timer_storeId t) w1).

(** The pending timer that fires first among those due by [deadline]:
    the earliest, and among equals the one set first. *)
Fixpoint firstDue (deadline : Z) (l : list Timer) : option Timer :=
  match l with
  | [] => None
  | t :: rest =>
      match firstDue deadline rest with
      | Some t' =>
          if due t <=? deadline
          then (if due t <=? due t' then Some t else Some t')
          else Some t'
      | None => if due t <=? deadline then Some t else None
      end
  end.

(** Fire the timers due by [deadline], at most [fuel] of them. *)
Fixpoint runTimers (fuel : nat) (deadline : Z) (w : World) : World :=
  match fuel with
  | O => w
  | S fuel' =>
      match firstDue deadline (timers w) with
      | Some t => runTimers fuel' deadline (fire t w)
      | None => w
      end
  end.

(** [delay] milliseconds pass.  No callback sets a timer, so the pending
    timers at the start bound the number of firings. *)
Definition advance (delay : Z) (w : World) : World :=
  let deadline := clock w + delay in
  let w' := runTimers (length (timers w)) deadline w in
  withClock (Z.max (clock w') deadline) w'.

End Provider.

(** ** Reading the state *)

(** [message.cta.action.status], undefined when a link is missing. *)
Definition actionStatus (m : IMessage) : option MessageActionStatusEnum :=
  match cta m with
  | Some c => match action c with Some a => status a | None => None end
  | None => None
  end.

(** The message ids handed to the remote mark-as-seen call by a sequence
    of calls. *)
Definition seenIdsSent (cs : list ApiCall) : list string :=
  flat_map (fun c => match c with MarkMessageAsSeen ids => ids | _ => [] end) cs.

(** The component state after [fetchPage] on [sid] got the response [r]
    and completed. *)
Definition fetchedStore (sid : string) (isRefetch : bool)
    (r : option (list IMessage)) (s : Store) : Store :=
  {| notifications :=
       (if isRefetch then obj_set sid r (notifications s)
        else obj_set sid (Some (default [] (obj_read sid (notifications s))
                                ++ default [] r))
                     (notifications s));
     page := match page s !! sid with
             | Some _ => page s
             | None => <[sid := PNum 0]> (page s)
             end;
     hasNextPage :=
       <[sid := match r with
                | Some l => negb (length l <? 10)%nat
                | None => true
                end]> (hasNextPage s);
     fetching := false;
     refetchTimeout := refetchTimeout s |}.

(** How a store entry and its patched entry relate. *)
Definition patchedEntry (messageId : string)
    (e e' : string * option (list IMessage)) : Prop :=
  fst e' = fst e
  /\ exists l l',
      snd e = Some l /\ snd e' = Some l'
      /\ Forall2 (fun m m' => patchAction messageId m = Some m') l l'.

(** Can [updateAction] patch every store list?  Each store holds a
    list, and each message with id [messageId] has a [cta] with an
    [action]. *)
Definition patchable (messageId : string) (o : Notifications) : Prop :=
  Forall (fun e : string * option (list IMessage) =>
            exists l, snd e = Some l
              /\ Forall (fun m => _id m = messageId ->
                                  exists c a, cta m = Some c /\ action c = Some a) l)
         o.

(** Does the message carry a [read] field? *)
Definition hasRead (m : IMessage) : bool :=
  match read m with
  | Some _ => true
  | None => false
  end.

(** The messages of a list that [markNotificationsAsSeen] is to report
    when no message is given: the unseen ones, and with [readExist] only
    those among them that carry a [read] field. *)
Definition unseenToReport (readExist : option bool) (l : list IMessage)
  : list IMessage :=
  List.filter
    (fun m => negb (seen m)
              && match readExist with Some true => hasRead m | _ => true end)
    l.

(** ** Sample data *)

(** A remote side that resolves every call; the feed has the one page
    [feed]. *)
Definition resolvingApi (feed : list IMessage) : Api :=
  {| getNotificationsList := fun _ _ _ => Resolved (Some feed);
     markMessageAsRead := fun _ id =>
       Resolved {| _id := id; seen := true; read := Some true; cta := None |};
     api_updateAction := fun _ _ _ _ _ => Resolved tt;
     markMessageAsSeen := fun _ _ => Resolved tt |}.

(** A remote side that is unreachable. *)
Definition rejectingApi : Api :=
  {| getNotificationsList := fun _ _ _ => Rejected "offline";
     markMessageAsRead := fun _ _ => Rejected "offline";
     api_updateAction := fun _ _ _ _ _ => Rejected "offline";
     markMessageAsSeen := fun _ _ => Rejected "offline" |}.

Definition sampleMessage (id : string) (isSeen : bool) (isRead : option bool)
    (st : MessageActionStatusEnum) : IMessage :=
  {| _id := id; seen := isSeen; read := isRead;
     cta := Some {| action := Some {| status := Some st |} |} |}.

(** The initial world with the given [notifications] object. *)
Definition worldWith (o : Notifications) : World :=
  withStore (withNotifications o initialStore) initialWorld.

Definition sampleFeed : list IMessage :=
  [ sampleMessage "m1" false (Some false) PENDING;
    sampleMessage "m2" true None PENDING;
    sampleMessage "m3" false None PENDING ].

Definition sampleWorld : World :=
  worldWith [ ("default_store", Some sampleFeed);
              ("archive", Some [ sampleMessage "m1" true (Some true) PENDING ]) ].

(** ** Sequences of calls *)

(** What can happen to the provider: one of its callbacks is called, or
    time passes. *)
Inductive Action :=
  | CallFetchNextPage (sid : string)
  | CallMarkAsRead (messageId : string)
  | CallUpdateAction (messageId : string) (actionButtonType : ButtonTypeEnum)
                     (st : MessageActionStatusEnum) (payload : option Payload)
  | CallRefetch (sid : string)
  | CallMarkNotificationsAsSeen (readExist : option bool)
                                (messagesToMark : option MessagesToMark)
                                (sid : string)
  | Wait (delay : Z).

Definition step (api : Api) (stores : option (list IStore)) (a : Action)
    (w : World) : World :=
  match a with
  | CallFetchNextPage sid => snd (fetchNextPage api stores sid w)
  | CallMarkAsRead messageId => snd (markAsRead api messageId w)
  | CallUpdateAction messageId actionButtonType st payload =>
      snd (updateAction api messageId actionButtonType st payload w)
  | CallRefetch sid => snd (refetch sid w)
  | CallMarkNotificationsAsSeen readExist messagesToMark sid =>
      snd (markNotificationsAsSeen api readExist messagesToMark sid w)
  | Wait delay => advance api stores delay w
  end.

Definition runActions (api : Api) (stores : option (list IStore))
    (actions : list Action) (w : World) : World :=
  fold_left (fun w' a => step api stores a w') actions w.

(** [refetch] called again and again on one store id, [gaps] giving the
    time between one call and the next. *)
Definition refetchBurst (api : Api) (stores : option (list IStore))
    (sid : string) (gaps : list Z) (w : World) : World :=
  fold_left (fun w' gap => snd (refetch sid (advance api stores gap w')))
            gaps (snd (refetch sid w)).

(** The pending timers are the ones the [refetchTimeout] map knows: each
    store id has at most one, the map holds its handle under its store
    id, and no handle is held under two store ids or is yet to be
    issued. *)
Definition timersTracked (w : World) : Prop :=
  NoDup (map timer_storeId (timers w))
  /\ (forall t, In t (timers w) ->
                (handle t < nextHandle w)%positive
                /\ refetchTimeout (store w) !! timer_storeId t = Some (Some (handle t)))
  /\ (forall sid h, refetchTimeout (store w) !! sid = Some (Some h) ->
                    (h < nextHandle w)%positive
                    /\ forall sid', refetchTimeout (store w) !! sid' = Some (Some h) ->
                                    sid' = sid).

(** A page counter that is a number from 0 on. *)
Definition countingPage (p : PageNum) : Prop :=
  match p with
  | PNum n => 0 <= n
  | PNaN => False
  end.

Definition fetchesCountingPage (c : ApiCall) : Prop :=
  match c with
  | GetNotificationsList p _ => countingPage p
  | _ => True
  end.

(** Every store id with a has-more flag has a page counter, the page
    counters are numbers from 0 on, and so were the pages fetched. *)
Definition pagesKnown (w : World) : Prop :=
  (forall sid, is_Some (hasNextPage (store w) !! sid) ->
               is_Some (page (store w) !! sid))
  /\ (forall sid p, page (store w) !! sid = Some p -> countingPage p)
  /\ Forall fetchesCountingPage (calls w).

(** A message without a call to action. *)
Definition plainMessage (id : string) : IMessage :=
  {| _id := id; seen := false; read := None; cta := None |}.

End FeedStore.

(* ===================================================================== *)
(** * Facts about the calendar arithmetic *)
(* ===================================================================== *)

Module DateFnsFacts.
Import DateFns.

(** The calendar repeats every 400 years, that is every [daysPerEra]
    days. *)
Lemma civil_from_days_era (z k : Z) :
  civil_from_days (z + daysPerEra * k) =
  let '(y, m, d) := civil_from_days z in (y + 400 * k, m, d).
Proof.
  unfold civil_from_days.
  replace (z + daysPerEra * k + 719468) with (z + 719468 + k * daysPerEra) by ring.
  rewrite Z.div_add, Z.mod_add by (unfold daysPerEra; lia).
  set (doe := (z + 719468) mod daysPerEra).
  set (era := (z + 719468) / daysPerEra).
  cbv zeta.
  destruct (_ <=? 2); f_equal; f_equal; ring.
Qed.

Lemma days_from_civil_era (y m d k : Z) :
  days_from_civil (y + 400 * k) m d = days_from_civil y m d + daysPerEra * k.
Proof.
  unfold days_from_civil, daysPerEra.
  destruct (m <=? 2).
  - replace (y + 400 * k - 1) with (y - 1 + k * 400) by ring.
    rewrite Z.div_add, Z.mod_add by lia. cbv zeta. ring.
  - replace (y + 400 * k) with (y + k * 400) by ring.
    rewrite Z.div_add, Z.mod_add by lia. cbv zeta. ring.
Qed.

Lemma MakeDay_era (year month date k : Z) :
  MakeDay (year + 400 * k) month date = MakeDay year month date + daysPerEra * k.
Proof.
  unfold MakeDay.
  replace (year + 400 * k + month / 12) with (year + month / 12 + 400 * k) by ring.
  rewrite days_from_civil_era. ring.
Qed.

Lemma addMonthsDay_era (z amount k : Z) :
  addMonthsDay (z + daysPerEra * k) amount = addMonthsDay z amount + daysPerEra * k.
Proof.
  unfold addMonthsDay.
  rewrite civil_from_days_era.
  destruct (civil_from_days z) as [[year m] dayOfMonth].
  rewrite MakeDay_era, civil_from_days_era.
  destruct (civil_from_days (MakeDay year (m - 1 + amount + 1) 0))
    as [[endYear endM] daysInMonth].
  destruct (daysInMonth <=? dayOfMonth); [reflexivity|].
  apply MakeDay_era.
Qed.

Lemma checkRange_sound (f : Z -> bool) (hi : Z) (depth : nat) :
  forall lo z,
    checkRange f hi depth lo = true ->
    lo <= z < lo + 2 ^ Z.of_nat depth -> z < hi -> f z = true.
Proof.
  induction depth as [|depth IH]; intros lo z Hc Hz Hhi;
    simpl checkRange in Hc; destruct (Z.leb_spec hi lo); try lia.
  - change (2 ^ Z.of_nat 0) with 1 in Hz. assert (z = lo) by lia. congruence.
  - apply andb_true_iff in Hc as [Hl Hr].
    rewrite Nat2Z.inj_succ, Z.pow_succ_r in Hz by lia.
    destruct (Z_lt_ge_dec z (lo + 2 ^ Z.of_nat depth)).
    + apply (IH lo); [assumption|lia|assumption].
    + apply (IH (lo + 2 ^ Z.of_nat depth)); [assumption|lia|assumption].
Qed.

Lemma dayCheck_era (z k : Z) : dayCheck (z + daysPerEra * k) = dayCheck z.
Proof.
  unfold dayCheck. cbv zeta.
  rewrite !addMonthsDay_era.
  repeat match goal with
         | |- context [?a <=? ?b] => destruct (Z.leb_spec a b)
         end; try reflexivity; lia.
Qed.

(** [addMonthsDay] on a day whose civil date is known. *)
Lemma addMonthsDay_from (z year m dayOfMonth amount : Z) :
  civil_from_days z = (year, m, dayOfMonth) ->
  addMonthsDay z amount = addMonthsFrom (targetMonth year m amount) dayOfMonth.
Proof.
  intros Hc. unfold addMonthsDay, targetMonth. rewrite Hc.
  destruct (civil_from_days (MakeDay year (m - 1 + amount + 1) 0))
    as [[endYear endM] daysInMonth].
  unfold addMonthsFrom.
  destruct (daysInMonth <=? dayOfMonth); [reflexivity|].
  unfold MakeDay. lia.
Qed.

Lemma dayOk_sound (year m z0 i : Z) :
  dayOk year m z0 (targetMonth year m (-1)) (targetMonth year m (-12)) i = true ->
  dayCheck (z0 + i) = true.
Proof.
  unfold dayOk, dayCheck. cbv zeta.
  destruct (civil_from_days (z0 + i)) as [[y' m'] d'] eqn:Hc.
  intros Hok. rewrite !andb_true_iff, !Z.eqb_eq in Hok.
  destruct Hok as [[[[[[-> ->] ->] H1] H2] H3] H4].
  rewrite (addMonthsDay_from _ _ _ _ (-1) Hc), (addMonthsDay_from _ _ _ _ (-12) Hc).
  rewrite H1, H2, H3, H4. reflexivity.
Qed.

Lemma daysOk_sound (n : nat) (len : Z) (ok : Z -> bool) :
  forall i0, daysOk n len ok i0 = true ->
  forall i, i0 <= i < len -> ok i = true.
Proof.
  induction n as [|n IH]; intros i0 Hall i Hi; cbn [daysOk] in Hall;
    destruct (Z.leb_spec len i0) as [Hle|Hlt]; try lia; try discriminate.
  apply andb_true_iff in Hall as [Hhere Hrest].
  destruct (Z.eq_dec i i0) as [->|Hne]; [exact Hhere|].
  apply (IH (i0 + 1) Hrest). lia.
Qed.

Lemma monthCheck_sound (k i : Z) :
  monthCheck k = true ->
  0 <= i < monthStart (k + 1) - monthStart k ->
  dayCheck (monthStart k + i) = true.
Proof.
  unfold monthCheck. cbv zeta. intros Hall Hi.
  eapply dayOk_sound, (daysOk_sound _ _ _ 0 Hall). exact Hi.
Qed.

(** The months of one 400-year period, checked one by one. *)
Lemma monthCheck_period : checkRange monthCheck monthsPerEra 13 0 = true.
Proof. vm_cast_no_check (eq_refl true). Qed.

(** Consecutive months tile the days. *)
Lemma month_of_day (n : Z) :
  0 <= n ->
  forall z, monthStart 0 <= z < monthStart n ->
  exists k, 0 <= k < n /\ monthStart k <= z < monthStart (k + 1).
Proof.
  intros Hn. pattern n. apply natlike_ind; [| |exact Hn].
  - intros z Hz. lia.
  - intros x Hx IH z Hz.
    destruct (Z_lt_ge_dec z (monthStart x)) as [Hlt|Hge].
    + destruct (IH z) as (k & Hk & Hin); [lia|].
      exists k. split; [lia|exact Hin].
    + exists x. split; [lia|]. unfold Z.succ in Hz. lia.
Qed.

Lemma monthStart_era : monthStart monthsPerEra = monthStart 0 + daysPerEra.
Proof. reflexivity. Qed.

Lemma dayCheck_all (z : Z) : dayCheck z = true.
Proof.
  assert (Hper : 0 < daysPerEra) by (unfold daysPerEra; lia).
  pose proof (Z.mod_pos_bound (z - monthStart 0) daysPerEra Hper) as Hb.
  assert (E : z = monthStart 0 + (z - monthStart 0) mod daysPerEra
                  + daysPerEra * ((z - monthStart 0) / daysPerEra))
    by (pose proof (Z.div_mod (z - monthStart 0) daysPerEra); lia).
  rewrite E, dayCheck_era.
  destruct (month_of_day monthsPerEra ltac:(unfold monthsPerEra; lia)
              (monthStart 0 + (z - monthStart 0) mod daysPerEra))
    as (k & Hk & Hin).
  { rewrite monthStart_era. lia. }
  replace (monthStart 0 + (z - monthStart 0) mod daysPerEra)
    with (monthStart k
          + (monthStart 0 + (z - monthStart 0) mod daysPerEra - monthStart k))
    by lia.
  apply monthCheck_sound; [|lia].
  apply (checkRange_sound monthCheck monthsPerEra 13 0 _ monthCheck_period);
    [|lia].
  change (2 ^ Z.of_nat 13) with 8192. unfold monthsPerEra in *. lia.
Qed.

Lemma addMonthsDay_month_back (z : Z) :
  z - 31 <= addMonthsDay z (-1) <= z - 28.
Proof.
  pose proof (dayCheck_all z) as H. unfold dayCheck in H. cbv zeta in H.
  rewrite !andb_true_iff, !Z.leb_le in H. lia.
Qed.

Lemma addMonthsDay_year_back (z : Z) :
  z - 366 <= addMonthsDay z (-12) <= z - 365.
Proof.
  pose proof (dayCheck_all z) as H. unfold dayCheck in H. cbv zeta in H.
  rewrite !andb_true_iff, !Z.leb_le in H. lia.
Qed.

Lemma subWeeks_one (now : Z) : subWeeks now 1 = now - 7 * msPerDay.
Proof.
  unfold subWeeks, addWeeks, addDays.
  change (- (1) * 7) with (Zneg 7). change (Zneg 7 =? 0) with false. cbv iota.
  pose proof (Z.div_mod now msPerDay) as E.
  unfold msPerDay in *. lia.
Qed.

Lemma subMonths_one (now : Z) :
  now - 31 * msPerDay <= subMonths now 1 <= now - 28 * msPerDay.
Proof.
  unfold subMonths, addMonths.
  change (- (1)) with (Zneg 1). change (Zneg 1 =? 0) with false. cbv iota.
  pose proof (addMonthsDay_month_back (now / msPerDay)) as H.
  pose proof (Z.div_mod now msPerDay) as E.
  unfold msPerDay in *. lia.
Qed.

Lemma subYears_one (now : Z) :
  now - 366 * msPerDay <= subYears now 1 <= now - 365 * msPerDay.
Proof.
  unfold subYears, addYears, addMonths.
  change (- (1) * 12) with (Zneg 12). change (Zneg 12 =? 0) with false. cbv iota.
  pose proof (addMonthsDay_year_back (now / msPerDay)) as H.
  pose proof (Z.div_mod now msPerDay) as E.
  unfold msPerDay in *. lia.
Qed.

End DateFnsFacts.

(* ===================================================================== *)
(** * Properties of the notification repository *)
(* ===================================================================== *)

Module DalFacts.
Import Dal.
Import DateFns (msPerDay, msPerHour).

Lemma In_insertDesc (n x : NotificationEntity) (l : list NotificationEntity) :
  In x (insertDesc n l) -> x = n \/ In x l.
Proof.
  induction l as [|y ys IH]; simpl.
  - intros [H|[]]; auto.
  - destruct (createdAt y <=? createdAt n); simpl.
    + intros [H|[H|H]]; auto.
    + intros [H|H]; auto. destruct (IH H); auto.
Qed.

Lemma In_sortDesc (x : NotificationEntity) (l : list NotificationEntity) :
  In x (sortDesc l) -> In x l.
Proof.
  induction l as [|y ys IH]; simpl; [tauto|].
  intros H. apply In_insertDesc in H as [->|H]; auto.
Qed.

Lemma In_skipn {A} (x : A) (k : nat) (l : list A) : In x (skipn k l) -> In x l.
Proof.
  revert l; induction k as [|k IH]; intros [|y ys]; simpl; auto.
Qed.

Lemma In_firstn {A} (x : A) (k : nat) (l : list A) : In x (firstn k l) -> In x l.
Proof.
  revert l; induction k as [|k IH]; intros [|y ys]; simpl; try tauto.
  intros [H|H]; auto.
Qed.

Lemma In_skipLimit {A} (x : A) (skip limit : nat) (l : list A) :
  In x (skipLimit skip limit l) -> In x l.
Proof.
  unfold skipLimit. destruct limit; intros H.
  - eapply In_skipn; eauto.
  - eapply In_skipn, In_firstn; eauto.
Qed.

(** Whatever the caller's filters are, the filter [getFeed] builds keeps
    its condition on the environment. *)
Lemma feedRequestQuery_environment (environmentId : string) (query : FeedQuery) :
  fq_environmentId (feedRequestQuery environmentId query) = Some environmentId.
Proof.
  unfold feedRequestQuery.
  destruct query as [ch te su tr]; simpl.
  destruct tr as [t|]; [destruct (bool_decide (t = ""))|];
    destruct te as [tl|]; destruct su as [sl|];
    try destruct (0 <? length sl)%nat; destruct ch as [cl|]; reflexivity.
Qed.

Lemma matches_environment (q : FilterQuery) (e : string) (n : NotificationEntity) :
  fq_environmentId q = Some e -> matches q n = true -> _environmentId n = e.
Proof.
  unfold matches. intros ->. simpl.
  rewrite !andb_true_iff, bool_decide_eq_true. tauto.
Qed.

Lemma getFeed_data_in (db : Db) (environmentId : string) (query : FeedQuery)
    (skip limit : nat) (item : FeedItem) :
  In item (data (getFeed db environmentId query skip limit)) ->
  In (entity item) (notifications db)
  /\ matches (feedRequestQuery environmentId query) (entity item) = true.
Proof.
  unfold getFeed; simpl. rewrite in_map_iff.
  intros (n & <- & Hn). simpl.
  apply In_skipLimit, In_sortDesc in Hn.
  unfold find in Hn. apply filter_In in Hn. exact Hn.
Qed.

(** The jobs attached to a feed entry are jobs of the queried
    environment too. *)
Lemma getFeed_jobs_environment (db : Db) (environmentId : string)
    (query : FeedQuery) (skip limit : nat) (item : FeedItem) (j : JobEntity) :
  In item (data (getFeed db environmentId query skip limit)) ->
  In j (item_jobs item) -> job_environmentId j = environmentId.
Proof.
  unfold getFeed; simpl. rewrite in_map_iff.
  intros (n & <- & _). simpl. rewrite filter_In.
  rewrite !andb_true_iff, !bool_decide_eq_true. tauto.
Qed.

(** ** Counting for [getStats] *)

Lemma sumZ_indicator (p : NotificationEntity -> bool) (l : list NotificationEntity) :
  sumZ (map (fun n => if p n then 1 else 0) l) = countIf p l.
Proof.
  unfold countIf. induction l as [|x xs IH]; simpl; [reflexivity|].
  unfold sumZ in *. simpl. rewrite IH.
  destruct (p x); simpl length; lia.
Qed.

Lemma sumZ_ones (l : list NotificationEntity) :
  sumZ (map (fun _ => 1) l) = Z.of_nat (length l).
Proof.
  induction l as [|x xs IH]; simpl; [reflexivity|].
  unfold sumZ in *. simpl fold_right. rewrite IH. lia.
Qed.

Lemma countIf_filter (p q : NotificationEntity -> bool) (l : list NotificationEntity) :
  countIf p (List.filter q l) = countIf (fun n => q n && p n) l.
Proof.
  unfold countIf. f_equal. f_equal.
  induction l as [|x xs IH]; simpl; [reflexivity|].
  destruct (q x); simpl; [destruct (p x)|]; rewrite IH; reflexivity.
Qed.

Lemma countIf_ext (p q : NotificationEntity -> bool) (l : list NotificationEntity) :
  (forall n, p n = q n) -> countIf p l = countIf q l.
Proof.
  intros H. unfold countIf. f_equal. f_equal. apply filter_ext. exact H.
Qed.

Lemma statsMatch_filter (env : string) (yearBefore : Z) (coll : list NotificationEntity) :
  statsMatch env yearBefore coll = List.filter (createdSince env yearBefore) coll.
Proof.
  unfold statsMatch, find. apply filter_ext. intros n.
  unfold matches, createdSince. simpl. rewrite !andb_true_r. reflexivity.
Qed.

Lemma orZero_Some (v : Z) : orZero (Some v) = v.
Proof. unfold orZero. destruct (Z.eqb_spec v 0); congruence. Qed.

(** Within the one-year window, a later cut-off counts the documents
    created at or after it. *)
Lemma createdSince_within (env : string) (yearBefore since : Z) (n : NotificationEntity) :
  yearBefore <= since ->
  createdSince env yearBefore n && (since <=? createdAt n) = createdSince env since n.
Proof.
  intros Hle. unfold createdSince.
  destruct (bool_decide (_environmentId n = env)); simpl; [|reflexivity].
  destruct (Z.leb_spec since (createdAt n)), (Z.leb_spec yearBefore (createdAt n));
    simpl; try reflexivity; lia.
Qed.

(** The result of [getStats] for arbitrary cut-offs: the fields of the
    group document, or zeros when no document is in the window. *)
Lemma statsGroup_counts (weekBefore monthBefore : Z) (docs : list NotificationEntity) :
  let stats := head (statsGroup weekBefore monthBefore docs) in
  orZero (doc_weekly <$> stats) = countIf (fun n => weekBefore <=? createdAt n) docs
  /\ orZero (doc_monthly <$> stats) = countIf (fun n => monthBefore <=? createdAt n) docs
  /\ orZero (doc_yearly <$> stats) = Z.of_nat (length docs).
Proof.
  destruct docs as [|d ds]; [repeat split|].
  unfold statsGroup. cbn [head fmap option_fmap option_map doc_weekly doc_monthly doc_yearly].
  rewrite !orZero_Some, !sumZ_indicator, sumZ_ones. repeat split.
Qed.

(** ** The feed is scoped to one environment *)

(** C1. For every environment id [E1] and every filter, skip and limit,
    every record returned by [getFeed E1 ...] has environment id [E1];
    in particular, for [E1 <> E2], no returned record has environment id
    [E2]. *)
Theorem getFeed_tenant_isolation (db : Db) (E1 : string) (query : FeedQuery)
    (skip limit : nat) :
  (forall item,
      In item (data (getFeed db E1 query skip limit)) ->
      _environmentId (entity item) = E1)
  /\ (forall E2 item,
      E1 <> E2 ->
      In item (data (getFeed db E1 query skip limit)) ->
      _environmentId (entity item) <> E2).
Proof.
  assert (Hin : forall item,
             In item (data (getFeed db E1 query skip limit)) ->
             _environmentId (entity item) = E1).
  { intros item Hitem. apply getFeed_data_in in Hitem as [_ Hm].
    eapply matches_environment; [apply feedRequestQuery_environment|exact Hm]. }
  split; [exact Hin|].
  intros E2 item Hne Hitem Heq. apply Hne.
  rewrite <- Heq. symmetry. apply Hin. exact Hitem.
Qed.

Lemma getFeed_tenant_isolation_witness :
  In sampleItem (data (getFeed sampleDb "env1" emptyFeedQuery 0 10))
  /\ _environmentId (entity sampleItem) = "env1"
  /\ _environmentId (entity sampleItem) <> "env2".
Proof.
  assert (Hin : In sampleItem (data (getFeed sampleDb "env1" emptyFeedQuery 0 10)))
    by (vm_compute; auto).
  split; [exact Hin|]. split.
  - exact (proj1 (getFeed_tenant_isolation sampleDb "env1" emptyFeedQuery 0 10)
             sampleItem Hin).
  - refine (proj2 (getFeed_tenant_isolation sampleDb "env1" emptyFeedQuery 0 10)
              "env2" sampleItem _ Hin).
    discriminate.
Defined.

(** ** The three counts of [getStats] *)

(** When the week and month cut-offs lie inside the one-year window,
    each count is the number of documents of the environment created at
    or after its cut-off. *)
Lemma getStats_counts (lib : DateLib) (now : Z) (coll : list NotificationEntity)
    (env : string) :
  subYears lib now 1 <= subWeeks lib now 1 ->
  subYears lib now 1 <= subMonths lib now 1 ->
  weekly (getStats lib now coll env)
    = countIf (createdSince env (subWeeks lib now 1)) coll
  /\ monthly (getStats lib now coll env)
    = countIf (createdSince env (subMonths lib now 1)) coll
  /\ yearly (getStats lib now coll env)
    = countIf (createdSince env (subYears lib now 1)) coll.
Proof.
  intros Hw Hm.
  unfold getStats. cbv zeta. cbn [weekly monthly yearly].
  destruct (statsGroup_counts (subWeeks lib now 1) (subMonths lib now 1)
              (statsMatch env (subYears lib now 1) coll)) as (-> & -> & ->).
  rewrite statsMatch_filter, !countIf_filter.
  split; [|split].
  - apply countIf_ext. intros n. apply createdSince_within. exact Hw.
  - apply countIf_ext. intros n. apply createdSince_within. exact Hm.
  - reflexivity.
Qed.

(** With cut-offs 7 days, 28 to 31 days and 365 or 366 days back (up to
    an hour), records created 8, 40 and 400 days before now count as
    weekly 0, monthly 1, yearly 2. *)
Lemma getStats_example (lib : DateLib) (now : Z) (env : string)
    (r1 r2 r3 : NotificationEntity) :
  now - 7 * msPerDay - msPerHour <= subWeeks lib now 1
    <= now - 7 * msPerDay + msPerHour ->
  now - 31 * msPerDay - msPerHour <= subMonths lib now 1
    <= now - 28 * msPerDay + msPerHour ->
  now - 366 * msPerDay - msPerHour <= subYears lib now 1
    <= now - 365 * msPerDay + msPerHour ->
  _environmentId r1 = env -> _environmentId r2 = env ->
  _environmentId r3 = env ->
  createdAt r1 = now - 8 * msPerDay ->
  createdAt r2 = now - 40 * msPerDay ->
  createdAt r3 = now - 400 * msPerDay ->
  getStats lib now [r1; r2; r3] env = {| weekly := 0; monthly := 1; yearly := 2 |}.
Proof.
  intros Hw Hm Hy E1 E2 E3 C1 C2 C3.
  assert (Hyw : subYears lib now 1 <= subWeeks lib now 1)
    by (unfold msPerDay, msPerHour in *; lia).
  assert (Hym : subYears lib now 1 <= subMonths lib now 1)
    by (unfold msPerDay, msPerHour in *; lia).
  destruct (getStats_counts lib now [r1; r2; r3] env Hyw Hym) as (Sw & Sm & Sy).
  destruct (getStats lib now [r1; r2; r3] env) as [w m y].
  cbn [weekly monthly yearly] in Sw, Sm, Sy. subst w m y.
  unfold countIf, createdSince. cbn [List.filter].
  rewrite E1, E2, E3, C1, C2, C3.
  rewrite !bool_decide_eq_true_2 by reflexivity. cbn [andb].
  unfold msPerDay, msPerHour in *.
  repeat match goal with
         | |- context [?a <=? ?b] => destruct (Z.leb_spec a b); try lia
         end.
  reflexivity.
Qed.

(** C8. [getStats] counts by conditional sums over a one-year window.
    For date helpers that go back 7 days for a week, 28 to 31 days for a
    month and 365 or 366 days for a year (up to the hour a daylight
    saving change moves the wall clock), a record of the environment
    counts toward [weekly] iff it was created at or after the instant
    one week before now, toward [monthly] iff at or after the instant
    one month before now, toward [yearly] iff at or after the instant
    one year before now.  Hence records created 8, 40 and 400 days
    before now give weekly 0, monthly 1, yearly 2. *)
Theorem getStats_windows (lib : DateLib) (now : Z) (env : string) :
  now - 7 * msPerDay - msPerHour <= subWeeks lib now 1
    <= now - 7 * msPerDay + msPerHour ->
  now - 31 * msPerDay - msPerHour <= subMonths lib now 1
    <= now - 28 * msPerDay + msPerHour ->
  now - 366 * msPerDay - msPerHour <= subYears lib now 1
    <= now - 365 * msPerDay + msPerHour ->
  (forall coll,
      weekly (getStats lib now coll env)
        = countIf (createdSince env (subWeeks lib now 1)) coll
      /\ monthly (getStats lib now coll env)
        = countIf (createdSince env (subMonths lib now 1)) coll
      /\ yearly (getStats lib now coll env)
        = countIf (createdSince env (subYears lib now 1)) coll)
  /\ (forall r1 r2 r3,
      _environmentId r1 = env -> _environmentId r2 = env ->
      _environmentId r3 = env ->
      createdAt r1 = now - 8 * msPerDay ->
      createdAt r2 = now - 40 * msPerDay ->
      createdAt r3 = now - 400 * msPerDay ->
      getStats lib now [r1; r2; r3] env
        = {| weekly := 0; monthly := 1; yearly := 2 |}).
Proof.
  intros Hw Hm Hy. split.
  - intros coll.
    apply getStats_counts; unfold msPerDay, msPerHour in *; lia.
  - intros r1 r2 r3. apply getStats_example; assumption.
Qed.

Lemma getStats_windows_witness :
  getStats utcDates sampleNow
    [ sampleNotification "n1" "env1" (sampleNow - 8 * msPerDay);
      sampleNotification "n2" "env1" (sampleNow - 40 * msPerDay);
      sampleNotification "n3" "env1" (sampleNow - 400 * msPerDay) ] "env1"
  = {| weekly := 0; monthly := 1; yearly := 2 |}.
Proof.
  refine (proj2 (getStats_windows utcDates sampleNow "env1" _ _ _) _ _ _ _ _ _ _ _ _);
    try reflexivity; vm_compute; split; discriminate.
Defined.

Lemma utcDates_subWeeks (now amount : Z) :
  subWeeks utcDates now amount = DateFns.subWeeks now amount.
Proof. reflexivity. Qed.

Lemma utcDates_subMonths (now amount : Z) :
  subMonths utcDates now amount = DateFns.subMonths now amount.
Proof. reflexivity. Qed.

Lemma utcDates_subYears (now amount : Z) :
  subYears utcDates now amount = DateFns.subYears now amount.
Proof. reflexivity. Qed.

(** In UTC the three bounds hold at every instant, so the counts and the
    example hold whenever [getStats] runs. *)
Lemma getStats_utc (now : Z) (env : string) :
  subWeeks utcDates now 1 = now - 7 * msPerDay
  /\ now - 31 * msPerDay <= subMonths utcDates now 1 <= now - 28 * msPerDay
  /\ now - 366 * msPerDay <= subYears utcDates now 1 <= now - 365 * msPerDay
  /\ (forall coll,
      weekly (getStats utcDates now coll env)
        = countIf (createdSince env (subWeeks utcDates now 1)) coll
      /\ monthly (getStats utcDates now coll env)
        = countIf (createdSince env (subMonths utcDates now 1)) coll
      /\ yearly (getStats utcDates now coll env)
        = countIf (createdSince env (subYears utcDates now 1)) coll)
  /\ (forall r1 r2 r3,
      _environmentId r1 = env -> _environmentId r2 = env ->
      _environmentId r3 = env ->
      createdAt r1 = now - 8 * msPerDay ->
      createdAt r2 = now - 40 * msPerDay ->
      createdAt r3 = now - 400 * msPerDay ->
      getStats utcDates now [r1; r2; r3] env
        = {| weekly := 0; monthly := 1; yearly := 2 |}).
Proof.
  pose proof (DateFnsFacts.subWeeks_one now) as Hw.
  pose proof (DateFnsFacts.subMonths_one now) as Hm.
  pose proof (DateFnsFacts.subYears_one now) as Hy.
  rewrite <- utcDates_subWeeks in Hw.
  rewrite <- utcDates_subMonths in Hm.
  rewrite <- utcDates_subYears in Hy.
  assert (Hh : 0 < msPerHour) by (unfold msPerHour; lia).
  split; [exact Hw|]. split; [exact Hm|]. split; [exact Hy|]. split.
  - intros coll. apply getStats_counts; unfold msPerDay in *; lia.
  - intros r1 r2 r3. apply getStats_example; lia.
Qed.

End DalFacts.

(* ===================================================================== *)
(** * Properties of the client feed store *)
(* ===================================================================== *)

Module FeedStoreFacts.
Import FeedStore.

(** ** Running [fetchPage] *)

Section Fetching.

Context (api : Api) (stores : option (list IStore)).

(** A rejected fetch: only [fetching] has changed, and the call was
    recorded. *)
Lemma fetchPage_rejected (p : PageNum) (isRefetch : bool) (sid : string)
    (w : World) (reason : string) :
  getNotificationsList api (calls w) p (getStoreQuery stores sid)
    = Rejected reason ->
  fetchPage api stores p isRefetch sid w =
  (Throw (Rejection reason),
   recordCall (GetNotificationsList p (getStoreQuery stores sid))
     (withStore (withFetching true (store w)) w)).
Proof.
  intros Hr. unfold fetchPage, bind, setFetching, modify, await.
  cbn [calls withStore]. rewrite Hr. reflexivity.
Qed.

(** A resolved fetch whose result can be stored completes. *)
Lemma fetchPage_resolved (p : PageNum) (isRefetch : bool) (sid : string)
    (w : World) (r : option (list IMessage)) :
  getNotificationsList api (calls w) p (getStoreQuery stores sid)
    = Resolved r ->
  isRefetch = true \/ is_Some r ->
  fetchPage api stores p isRefetch sid w =
  (Ok tt,
   recordCall (GetNotificationsList p (getStoreQuery stores sid))
     (withStore (fetchedStore sid isRefetch r (store w)) w)).
Proof.
  intros Hr Hok. unfold fetchPage, bind, setFetching, modify, await.
  cbn [calls withStore]. rewrite Hr.
  unfold fetchedStore, fewerThanTen, setHasNextPageOf, setPageOf,
    setNotificationsOf, spread, modify, gets, ret, throw, bind.
  destruct w as [s ts nh ck cs]; destruct s as [o pg hn f rt].
  cbn [store recordCall withStore withFetching withHasNextPage withPage
       withNotifications notifications page hasNextPage fetching
       refetchTimeout timers nextHandle clock calls].
  destruct r as [l|].
  - destruct (length l <? 10)%nat; cbn [negb];
      cbn [store recordCall withStore withFetching withHasNextPage withPage
           withNotifications notifications page hasNextPage fetching
           refetchTimeout timers nextHandle clock calls];
      destruct (pg !! sid); destruct isRefetch; reflexivity.
  - destruct Hok as [->|[l Hl]]; [|discriminate].
    cbn [store recordCall withStore withFetching withHasNextPage withPage
         withNotifications notifications page hasNextPage fetching
         refetchTimeout timers nextHandle clock calls].
    destruct (pg !! sid); reflexivity.
Qed.

(** Appending an undefined result is a [TypeError]. *)
Lemma fetchPage_undefined (p : PageNum) (sid : string) (w : World) :
  getNotificationsList api (calls w) p (getStoreQuery stores sid)
    = Resolved None ->
  fst (fetchPage api stores p false sid w) = Throw TypeError.
Proof.
  intros Hr. unfold fetchPage, bind, setFetching, modify, await.
  cbn [calls withStore]. rewrite Hr.
  unfold fewerThanTen, setHasNextPageOf, setPageOf, setNotificationsOf,
    spread, modify, gets, ret, throw, bind.
  cbn [store recordCall withStore withFetching withHasNextPage].
  destruct (page _ !! sid); reflexivity.
Qed.

(** Conversely, [fetchPage] completes only in that way. *)
Lemma fetchPage_Ok_inv (p : PageNum) (isRefetch : bool) (sid : string)
    (w w' : World) :
  fetchPage api stores p isRefetch sid w = (Ok tt, w') ->
  exists r,
    getNotificationsList api (calls w) p (getStoreQuery stores sid)
      = Resolved r
    /\ (isRefetch = true \/ is_Some r)
    /\ w' = recordCall (GetNotificationsList p (getStoreQuery stores sid))
              (withStore (fetchedStore sid isRefetch r (store w)) w).
Proof.
  intros Hrun.
  destruct (getNotificationsList api (calls w) p (getStoreQuery stores sid))
    as [r|reason] eqn:Hr.
  - assert (Hok : isRefetch = true \/ is_Some r).
    { destruct isRefetch; [left; reflexivity|].
      destruct r as [l|]; [right; eexists; reflexivity|].
      pose proof (fetchPage_undefined p sid w Hr) as Hu.
      rewrite Hrun in Hu. discriminate. }
    exists r. repeat split; [exact Hok|].
    rewrite (fetchPage_resolved p isRefetch sid w r Hr Hok) in Hrun.
    congruence.
  - rewrite (fetchPage_rejected p isRefetch sid w reason Hr) in Hrun.
    discriminate.
Qed.

(** [fetchNextPage] when the has-more flag is not [true]. *)
Lemma fetchNextPage_stop (sid : string) (w : World) :
  hasNextPage (store w) !! sid <> Some true ->
  fetchNextPage api stores sid w = (Ok tt, w).
Proof.
  intros Hn. unfold fetchNextPage, bind, gets.
  destruct (hasNextPage (store w) !! sid) as [[|]|]; try reflexivity.
  congruence.
Qed.

(** [fetchNextPage] when the has-more flag is [true]: the page counter is
    advanced, then the page is fetched. *)
Lemma fetchNextPage_go (sid : string) (w : World) :
  hasNextPage (store w) !! sid = Some true ->
  fetchNextPage api stores sid w =
  fetchPage api stores (plusOne (page (store w) !! sid)) false sid
    (withStore (withPage (<[sid := plusOne (page (store w) !! sid)]> (page (store w)))
                         (store w)) w).
Proof.
  intros Hn. unfold fetchNextPage, bind, gets. rewrite Hn.
  unfold setPageOf, modify. reflexivity.
Qed.

End Fetching.

(** ** Has-more flag and page counter *)

(** C2. After [fetchPage] completes, the has-more flag of the store is
    false iff the fetch returned fewer than 10 items; and when the
    has-more flag of a store is false, [fetchNextPage] on it performs no
    fetch and changes no state. *)
Theorem fetchPage_has_more (api : Api) (stores : option (list IStore)) :
  (forall p isRefetch sid w w',
      fetchPage api stores p isRefetch sid w = (Ok tt, w') ->
      hasNextPage (store w') !! sid = Some false <->
      exists l,
        getNotificationsList api (calls w) p (getStoreQuery stores sid)
          = Resolved (Some l)
        /\ (length l < 10)%nat)
  /\ (forall sid w,
      hasNextPage (store w) !! sid = Some false ->
      fetchNextPage api stores sid w = (Ok tt, w)).
Proof.
  split.
  - intros p isRefetch sid w w' Hrun.
    apply fetchPage_Ok_inv in Hrun as (r & Hr & _ & ->).
    cbn [store recordCall withStore fetchedStore hasNextPage].
    rewrite lookup_insert_eq, Hr. split.
    + intros Hflag. destruct r as [l|]; [|discriminate].
      exists l. split; [reflexivity|].
      destruct (Nat.ltb_spec (length l) 10); [assumption|discriminate].
    + intros (l & Hl & Hlt). injection Hl as ->.
      destruct (Nat.ltb_spec (length l) 10); [reflexivity|lia].
  - intros sid w Hflag. apply fetchNextPage_stop. congruence.
Qed.

Lemma fetchPage_has_more_witness :
  let api := resolvingApi sampleFeed in
  let w' := snd (fetchPage api None (PNum 0) true "default_store" initialWorld) in
  hasNextPage (store w') !! "default_store" = Some false
  /\ fetchNextPage api None "default_store" w' = (Ok tt, w').
Proof.
  intros api w'.
  assert (Hrun : fetchPage api None (PNum 0) true "default_store" initialWorld
                 = (Ok tt, w')) by reflexivity.
  assert (Hflag : hasNextPage (store w') !! "default_store" = Some false).
  { apply (proj1 (fetchPage_has_more api None) _ _ _ _ _ Hrun).
    exists sampleFeed. split; [reflexivity|]. simpl. lia. }
  split; [exact Hflag|].
  exact (proj2 (fetchPage_has_more api None) "default_store" w' Hflag).
Defined.

(** C3, as the code has it.  Only the store id ["default_store"] starts
    with page 0 and has-more true, so that [fetchNextPage] on it fetches
    page 1.  Any other store id has no entry at the start; a store id
    without a has-more entry is treated by [fetchNextPage] as having no
    more pages (no fetch, no state change); [fetchPage] on a store id
    without a page entry records page 0 for it. *)
Theorem unseen_store_defaults (api : Api) (stores : option (list IStore)) :
  page initialStore !! "default_store" = Some (PNum 0)
  /\ hasNextPage initialStore !! "default_store" = Some true
  /\ calls (snd (fetchNextPage api stores "default_store" initialWorld))
     = [GetNotificationsList (PNum 1) (getStoreQuery stores "default_store")]
  /\ (forall sid,
      sid <> "default_store" ->
      page initialStore !! sid = None /\ hasNextPage initialStore !! sid = None)
  /\ (forall sid w,
      hasNextPage (store w) !! sid = None ->
      fetchNextPage api stores sid w = (Ok tt, w))
  /\ (forall p isRefetch sid w w',
      page (store w) !! sid = None ->
      fetchPage api stores p isRefetch sid w = (Ok tt, w') ->
      page (store w') !! sid = Some (PNum 0)).
Proof.
  split; [reflexivity|]. split; [reflexivity|]. split; [|split; [|split]].
  - rewrite fetchNextPage_go by reflexivity.
    change (plusOne (page (store initialWorld) !! "default_store")) with (PNum 1).
    destruct (getNotificationsList api [] (PNum 1)
                (getStoreQuery stores "default_store")) as [r|reason] eqn:Hr.
    + destruct r as [l|].
      * erewrite fetchPage_resolved; [reflexivity|exact Hr|right; eexists; reflexivity].
      * unfold fetchPage, bind, setFetching, modify, await.
        cbn [calls withStore initialWorld]. rewrite Hr.
        reflexivity.
    + erewrite fetchPage_rejected; [reflexivity|exact Hr].
  - intros sid Hne. unfold initialStore; cbn [page hasNextPage].
    rewrite !lookup_singleton_ne by congruence. split; reflexivity.
  - intros sid w Hnone. apply fetchNextPage_stop. congruence.
  - intros p isRefetch sid w w' Hnone Hrun.
    apply fetchPage_Ok_inv in Hrun as (r & _ & _ & ->).
    cbn [store recordCall withStore fetchedStore page].
    rewrite Hnone. apply lookup_insert_eq.
Qed.

Lemma unseen_store_defaults_witness :
  hasNextPage (store initialWorld) !! "feed2" = None
  /\ fetchNextPage (resolvingApi sampleFeed) None "feed2" initialWorld
     = (Ok tt, initialWorld).
Proof.
  split; [reflexivity|].
  apply (proj1 (proj2 (proj2 (proj2 (proj2
           (unseen_store_defaults (resolvingApi sampleFeed) None)))))).
  reflexivity.
Defined.

(** C3 as stated fails: on the store id ["feed2"], never fetched,
    [fetchNextPage] makes no remote call, while the claim has it fetch
    page 1. *)
Lemma unseen_store_counterexample :
  page (store initialWorld) !! "feed2" = None
  /\ hasNextPage (store initialWorld) !! "feed2" = None
  /\ fetchNextPage (resolvingApi sampleFeed) None "feed2" initialWorld
     = (Ok tt, initialWorld)
  /\ calls (snd (fetchNextPage (resolvingApi sampleFeed) None "feed2" initialWorld))
     <> [GetNotificationsList (PNum 1) (getStoreQuery None "feed2")].
Proof.
  split; [reflexivity|]. split; [reflexivity|]. split; [reflexivity|].
  discriminate.
Qed.

(** C4, as the code has it.  A fetch that rejects leaves the has-more
    flags, the page counters and the message lists as [fetchPage] found
    them.  But [fetchNextPage] advances the page counter of the store
    before it starts the fetch: when that fetch rejects, the has-more
    flags and the message lists are unchanged and the page counter stays
    advanced by one. *)
Theorem rejected_fetch_state (api : Api) (stores : option (list IStore)) :
  (forall p isRefetch sid w reason,
      getNotificationsList api (calls w) p (getStoreQuery stores sid)
        = Rejected reason ->
      fst (fetchPage api stores p isRefetch sid w) = Throw (Rejection reason)
      /\ page (store (snd (fetchPage api stores p isRefetch sid w)))
         = page (store w)
      /\ hasNextPage (store (snd (fetchPage api stores p isRefetch sid w)))
         = hasNextPage (store w)
      /\ notifications (store (snd (fetchPage api stores p isRefetch sid w)))
         = notifications (store w))
  /\ (forall sid w reason,
      hasNextPage (store w) !! sid = Some true ->
      getNotificationsList api (calls w) (plusOne (page (store w) !! sid))
        (getStoreQuery stores sid) = Rejected reason ->
      fst (fetchNextPage api stores sid w) = Throw (Rejection reason)
      /\ page (store (snd (fetchNextPage api stores sid w)))
         = <[sid := plusOne (page (store w) !! sid)]> (page (store w))
      /\ hasNextPage (store (snd (fetchNextPage api stores sid w)))
         = hasNextPage (store w)
      /\ notifications (store (snd (fetchNextPage api stores sid w)))
         = notifications (store w)).
Proof.
  split.
  - intros p isRefetch sid w reason Hr.
    rewrite (fetchPage_rejected api stores p isRefetch sid w reason Hr).
    repeat split.
  - intros sid w reason Hmore Hr.
    rewrite fetchNextPage_go by exact Hmore.
    erewrite fetchPage_rejected; [|exact Hr].
    repeat split.
Qed.

Lemma rejected_fetch_state_witness :
  fst (fetchNextPage rejectingApi None "default_store" initialWorld)
    = Throw (Rejection "offline")
  /\ page (store (snd (fetchNextPage rejectingApi None "default_store" initialWorld)))
     = <[ "default_store" := PNum 1 ]> (page (store initialWorld))
  /\ hasNextPage (store (snd (fetchNextPage rejectingApi None "default_store"
                                 initialWorld)))
     = hasNextPage (store initialWorld)
  /\ notifications (store (snd (fetchNextPage rejectingApi None "default_store"
                                   initialWorld)))
     = notifications (store initialWorld).
Proof.
  apply (proj2 (rejected_fetch_state rejectingApi None)
           "default_store" initialWorld "offline"); reflexivity.
Defined.

(** C4 as stated fails: the fetch of [fetchNextPage] rejects, and the
    page counter of the store has moved from 0 to 1. *)
Lemma rejected_fetch_counterexample :
  fst (fetchNextPage rejectingApi None "default_store" initialWorld)
    = Throw (Rejection "offline")
  /\ page (store initialWorld) !! "default_store" = Some (PNum 0)
  /\ page (store (snd (fetchNextPage rejectingApi None "default_store" initialWorld)))
       !! "default_store" = Some (PNum 1)
  /\ page (store (snd (fetchNextPage rejectingApi None "default_store" initialWorld)))
       !! "default_store"
     <> page (store initialWorld) !! "default_store".
Proof.
  split; [reflexivity|]. split; [reflexivity|]. split; [reflexivity|].
  discriminate.
Qed.

(** ** [updateAction] *)

Lemma patchAction_id (messageId : string) (m m' : IMessage) :
  patchAction messageId m = Some m' -> _id m' = _id m.
Proof.
  unfold patchAction. destruct (bool_decide (_id m = messageId)).
  - destruct (cta m) as [c|]; [|discriminate].
    destruct (action c); [|discriminate].
    intros [= <-]. reflexivity.
  - intros [= <-]. reflexivity.
Qed.

Lemma patchAction_match (messageId : string) (m m' : IMessage) :
  patchAction messageId m = Some m' -> _id m = messageId ->
  actionStatus m' = Some DONE.
Proof.
  unfold patchAction. intros H Hid.
  rewrite bool_decide_eq_true_2 in H by exact Hid.
  destruct (cta m) as [c|]; [|discriminate].
  destruct (action c); [|discriminate].
  injection H as <-. reflexivity.
Qed.

Lemma patchAction_other (messageId : string) (m m' : IMessage) :
  patchAction messageId m = Some m' -> _id m <> messageId -> m' = m.
Proof.
  unfold patchAction. intros H Hid.
  rewrite bool_decide_eq_false_2 in H by exact Hid. congruence.
Qed.

Lemma mapMutating_Ok (f : IMessage -> option IMessage) (l l' : list IMessage) :
  mapMutating f l = (Ok tt, l') -> Forall2 (fun m m' => f m = Some m') l l'.
Proof.
  revert l'. induction l as [|x xs IH]; intros l'; simpl.
  - intros [= <-]. constructor.
  - destruct (f x) as [y|] eqn:Hx; [|discriminate].
    destruct (mapMutating f xs) as [r ys]. intros [= -> <-].
    constructor; [exact Hx|]. apply IH. reflexivity.
Qed.

Lemma patchStores_Ok (messageId : string) (o o' : Notifications) :
  patchStores messageId o = (Ok tt, o') ->
  Forall2 (patchedEntry messageId) o o'.
Proof.
  revert o'. induction o as [|[k v] rest IH]; intros o'; simpl.
  - intros [= <-]. constructor.
  - destruct v as [l|]; [|discriminate].
    destruct (mapMutating (patchAction messageId) l) as [[[]|e] l'] eqn:Hl;
      [|discriminate].
    destruct (patchStores messageId rest) as [r rest']. intros [= -> <-].
    constructor; [|apply IH; reflexivity].
    split; [reflexivity|]. exists l, l'. repeat split.
    apply mapMutating_Ok. exact Hl.
Qed.

Lemma patched_read (messageId sid : string) (o o' : Notifications) :
  Forall2 (patchedEntry messageId) o o' ->
  (forall l, obj_read sid o = Some l ->
     exists l', obj_read sid o' = Some l'
       /\ Forall2 (fun m m' => patchAction messageId m = Some m') l l')
  /\ (forall l', obj_read sid o' = Some l' ->
     exists l, obj_read sid o = Some l
       /\ Forall2 (fun m m' => patchAction messageId m = Some m') l l').
Proof.
  unfold obj_read.
  induction 1 as [|[k v] [k' v'] o o' (Hk & l0 & l0' & Hv & Hv' & Hall) _ IH];
    [split; intros ? [=]|].
  simpl in Hk, Hv, Hv'. subst k' v v'. simpl.
  destruct (bool_decide (k = sid)); [|exact IH].
  split.
  - intros l [= <-]. exists l0'. split; [reflexivity|exact Hall].
  - intros l' [= <-]. exists l0. split; [reflexivity|exact Hall].
Qed.

Lemma patched_keys (messageId : string) (o o' : Notifications) :
  Forall2 (patchedEntry messageId) o o' -> map fst o' = map fst o.
Proof.
  induction 1 as [|e e' o o' [Hk _] _ IH]; simpl; congruence.
Qed.

(** A completed [updateAction]: the remote call was made, and every
    store list was patched. *)
Lemma updateAction_Ok_inv (api : Api) (messageId : string)
    (actionButtonType : ButtonTypeEnum) (st : MessageActionStatusEnum)
    (payload : option Payload) (w w' : World) :
  updateAction api messageId actionButtonType st payload w = (Ok tt, w') ->
  exists o',
    Forall2 (patchedEntry messageId) (notifications (store w)) o'
    /\ w' = recordCall (UpdateAction messageId actionButtonType st payload)
              (withStore (withNotifications o' (store w)) w).
Proof.
  unfold updateAction, bind, await, gets.
  destruct (api_updateAction api (calls w) messageId actionButtonType st payload)
    as [[]|reason]; [|discriminate].
  cbn [store recordCall].
  destruct (patchStores messageId (notifications (store w))) as [r o'] eqn:Hp.
  unfold replaceNotifications, modify, ret, throw.
  destruct r as [[]|e]; [|discriminate].
  intros [= <-]. exists o'. split; [|reflexivity].
  apply patchStores_Ok. exact Hp.
Qed.

Lemma patched_list_done (messageId : string) (l l' : list IMessage) :
  Forall2 (fun m m' => patchAction messageId m = Some m') l l' ->
  forall m', In m' l' -> _id m' = messageId -> actionStatus m' = Some DONE.
Proof.
  induction 1 as [|m m0 l l' Hm _ IH]; intros m' Hin Hid; [destruct Hin|].
  destruct Hin as [<-|Hin]; [|exact (IH m' Hin Hid)].
  apply (patchAction_match messageId m m0 Hm).
  rewrite <- (patchAction_id messageId m m0 Hm). exact Hid.
Qed.

Lemma patched_list_frame (messageId : string) (l l' : list IMessage) :
  Forall2 (fun m m' => patchAction messageId m = Some m') l l' ->
  length l' = length l
  /\ forall (i : nat) m, l !! i = Some m -> _id m <> messageId -> l' !! i = Some m.
Proof.
  induction 1 as [|m m0 l l' Hm _ [IHlen IH]]; [split; [reflexivity|]|split].
  - intros i m Hi. destruct i; discriminate.
  - simpl. congruence.
  - intros [|i] x Hi Hid; simpl in *.
    + injection Hi as ->. f_equal. exact (patchAction_other messageId x m0 Hm Hid).
    + exact (IH i x Hi Hid).
Qed.

(** C5. After [updateAction M ...] completes, every message with id [M]
    in every store's message list has action status "done", and every
    message whose id is not [M] is unchanged, at its place, in every
    store; the set of stores, the page counters and the has-more flags
    are unchanged too. *)
Theorem updateAction_patch (api : Api) (M : string)
    (actionButtonType : ButtonTypeEnum) (st : MessageActionStatusEnum)
    (payload : option Payload) (w w' : World) :
  updateAction api M actionButtonType st payload w = (Ok tt, w') ->
  (forall sid l',
      obj_read sid (notifications (store w')) = Some l' ->
      forall m', In m' l' -> _id m' = M -> actionStatus m' = Some DONE)
  /\ (forall sid l,
      obj_read sid (notifications (store w)) = Some l ->
      exists l',
        obj_read sid (notifications (store w')) = Some l'
        /\ length l' = length l
        /\ forall (i : nat) m, l !! i = Some m -> _id m <> M -> l' !! i = Some m)
  /\ map fst (notifications (store w')) = map fst (notifications (store w))
  /\ page (store w') = page (store w)
  /\ hasNextPage (store w') = hasNextPage (store w).
Proof.
  intros Hrun. apply updateAction_Ok_inv in Hrun as (o' & Hall & ->).
  cbn [store recordCall withStore withNotifications notifications page hasNextPage].
  split; [|split; [|split; [|split]]]; try reflexivity.
  - intros sid l' Hl'.
    destruct (proj2 (patched_read M sid _ _ Hall) l' Hl') as (l & _ & Hll).
    exact (patched_list_done M l l' Hll).
  - intros sid l Hl.
    destruct (proj1 (patched_read M sid _ _ Hall) l Hl) as (l' & Hl' & Hll).
    exists l'. split; [exact Hl'|]. exact (patched_list_frame M l l' Hll).
  - exact (patched_keys M _ _ Hall).
Qed.


Lemma mapMutating_total (messageId : string) (l : list IMessage) :
  Forall (fun m => _id m = messageId ->
                   exists c a, cta m = Some c /\ action c = Some a) l ->
  exists l', mapMutating (patchAction messageId) l = (Ok tt, l').
Proof.
  induction 1 as [|m l Hm _ [l' IH]]; simpl; [eexists; reflexivity|].
  unfold patchAction at 1.
  destruct (bool_decide_reflect (_id m = messageId)) as [Hid|Hid].
  - destruct (Hm Hid) as (c & a & -> & ->). rewrite IH. eexists; reflexivity.
  - rewrite IH. eexists; reflexivity.
Qed.

Lemma patchStores_total (messageId : string) (o : Notifications) :
  patchable messageId o ->
  exists o', patchStores messageId o = (Ok tt, o').
Proof.
  induction 1 as [|[k v] o (l & Hv & Hl) _ [o' IH]]; simpl;
    [eexists; reflexivity|].
  simpl in Hv. subst v.
  destruct (mapMutating_total messageId l Hl) as [l' ->].
  rewrite IH. eexists; reflexivity.
Qed.

(** [updateAction] does complete when the remote call resolves and the
    store lists can be patched. *)
Lemma updateAction_completes (api : Api) (messageId : string)
    (actionButtonType : ButtonTypeEnum) (st : MessageActionStatusEnum)
    (payload : option Payload) (w : World) :
  api_updateAction api (calls w) messageId actionButtonType st payload
    = Resolved tt ->
  patchable messageId (notifications (store w)) ->
  exists w', updateAction api messageId actionButtonType st payload w = (Ok tt, w').
Proof.
  intros Hr Hp. unfold updateAction, bind, await, gets. rewrite Hr.
  cbn [store recordCall].
  destruct (patchStores_total messageId _ Hp) as [o' ->].
  eexists. reflexivity.
Qed.

Lemma updateAction_patch_witness :
  let w' := snd (updateAction (resolvingApi []) "m1" PRIMARY PENDING None sampleWorld) in
  obj_read "default_store" (notifications (store w'))
    = Some [ sampleMessage "m1" false (Some false) DONE;
             sampleMessage "m2" true None PENDING;
             sampleMessage "m3" false None PENDING ]
  /\ obj_read "archive" (notifications (store w'))
    = Some [ sampleMessage "m1" true (Some true) DONE ]
  /\ forall sid l',
      obj_read sid (notifications (store w')) = Some l' ->
      forall m', In m' l' -> _id m' = "m1" -> actionStatus m' = Some DONE.
Proof.
  intros w'. split; [reflexivity|]. split; [reflexivity|].
  refine (proj1 (updateAction_patch (resolvingApi []) "m1" PRIMARY PENDING None
                   sampleWorld w' _)).
  reflexivity.
Defined.


(** ** [markAsRead] *)

(** C6, as the code has it.  [markAsRead] performs the remote
    mark-as-read call and hands its result (the message, or the
    rejection) to the caller; it changes nothing in the component
    state. *)
Theorem markAsRead_remote_only (api : Api) (messageId : string) (w : World) :
  markAsRead api messageId w
  = (match markMessageAsRead api (calls w) messageId with
     | Resolved m => Ok m
     | Rejected reason => Throw (Rejection reason)
     end,
     recordCall (MarkMessageAsRead messageId) w)
  /\ store (snd (markAsRead api messageId w)) = store w
  /\ calls (snd (markAsRead api messageId w))
     = calls w ++ [MarkMessageAsRead messageId].
Proof.
  unfold markAsRead, await.
  destruct (markMessageAsRead api (calls w) messageId); repeat split.
Qed.

(** C6 as stated fails: the remote side answers with the message marked
    read, and the stored message of that id is still the unread one. *)
Lemma markAsRead_counterexample :
  let run := markAsRead (resolvingApi []) "m1" sampleWorld in
  fst run = Ok {| _id := "m1"; seen := true; read := Some true; cta := None |}
  /\ obj_read "default_store" (notifications (store sampleWorld))
     = Some sampleFeed
  /\ obj_read "default_store" (notifications (store (snd run)))
     = Some sampleFeed
  /\ In (sampleMessage "m1" false (Some false) PENDING) sampleFeed
  /\ ~ (forall m l,
          obj_read "default_store" (notifications (store (snd run))) = Some l ->
          In m l -> _id m = "m1" -> read m = Some true).
Proof.
  intros run. split; [reflexivity|]. split; [reflexivity|].
  split; [reflexivity|]. split; [left; reflexivity|].
  intros H.
  specialize (H (sampleMessage "m1" false (Some false) PENDING) sampleFeed
                eq_refl (or_introl eq_refl) eq_refl).
  discriminate H.
Qed.

(** ** [markNotificationsAsSeen] *)

Lemma filter_andb {A} (p q : A -> bool) (l : list A) :
  List.filter (fun x => p x && q x) l = List.filter q (List.filter p l).
Proof.
  induction l as [|x xs IH]; simpl; [reflexivity|].
  destruct (p x); simpl; [destruct (q x)|]; rewrite IH; reflexivity.
Qed.

Lemma filterReadNotifications_unseen (readExist : option bool) (l : list IMessage) :
  filterReadNotifications readExist
    (List.filter (fun notification => negb (seen notification)) l)
  = unseenToReport readExist l.
Proof.
  unfold filterReadNotifications, unseenToReport.
  destruct readExist as [[|]|].
  - rewrite filter_andb. reflexivity.
  - apply filter_ext. intros m. rewrite andb_true_r. reflexivity.
  - apply filter_ext. intros m. rewrite andb_true_r. reflexivity.
Qed.

Lemma seenIdsSent_app (cs cs' : list ApiCall) :
  seenIdsSent (cs ++ cs') = seenIdsSent cs ++ seenIdsSent cs'.
Proof. unfold seenIdsSent. apply flat_map_app. Qed.

Lemma unseenToReport_spec (readExist : option bool) (l : list IMessage) (m : IMessage) :
  In m (unseenToReport readExist l) <->
  In m l /\ seen m = false /\ (readExist = Some true -> read m <> None).
Proof.
  unfold unseenToReport. rewrite filter_In, andb_true_iff, negb_true_iff.
  unfold hasRead.
  destruct readExist as [[|]|]; destruct (read m);
    intuition (discriminate || congruence).
Qed.

(** C7. For a store id with a message list, [markNotificationsAsSeen]
    called without explicit messages sends to the remote mark-as-seen
    call exactly the ids of the messages of that store whose seen flag
    is false; when [readExist] is true, only of those among them whose
    [read] field is defined.  (One call is made when the store has an
    unseen message, none otherwise.) *)
Theorem markNotificationsAsSeen_unseen (api : Api) (readExist : option bool)
    (sid : string) (w : World) (l : list IMessage) :
  obj_read sid (notifications (store w)) = Some l ->
  let w' := snd (markNotificationsAsSeen api readExist None sid w) in
  let ids := map _id (unseenToReport readExist l) in
  seenIdsSent (calls w') = seenIdsSent (calls w) ++ ids
  /\ calls w'
     = calls w ++ (if (0 <? length (unseenToReport None l))%nat
                   then [MarkMessageAsSeen ids] else [])
  /\ store w' = store w
  /\ (forall m,
      In m (unseenToReport readExist l) <->
      In m l /\ seen m = false /\ (readExist = Some true -> read m <> None)).
Proof.
  intros Hl w' ids.
  assert (Hcalls : calls w'
     = calls w ++ (if (0 <? length (unseenToReport None l))%nat
                   then [MarkMessageAsSeen ids] else [])
     /\ store w' = store w).
  { subst w' ids. unfold markNotificationsAsSeen, bind, gets.
    unfold getNotificationsToMark. rewrite Hl.
    rewrite <- (filterReadNotifications_unseen None l).
    cbn [filterReadNotifications].
    destruct (0 <? length (List.filter (fun n => negb (seen n)) l))%nat.
    - rewrite filterReadNotifications_unseen. unfold await.
      destruct (markMessageAsSeen api (calls w) _); split; reflexivity.
    - unfold ret. cbn [snd]. rewrite app_nil_r. split; reflexivity. }
  destruct Hcalls as [Hcalls Hstore].
  split; [|split; [exact Hcalls|split; [exact Hstore|]]].
  - rewrite Hcalls, seenIdsSent_app. f_equal.
    destruct (Nat.ltb_spec 0 (length (unseenToReport None l))) as [Hpos|Hzero].
    + simpl. apply app_nil_r.
    + simpl. subst ids.
      assert (Hnil : unseenToReport None l = []).
      { destruct (unseenToReport None l); [reflexivity|simpl in Hzero; lia]. }
      assert (Hsub : unseenToReport readExist l = []).
      { destruct (unseenToReport readExist l) as [|m ms] eqn:E; [reflexivity|].
        assert (Hin : In m (unseenToReport None l)).
        { apply unseenToReport_spec.
          assert (Hm : In m (unseenToReport readExist l)) by (rewrite E; left; reflexivity).
          apply unseenToReport_spec in Hm. intuition discriminate. }
        rewrite Hnil in Hin. destruct Hin. }
      rewrite Hsub. reflexivity.
  - intros m. apply unseenToReport_spec.
Qed.

Lemma markNotificationsAsSeen_unseen_witness :
  calls (snd (markNotificationsAsSeen (resolvingApi []) (Some true) None
                "default_store" sampleWorld))
  = [MarkMessageAsSeen ["m1"]]
  /\ calls (snd (markNotificationsAsSeen (resolvingApi []) None None
                   "default_store" sampleWorld))
  = [MarkMessageAsSeen ["m1"; "m3"]].
Proof.
  split.
  - exact (proj1 (proj2 (markNotificationsAsSeen_unseen (resolvingApi []) (Some true)
                           "default_store" sampleWorld sampleFeed eq_refl))).
  - exact (proj1 (proj2 (markNotificationsAsSeen_unseen (resolvingApi []) None
                           "default_store" sampleWorld sampleFeed eq_refl))).
Defined.

(** ** [refetch] and its timers *)

Section Debounce.

Context (api : Api) (stores : option (list IStore)).

(** Whatever the remote side answers, [fetchPage] makes exactly one
    remote call and touches neither the timers nor the clock. *)
Lemma fetchPage_world (p : PageNum) (isRefetch : bool) (sid : string) (w : World) :
  calls (snd (fetchPage api stores p isRefetch sid w))
    = calls w ++ [GetNotificationsList p (getStoreQuery stores sid)]
  /\ timers (snd (fetchPage api stores p isRefetch sid w)) = timers w
  /\ clock (snd (fetchPage api stores p isRefetch sid w)) = clock w
  /\ nextHandle (snd (fetchPage api stores p isRefetch sid w)) = nextHandle w.
Proof.
  destruct (getNotificationsList api (calls w) p (getStoreQuery stores sid))
    as [r|reason] eqn:Hr.
  - destruct isRefetch.
    + rewrite (fetchPage_resolved api stores p true sid w r Hr) by (left; reflexivity).
      repeat split.
    + destruct r as [l|].
      * rewrite (fetchPage_resolved api stores p false sid w (Some l) Hr)
          by (right; eexists; reflexivity).
        repeat split.
      * unfold fetchPage, bind, setFetching, modify, await.
        cbn [calls withStore]. rewrite Hr.
        unfold fewerThanTen, setHasNextPageOf, setPageOf, setNotificationsOf,
          spread, modify, gets, ret, throw, bind.
        cbn [store recordCall withStore withFetching withHasNextPage].
        destruct (page _ !! sid); repeat split.
  - rewrite (fetchPage_rejected api stores p isRefetch sid w reason Hr).
    repeat split.
Qed.

(** The timer that a call of [refetch] sets. *)
Lemma refetch_world (sid : string) (w : World) :
  let pending :=
    match refetchTimeout (store w) !! sid with
    | Some (Some h) => withoutTimer h (timers w)
    | _ => timers w
    end in
  fst (refetch sid w) = Ok tt
  /\ timers (snd (refetch sid w))
     = pending ++ [ {| handle := nextHandle w; due := clock w + 250;
                       timer_storeId := sid |} ]
  /\ refetchTimeout (store (snd (refetch sid w))) !! sid = Some (Some (nextHandle w))
  /\ nextHandle (snd (refetch sid w)) = Pos.succ (nextHandle w)
  /\ clock (snd (refetch sid w)) = clock w
  /\ calls (snd (refetch sid w)) = calls w.
Proof.
  unfold refetch, bind, setFetching, modify, gets.
  cbn [store withStore withFetching refetchTimeout].
  destruct (refetchTimeout (store w) !! sid) as [[h|]|];
    unfold clearTimeout, setRefetchTimeoutOf, setTimeout, modify, ret, bind;
    cbn [store withStore withTimers withRefetchTimeout refetchTimeout timers
         nextHandle clock calls fst snd];
    rewrite lookup_insert_eq; repeat split.
Qed.

(** No pending timer is due: time passes and nothing else happens. *)
Lemma advance_idle (delay : Z) (w : World) :
  0 <= delay ->
  firstDue (clock w + delay) (timers w) = None ->
  advance api stores delay w = withClock (clock w + delay) w.
Proof.
  intros Hd Hnone. unfold advance.
  destruct (length (timers w)) as [|n]; simpl runTimers.
  - rewrite Z.max_r by lia. reflexivity.
  - rewrite Hnone. rewrite Z.max_r by lia. reflexivity.
Qed.

Lemma withoutTimer_self (t : Timer) (h : positive) :
  handle t = h -> withoutTimer h [t] = [].
Proof. intros <-. unfold withoutTimer. simpl. rewrite Pos.eqb_refl. reflexivity. Qed.

(** The single pending timer is due: it fires, and its callback fetches
    page 0 of its store. *)
Lemma advance_single (delay : Z) (w : World) (t : Timer) :
  timers w = [t] ->
  due t <= clock w + delay ->
  calls (advance api stores delay w)
    = calls w ++ [GetNotificationsList (PNum 0) (getStoreQuery stores (timer_storeId t))]
  /\ timers (advance api stores delay w) = [].
Proof.
  intros Ht Hdue. unfold advance. rewrite Ht. simpl length. simpl runTimers.
  rewrite Ht. simpl firstDue.
  destruct (Z.leb_spec (due t) (clock w + delay)); [|lia].
  unfold fire. rewrite Ht, (withoutTimer_self t (handle t) eq_refl).
  cbn [calls timers withClock].
  destruct (fetchPage_world (PNum 0) true (timer_storeId t)
              (withClock (Z.max (clock w) (due t)) (withTimers [] w)))
    as (Hc & Ht' & _ & _).
  rewrite Hc, Ht'. split; reflexivity.
Qed.

(** C9. Two [refetch] calls on a store id less than 250 ms apart, with
    no other timer pending, result in exactly one fetch of page 0: the
    timer of the first call is pending until the second call, which
    clears it and sets a new one; no fetch happens before, and the new
    timer fires 250 ms after the second call. *)
Theorem refetch_debounced (sid : string) (w : World) (d1 d2 : Z) :
  timers w = [] ->
  0 <= d1 < 250 ->
  250 <= d2 ->
  let w1 := snd (refetch sid w) in
  let w2 := advance api stores d1 w1 in
  let w3 := snd (refetch sid w2) in
  let w4 := advance api stores d2 w3 in
  timers w2 = [ {| handle := nextHandle w; due := clock w + 250;
                   timer_storeId := sid |} ]
  /\ calls w2 = calls w
  /\ timers w3 = [ {| handle := Pos.succ (nextHandle w); due := clock w + d1 + 250;
                      timer_storeId := sid |} ]
  /\ calls w3 = calls w
  /\ calls w4 = calls w ++ [GetNotificationsList (PNum 0) (getStoreQuery stores sid)]
  /\ timers w4 = [].
Proof.
  intros Hno Hd1 Hd2 w1 w2 w3 w4.
  destruct (refetch_world sid w) as (_ & Ht1 & Hr1 & Hn1 & Hc1 & Hcalls1).
  fold w1 in Ht1, Hr1, Hn1, Hc1, Hcalls1.
  assert (Htimers1 : timers w1 = [ {| handle := nextHandle w; due := clock w + 250;
                                      timer_storeId := sid |} ]).
  { rewrite Ht1, Hno. destruct (refetchTimeout (store w) !! sid) as [[h|]|];
      reflexivity. }
  assert (Hw2 : w2 = withClock (clock w1 + d1) w1).
  { subst w2. apply advance_idle; [lia|].
    rewrite Htimers1. simpl. rewrite Hc1.
    destruct (Z.leb_spec (clock w + 250) (clock w + d1)); [lia|reflexivity]. }
  destruct (refetch_world sid w2) as (_ & Ht3 & _ & _ & Hc3 & Hcalls3).
  fold w3 in Ht3, Hc3, Hcalls3.
  assert (Htimers3 : timers w3 = [ {| handle := Pos.succ (nextHandle w);
                                      due := clock w + d1 + 250;
                                      timer_storeId := sid |} ]).
  { rewrite Ht3, Hw2. cbn [store timers nextHandle clock withClock].
    rewrite Hr1, Htimers1, Hn1, Hc1.
    rewrite (withoutTimer_self {| handle := nextHandle w; due := clock w + 250;
                                  timer_storeId := sid |} (nextHandle w) eq_refl).
    reflexivity. }
  assert (Hcalls3' : calls w3 = calls w).
  { rewrite Hcalls3, Hw2. cbn [calls withClock]. exact Hcalls1. }
  destruct (advance_single d2 w3 _ Htimers3) as (Hc4 & Ht4).
  { cbn [due]. rewrite Hc3, Hw2. cbn [clock withClock]. rewrite Hc1. lia. }
  fold w4 in Hc4, Ht4. cbn [timer_storeId] in Hc4.
  repeat split.
  - rewrite Hw2. cbn [timers withClock]. exact Htimers1.
  - rewrite Hw2. cbn [calls withClock]. exact Hcalls1.
  - exact Htimers3.
  - exact Hcalls3'.
  - rewrite Hc4, Hcalls3'. reflexivity.
  - exact Ht4.
Qed.

End Debounce.

Lemma refetch_debounced_witness :
  let w1 := snd (refetch "default_store" initialWorld) in
  let w2 := advance (resolvingApi sampleFeed) None 100 w1 in
  let w3 := snd (refetch "default_store" w2) in
  let w4 := advance (resolvingApi sampleFeed) None 250 w3 in
  calls w4 = [GetNotificationsList (PNum 0) []] /\ timers w4 = [].
Proof.
  intros w1 w2 w3 w4.
  destruct (refetch_debounced (resolvingApi sampleFeed) None "default_store"
              initialWorld 100 250 eq_refl ltac:(lia) ltac:(lia))
    as (_ & _ & _ & _ & Hc & Ht).
  split; [exact Hc|exact Ht].
Defined.
End FeedStoreFacts.

(* ===================================================================== *)
(** * Further properties of the notification repository *)
(* ===================================================================== *)

Module DalMore.
Import Dal.

(** ** Size and order of a feed page *)




Lemma Forall_insertDesc (P : NotificationEntity -> Prop) (n : NotificationEntity)
    (l : list NotificationEntity) :
  P n -> Forall P l -> Forall P (insertDesc n l).
Proof.
  intros Hn Hl. induction Hl as [|x xs Hx Hxs IH]; simpl.
  - constructor; [exact Hn|constructor].
  - destruct (createdAt x <=? createdAt n); repeat constructor; assumption.
Qed.

Lemma insertDesc_sorted (n : NotificationEntity) (l : list NotificationEntity) :
  StronglySorted newerFirst l -> StronglySorted newerFirst (insertDesc n l).
Proof.
  induction 1 as [|x xs Hs IH Hall]; simpl.
  - constructor; constructor.
  - destruct (Z.leb_spec (createdAt x) (createdAt n)) as [Hle|Hlt].
    + constructor; [constructor; assumption|].
      constructor; [exact Hle|].
      eapply Forall_impl; [exact Hall|].
      unfold newerFirst. intros y Hy. lia.
    + constructor; [exact IH|].
      apply Forall_insertDesc; [unfold newerFirst; lia|exact Hall].
Qed.

Lemma sortDesc_sorted (l : list NotificationEntity) :
  StronglySorted newerFirst (sortDesc l).
Proof.
  induction l as [|x xs IH]; simpl; [constructor|].
  apply insertDesc_sorted. exact IH.
Qed.

Lemma StronglySorted_skipn {A} (R : A -> A -> Prop) (k : nat) (l : list A) :
  StronglySorted R l -> StronglySorted R (skipn k l).
Proof.
  revert l. induction k as [|k IH]; intros l Hs; [exact Hs|].
  destruct Hs as [|x xs Hs Hall]; simpl; [constructor|].
  apply IH. exact Hs.
Qed.

Lemma StronglySorted_firstn {A} (R : A -> A -> Prop) (k : nat) (l : list A) :
  StronglySorted R l -> StronglySorted R (firstn k l).
Proof.
  revert l. induction k as [|k IH]; intros l Hs; [constructor|].
  destruct Hs as [|x xs Hs Hall]; simpl; constructor.
  - apply IH. exact Hs.
  - rewrite List.Forall_forall in *. intros y Hy. apply Hall.
    apply (DalFacts.In_firstn y k xs Hy).
Qed.

Lemma StronglySorted_map {A B} (R : B -> B -> Prop) (f : A -> B) (l : list A) :
  StronglySorted (fun a b => R (f a) (f b)) l -> StronglySorted R (map f l).
Proof.
  induction 1 as [|x xs Hs IH Hall]; simpl; constructor; [exact IH|].
  rewrite List.Forall_forall in *. intros y Hy.
  apply in_map_iff in Hy as (a & <- & Ha). apply Hall. exact Ha.
Qed.

(** X2. The page of [getFeed] is ordered from newest to oldest: every
    entry is at least as recent as all entries after it. *)
Theorem getFeed_newest_first (db : Db) (env : string) (query : FeedQuery)
    (skip limit : nat) :
  StronglySorted (fun a b => createdAt (entity b) <= createdAt (entity a))
                 (data (getFeed db env query skip limit)).
Proof.
  unfold getFeed. cbn [data].
  apply (StronglySorted_map
           (fun a b : FeedItem => createdAt (entity b) <= createdAt (entity a))).
  cbn [entity populateFeed]. unfold skipLimit.
  pose proof (sortDesc_sorted (find (feedRequestQuery env query) (notifications db)))
    as Hs.
  destruct limit.
  - apply StronglySorted_skipn. exact Hs.
  - apply StronglySorted_firstn, StronglySorted_skipn. exact Hs.
Qed.




(** ** The filters of [getFeed] *)

Lemma feedRequestQuery_fields (env : string) (query : FeedQuery) :
  fq_transactionId (feedRequestQuery env query)
    = match query_transactionId query with
      | Some t => if bool_decide (t = "") then None else Some t
      | None => None
      end
  /\ fq_templateId_in (feedRequestQuery env query) = query_templates query
  /\ fq_subscriberId_in (feedRequestQuery env query)
     = match query_subscriberIds query with
       | Some l => if (0 <? length l)%nat then Some l else None
       | None => None
       end
  /\ fq_channels_in (feedRequestQuery env query) = query_channels query
  /\ fq_createdAt_gte (feedRequestQuery env query) = None.
Proof.
  unfold feedRequestQuery.
  destruct query as [ch te su tr]; simpl.
  destruct tr as [t|]; [destruct (bool_decide (t = ""))|];
    destruct te as [tl|]; destruct su as [sl|];
    try destruct (0 <? length sl)%nat; destruct ch as [cl|];
    repeat split.
Qed.

Lemma elemb_In `{EqDecision A} (x : A) (l : list A) :
  elemb x l = true <-> In x l.
Proof.
  unfold elemb. rewrite existsb_exists. split.
  - intros (y & Hy & Hxy). apply bool_decide_eq_true in Hxy. subst. exact Hy.
  - intros Hx. exists x. split; [exact Hx|]. apply bool_decide_eq_true. reflexivity.
Qed.

Lemma matches_satisfies (env : string) (query : FeedQuery) (n : NotificationEntity) :
  matches (feedRequestQuery env query) n = true <-> satisfies env query n.
Proof.
  destruct (feedRequestQuery_fields env query) as (Ht & Hte & Hs & Hc & Hd).
  unfold matches, satisfies.
  rewrite DalFacts.feedRequestQuery_environment, Ht, Hte, Hs, Hc, Hd.
  cbn [cond]. rewrite andb_true_r, !andb_true_iff, bool_decide_eq_true.
  destruct query as [ch te su tr]; cbn [query_channels query_templates
    query_subscriberIds query_transactionId].
  assert (Etr : cond match tr with
                     | Some t => if bool_decide (t = "") then None else Some t
                     | None => None
                     end (fun t => bool_decide (transactionId n = t)) = true
                <-> (forall t, tr = Some t -> t <> "" -> transactionId n = t)).
  { destruct tr as [t|]; [|split; [intros _ t' [=]|reflexivity]].
    destruct (bool_decide_reflect (t = "")) as [->|Hne]; cbn [cond].
    - split; [intros _ t' [= <-] Hne; congruence|reflexivity].
    - rewrite bool_decide_eq_true. split.
      + intros H t' [= <-] _. exact H.
      + intros H. apply H; [reflexivity|exact Hne]. }
  assert (Ete : cond te (fun l => elemb (_templateId n) l) = true
                <-> (forall l, te = Some l -> In (_templateId n) l)).
  { destruct te as [l|]; cbn [cond]; [|split; [intros _ l' [=]|reflexivity]].
    rewrite elemb_In. split; [intros H l' [= <-]; exact H|intros H; apply H; reflexivity]. }
  assert (Esu : cond match su with
                     | Some l => if (0 <? length l)%nat then Some l else None
                     | None => None
                     end (fun l => elemb (_subscriberId n) l) = true
                <-> (forall l, su = Some l -> l <> [] -> In (_subscriberId n) l)).
  { destruct su as [l|]; [|split; [intros _ l' [=]|reflexivity]].
    destruct l as [|s l]; cbn [length Nat.ltb Nat.leb cond].
    - split; [intros _ l' [= <-] Hne; congruence|reflexivity].
    - rewrite elemb_In. split.
      + intros H l' [= <-] _. exact H.
      + intros H. apply H; [reflexivity|discriminate]. }
  assert (Ech : cond ch (fun l => existsb (fun c => elemb c l) (channels n)) = true
                <-> (forall l, ch = Some l -> exists c, In c (channels n) /\ In c l)).
  { destruct ch as [l|]; cbn [cond]; [|split; [intros _ l' [=]|reflexivity]].
    rewrite existsb_exists. split.
    - intros (c & Hc1 & Hc2) l' [= <-]. exists c. split; [exact Hc1|].
      apply elemb_In. exact Hc2.
    - intros H. destruct (H l eq_refl) as (c & Hc1 & Hc2).
      exists c. split; [exact Hc1|]. apply elemb_In. exact Hc2. }
  rewrite Etr, Ete, Esu, Ech. tauto.
Qed.

Lemma In_insertDesc_iff (n x : NotificationEntity) (l : list NotificationEntity) :
  In x (insertDesc n l) <-> x = n \/ In x l.
Proof.
  split; [apply DalFacts.In_insertDesc|].
  induction l as [|y ys IH]; simpl.
  - intros [->|[]]. left; reflexivity.
  - destruct (createdAt y <=? createdAt n); simpl.
    + intros [->|[->|H]]; auto.
    + intros [->|[->|H]]; auto.
Qed.

Lemma In_sortDesc_iff (x : NotificationEntity) (l : list NotificationEntity) :
  In x (sortDesc l) <-> In x l.
Proof.
  induction l as [|y ys IH]; simpl; [tauto|].
  rewrite In_insertDesc_iff, IH. intuition congruence.
Qed.

(** X4. Without skip and limit, [getFeed] returns exactly the documents
    of the collection that belong to the environment and pass the
    caller's filters. *)
Theorem getFeed_exact (db : Db) (env : string) (query : FeedQuery)
    (n : NotificationEntity) :
  In n (map entity (data (getFeed db env query 0 0)))
  <-> In n (notifications db) /\ satisfies env query n.
Proof.
  unfold getFeed. cbn [data]. rewrite map_map.
  rewrite (map_ext _ (fun x => x)) by reflexivity. rewrite map_id.
  unfold skipLimit. change (skipn 0 ?l) with l.
  rewrite In_sortDesc_iff. unfold find. rewrite filter_In, matches_satisfies.
  reflexivity.
Qed.

(** X5. Every entry of any page of [getFeed] passes the caller's
    filters. *)
Theorem getFeed_filters_hold (db : Db) (env : string) (query : FeedQuery)
    (skip limit : nat) (item : FeedItem) :
  In item (data (getFeed db env query skip limit)) ->
  satisfies env query (entity item).
Proof.
  intros Hin. apply DalFacts.getFeed_data_in in Hin as [_ Hm].
  apply matches_satisfies. exact Hm.
Qed.

Lemma getFeed_filters_hold_witness :
  satisfies "env1" sampleFeedQuery (entity sampleItem).
Proof.
  apply (getFeed_filters_hold sampleDb "env1" sampleFeedQuery 0 10 sampleItem).
  vm_compute. auto.
Defined.

(** X6. Falsy filters are no filters: an empty transaction id and an
    empty subscriber list leave the feed as it is without them.  But an
    empty template list or an empty channel list matches nothing. *)
Theorem getFeed_empty_filters (db : Db) (env : string) (query : FeedQuery)
    (skip limit : nat) :
  (query_transactionId query = Some "" ->
   getFeed db env query skip limit
   = getFeed db env
       {| query_channels := query_channels query;
          query_templates := query_templates query;
          query_subscriberIds := query_subscriberIds query;
          query_transactionId := None |} skip limit)
  /\ (query_subscriberIds query = Some [] ->
      getFeed db env query skip limit
      = getFeed db env
          {| query_channels := query_channels query;
             query_templates := query_templates query;
             query_subscriberIds := None;
             query_transactionId := query_transactionId query |} skip limit)
  /\ (query_templates query = Some [] \/ query_channels query = Some [] ->
      getFeed db env query skip limit = {| totalCount := 0; data := [] |}).
Proof.
  split; [|split].
  - destruct query as [ch te su tr]; cbn. intros ->. reflexivity.
  - destruct query as [ch te su tr]; cbn. intros ->. reflexivity.
  - intros Hempty.
    assert (Hnone : find (feedRequestQuery env query) (notifications db) = []).
    { unfold find. induction (notifications db) as [|n ns IH]; [reflexivity|].
      simpl. rewrite IH.
      destruct (matches (feedRequestQuery env query) n) eqn:Hm; [|reflexivity].
      apply matches_satisfies in Hm as (_ & _ & Hte & _ & Hch).
      destruct Hempty as [He|He].
      + destruct (Hte [] He).
      + destruct (Hch [] He) as (c & _ & []). }
    unfold getFeed, countDocuments. rewrite Hnone. cbn.
    unfold skipLimit. destruct skip, limit; reflexivity.
Qed.

Lemma getFeed_empty_filters_witness :
  getFeed sampleDb "env1"
    {| query_channels := None; query_templates := Some [];
       query_subscriberIds := None; query_transactionId := None |} 0 10
  = {| totalCount := 0; data := [] |}.
Proof.
  apply (proj2 (proj2 (getFeed_empty_filters sampleDb "env1"
           {| query_channels := None; query_templates := Some [];
              query_subscriberIds := None; query_transactionId := None |} 0 10))).
  left. reflexivity.
Defined.

(** X7. The jobs attached to a feed entry are the jobs of that
    notification, within the queried environment, that are not trigger
    steps. *)
Theorem getFeed_jobs (db : Db) (env : string) (query : FeedQuery)
    (skip limit : nat) (item : FeedItem) (j : JobEntity) :
  In item (data (getFeed db env query skip limit)) ->
  (In j (item_jobs item) <->
   In j (jobs db)
   /\ job_notificationId j = _id (entity item)
   /\ job_environmentId j = env
   /\ job_type j <> TRIGGER).
Proof.
  unfold getFeed; cbn [data]. rewrite in_map_iff.
  intros (n & <- & _). cbn [item_jobs entity populateFeed].
  rewrite filter_In, !andb_true_iff, !bool_decide_eq_true, negb_true_iff.
  assert (E : elemb (job_type j) [TRIGGER] = false <-> job_type j <> TRIGGER).
  { unfold elemb. cbn [existsb]. rewrite orb_false_r.
    destruct (bool_decide_reflect (job_type j = TRIGGER)); split;
      congruence. }
  rewrite E. tauto.
Qed.

Lemma getFeed_jobs_witness :
  In {| job_id := "j1"; job_notificationId := "n3";
        job_environmentId := "env1"; job_type := STEP_IN_APP |}
     (item_jobs sampleItem).
Proof.
  apply (getFeed_jobs sampleDb "env1" emptyFeedQuery 0 10 sampleItem).
  - vm_compute. auto.
  - repeat split; [left; reflexivity|discriminate].
Defined.

(** ** Single-item and subscriber queries *)

(** X8. [getFeedItem] returns, if anything, a stored notification with
    the requested id, environment and organization; and it returns
    nothing exactly when the collection has no such notification.  An
    id that exists in another environment only is not found. *)
Theorem getFeedItem_scoped (db : Db) (id env org : string) :
  (forall item,
      getFeedItem db id env org = Some item ->
      In (entity item) (notifications db)
      /\ _id (entity item) = id
      /\ _environmentId (entity item) = env
      /\ _organizationId (entity item) = org)
  /\ (getFeedItem db id env org = None <->
      forall n, In n (notifications db) ->
                ~ (_id n = id /\ _environmentId n = env /\ _organizationId n = org)).
Proof.
  unfold getFeedItem. split.
  - intros item Hitem.
    destruct (List.find _ (notifications db)) as [n|] eqn:Hfind; [|discriminate].
    injection Hitem as <-. cbn [entity populateFeed].
    apply find_some in Hfind as [Hin Hm].
    rewrite !andb_true_iff, !bool_decide_eq_true in Hm. tauto.
  - split.
    + intros Hnone n Hin (H1 & H2 & H3).
      destruct (List.find _ (notifications db)) as [m|] eqn:Hfind; [discriminate|].
      pose proof (find_none _ _ Hfind n Hin) as Hm. cbn beta in Hm.
      rewrite !bool_decide_eq_true_2 in Hm by assumption. discriminate.
    + intros Hall.
      destruct (List.find _ (notifications db)) as [m|] eqn:Hfind; [|reflexivity].
      apply find_some in Hfind as [Hin Hm].
      rewrite !andb_true_iff, !bool_decide_eq_true in Hm.
      destruct (Hall m Hin). tauto.
Qed.

Lemma getFeedItem_scoped_witness :
  getFeedItem sampleDb "n3" "env1" "org" = Some sampleItem
  /\ _environmentId (entity sampleItem) = "env1"
  /\ getFeedItem sampleDb "n3" "env2" "org" = None.
Proof.
  split; [reflexivity|]. split.
  - apply (proj1 (getFeedItem_scoped sampleDb "n3" "env1" "org") sampleItem).
    reflexivity.
  - apply (proj2 (getFeedItem_scoped sampleDb "n3" "env2" "org")).
    intros n Hin (H1 & H2 & _).
    simpl in Hin. destruct Hin as [<-|[<-|[<-|[]]]]; discriminate.
Defined.

(** X9. [findBySubscriberId] returns the same notifications as [getFeed]
    filtered on that one subscriber, without skip and limit: the feed is
    the result of [findBySubscriberId] put newest first. *)
Theorem findBySubscriberId_feed (db : Db) (env subscriberId : string) :
  map entity
      (data (getFeed db env
               {| query_channels := None; query_templates := None;
                  query_subscriberIds := Some [subscriberId];
                  query_transactionId := None |} 0 0))
  = sortDesc (findBySubscriberId (notifications db) env subscriberId).
Proof.
  unfold getFeed. cbn [data]. rewrite map_map.
  rewrite (map_ext _ (fun x => x)) by reflexivity. rewrite map_id.
  unfold skipLimit. change (skipn 0 ?l) with l. f_equal.
  unfold find, findBySubscriberId. apply filter_ext. intros n.
  unfold feedRequestQuery, matches, elemb. cbn.
  rewrite !andb_true_r, orb_false_r. reflexivity.
Qed.

(** ** More on [getStats] *)

Lemma countIf_le (p q : NotificationEntity -> bool) (l : list NotificationEntity) :
  (forall n, p n = true -> q n = true) -> 0 <= countIf p l <= countIf q l.
Proof.
  intros Hpq. unfold countIf. split; [lia|]. apply inj_le.
  induction l as [|x xs IH]; simpl; [lia|].
  destruct (p x) eqn:Hp.
  - rewrite (Hpq x Hp). simpl. lia.
  - destruct (q x); simpl; lia.
Qed.

Lemma createdSince_mono (env : string) (a b : Z) (n : NotificationEntity) :
  a <= b -> createdSince env b n = true -> createdSince env a n = true.
Proof.
  unfold createdSince. rewrite !andb_true_iff, !Z.leb_le. intros Hab [He Hb].
  split; [exact He|lia].
Qed.

(** X10. When the date helpers put the week cut-off after the month
    cut-off and the month cut-off after the year cut-off, the three
    counts of [getStats] are nested: 0 <= weekly <= monthly <= yearly. *)
Theorem getStats_nested (lib : DateLib) (now : Z) (coll : list NotificationEntity)
    (env : string) :
  subYears lib now 1 <= subMonths lib now 1 ->
  subMonths lib now 1 <= subWeeks lib now 1 ->
  0 <= weekly (getStats lib now coll env)
    <= monthly (getStats lib now coll env)
  /\ monthly (getStats lib now coll env) <= yearly (getStats lib now coll env).
Proof.
  intros Hym Hmw.
  destruct (DalFacts.getStats_counts lib now coll env) as (-> & -> & ->);
    [lia|exact Hym|].
  split.
  - apply countIf_le. intros n. apply createdSince_mono. exact Hmw.
  - apply countIf_le. intros n. apply createdSince_mono. exact Hym.
Qed.

Lemma getStats_nested_witness :
  0 <= weekly (getStats utcDates sampleNow sampleActivity "env1")
    <= monthly (getStats utcDates sampleNow sampleActivity "env1")
  /\ monthly (getStats utcDates sampleNow sampleActivity "env1")
     <= yearly (getStats utcDates sampleNow sampleActivity "env1").
Proof.
  apply (getStats_nested utcDates sampleNow sampleActivity "env1");
    vm_compute; discriminate.
Defined.

Lemma filter_filter_andb {A} (p q : A -> bool) (l : list A) :
  List.filter q (List.filter p l) = List.filter (fun x => p x && q x) l.
Proof.
  induction l as [|x xs IH]; simpl; [reflexivity|].
  destruct (p x); simpl; [destruct (q x)|]; rewrite IH; reflexivity.
Qed.

(** X11. [getStats] of an environment depends on the documents of that
    environment alone: documents of other environments, wherever they
    stand in the collection, never change the three counts. *)
Theorem getStats_tenant_only (lib : DateLib) (now : Z)
    (coll : list NotificationEntity) (env : string) :
  getStats lib now coll env
  = getStats lib now
      (List.filter (fun n => bool_decide (_environmentId n = env)) coll) env.
Proof.
  unfold getStats. cbv zeta.
  assert (E : statsMatch env (subYears lib now 1) coll
              = statsMatch env (subYears lib now 1)
                  (List.filter (fun n => bool_decide (_environmentId n = env)) coll)).
  { rewrite !DalFacts.statsMatch_filter, filter_filter_andb.
    apply filter_ext. intros n. unfold createdSince.
    destruct (bool_decide (_environmentId n = env)); reflexivity. }
  rewrite <- E. reflexivity.
Qed.

(** X12. When no document of the environment is as recent as the year
    cut-off (in particular on an empty collection), the aggregation
    yields no group and [getStats] answers with three zeros. *)
Theorem getStats_nothing_recent (lib : DateLib) (now : Z)
    (coll : list NotificationEntity) (env : string) :
  (forall n, In n coll -> _environmentId n = env ->
             createdAt n < subYears lib now 1) ->
  getStats lib now coll env = {| weekly := 0; monthly := 0; yearly := 0 |}.
Proof.
  intros Hold.
  assert (Hnone : statsMatch env (subYears lib now 1) coll = []).
  { rewrite DalFacts.statsMatch_filter.
    induction coll as [|n ns IH]; [reflexivity|]. simpl.
    rewrite IH by (intros m Hm; apply Hold; right; exact Hm).
    unfold createdSince.
    destruct (bool_decide_reflect (_environmentId n = env)) as [He|He];
      [|reflexivity].
    specialize (Hold n (or_introl eq_refl) He).
    destruct (Z.leb_spec (subYears lib now 1) (createdAt n)); [lia|reflexivity]. }
  unfold getStats. cbv zeta. rewrite Hnone. reflexivity.
Qed.

Lemma getStats_nothing_recent_witness :
  getStats utcDates sampleNow (notifications sampleDb) "env1"
  = {| weekly := 0; monthly := 0; yearly := 0 |}.
Proof.
  apply (getStats_nothing_recent utcDates sampleNow (notifications sampleDb) "env1").
  intros n Hin _. simpl in Hin.
  destruct Hin as [<-|[<-|[<-|[]]]]; vm_compute; reflexivity.
Defined.

(** ** [getActivityGraphStats] *)

Lemma dayLtb_spec (a b : Z * Z * Z) :
  dayLtb a b = true <->
  a.1.1 < b.1.1
  \/ (a.1.1 = b.1.1 /\ (a.1.2 < b.1.2 \/ (a.1.2 = b.1.2 /\ a.2 < b.2))).
Proof.
  destruct a as [[y1 m1] d1], b as [[y2 m2] d2]. unfold dayLtb. cbn [fst snd].
  rewrite !orb_true_iff, !andb_true_iff, !orb_true_iff, !andb_true_iff,
    !Z.ltb_lt, !Z.eqb_eq.
  reflexivity.
Qed.

Lemma dayLtb_trans (a b c : Z * Z * Z) :
  dayLtb a b = true -> dayLtb b c = true -> dayLtb a c = true.
Proof. rewrite !dayLtb_spec. lia. Qed.

Lemma dayLtb_total (a b : Z * Z * Z) :
  a <> b -> dayLtb a b = false -> dayLtb b a = true.
Proof.
  intros Hne Hnlt.
  assert (Hn : ~ dayLtb a b = true) by congruence.
  rewrite dayLtb_spec in *.
  destruct a as [[y1 m1] d1], b as [[y2 m2] d2]. cbn [fst snd] in *.
  assert (~ (y1 = y2 /\ m1 = m2 /\ d1 = d2)) by (intros (-> & -> & ->); congruence).
  lia.
Qed.

Lemma dayLtb_irrefl (a : Z * Z * Z) : dayLtb a a = false.
Proof.
  destruct (dayLtb a a) eqn:E; [|reflexivity].
  apply dayLtb_spec in E. lia.
Qed.

Lemma groupInsert_count (key : Z * Z * Z) (t : string) (c : ChannelTypeEnum)
    (groups : list ActivityGroup) :
  sumZ (map group_count (groupInsert key t c groups))
  = sumZ (map group_count groups) + 1.
Proof.
  unfold sumZ. induction groups as [|g rest IH]; simpl; [reflexivity|].
  destruct (bool_decide (group_id g = key)); simpl; lia.
Qed.

Lemma groupInsert_ids (key : Z * Z * Z) (t : string) (c : ChannelTypeEnum)
    (groups : list ActivityGroup) :
  (In key (map group_id groups) ->
   map group_id (groupInsert key t c groups) = map group_id groups)
  /\ (~ In key (map group_id groups) ->
      map group_id (groupInsert key t c groups) = map group_id groups ++ [key]).
Proof.
  induction groups as [|g rest [IHin IHout]]; simpl.
  - split; [tauto|reflexivity].
  - destruct (bool_decide_reflect (group_id g = key)) as [He|Hne]; simpl.
    + split; [congruence|tauto].
    + split.
      * intros [Hg|Hin]; [congruence|]. rewrite IHin by exact Hin. reflexivity.
      * intros Hout. rewrite IHout by tauto. reflexivity.
Qed.

Lemma In_dec_day (key : Z * Z * Z) (l : list (Z * Z * Z)) :
  In key l \/ ~ In key l.
Proof.
  destruct (elemb key l) eqn:E.
  - left. apply elemb_In. exact E.
  - right. intros H. apply elemb_In in H. congruence.
Qed.

Lemma groupInsert_positive (key : Z * Z * Z) (t : string) (c : ChannelTypeEnum)
    (groups : list ActivityGroup) :
  Forall (fun g => 1 <= group_count g) groups ->
  Forall (fun g => 1 <= group_count g) (groupInsert key t c groups).
Proof.
  induction 1 as [|g rest Hg Hrest IH]; simpl.
  - constructor; [simpl; lia|constructor].
  - destruct (bool_decide (group_id g = key)); constructor; simpl;
      try assumption; lia.
Qed.

(** What grouping keeps true of the groups so far, for any unwound
    input. *)
Lemma groupByDay_from (unwound : list (NotificationEntity * ChannelTypeEnum)) :
  forall groups,
    NoDup (map group_id groups) ->
    Forall (fun g => 1 <= group_count g) groups ->
    let result :=
      fold_left
        (fun gs '(n, channel) => groupInsert (dayOf n) (_templateId n) channel gs)
        unwound groups in
    sumZ (map group_count result)
      = sumZ (map group_count groups) + Z.of_nat (length unwound)
    /\ NoDup (map group_id result)
    /\ Forall (fun g => 1 <= group_count g) result
    /\ (forall d, In d (map group_id result) <->
                  In d (map group_id groups) \/ In d (map (fun e => dayOf e.1) unwound)).
Proof.
  induction unwound as [|[n c] rest IH]; intros groups Hnd Hpos; cbn zeta.
  - simpl. repeat split; try assumption; try lia; tauto.
  - cbn [fold_left].
    destruct (groupInsert_ids (dayOf n) (_templateId n) c groups) as [Ein Eout].
    assert (Hnd' : NoDup (map group_id
                            (groupInsert (dayOf n) (_templateId n) c groups))).
    { destruct (In_dec_day (dayOf n) (map group_id groups)) as [Hin|Hout].
      - rewrite Ein by exact Hin. exact Hnd.
      - rewrite Eout by exact Hout.
        apply NoDup_app. repeat split; [exact Hnd| |apply NoDup_singleton].
        intros x Hx Hx'. apply list_elem_of_In in Hx.
        apply list_elem_of_singleton in Hx'. subst. tauto. }
    destruct (IH _ Hnd' (groupInsert_positive _ _ _ _ Hpos))
      as (Hsum & Hnd'' & Hpos'' & Hids).
    cbn zeta in *. repeat split; try assumption.
    + rewrite Hsum, groupInsert_count. cbn [length]. lia.
    + intros Hd. apply Hids in Hd as [Hd|Hd]; [|right; right; exact Hd].
      destruct (In_dec_day (dayOf n) (map group_id groups)) as [Hin|Hout].
      * rewrite Ein in Hd by exact Hin. left. exact Hd.
      * rewrite Eout in Hd by exact Hout.
        apply in_app_iff in Hd as [Hd|[<-|[]]]; [left; exact Hd|].
        right. left. reflexivity.
    + intros Hd. apply Hids.
      destruct (In_dec_day (dayOf n) (map group_id groups)) as [Hin|Hout].
      * rewrite Ein by exact Hin.
        destruct Hd as [Hd|[Hd|Hd]]; [left; exact Hd| |right; exact Hd].
        cbn [fst] in Hd. subst d. left. exact Hin.
      * rewrite Eout by exact Hout.
        destruct Hd as [Hd|[Hd|Hd]]; [| |right; exact Hd].
        -- left. apply in_app_iff. left. exact Hd.
        -- cbn [fst] in Hd. subst d. left. apply in_app_iff. right. left.
           reflexivity.
Qed.

Lemma insertGroupDesc_count (g : ActivityGroup) (l : list ActivityGroup) :
  sumZ (map group_count (insertGroupDesc g l))
  = group_count g + sumZ (map group_count l).
Proof.
  unfold sumZ. induction l as [|x xs IH]; simpl; [reflexivity|].
  destruct (dayLtb (group_id g) (group_id x)); simpl; lia.
Qed.

Lemma In_insertGroupDesc (g x : ActivityGroup) (l : list ActivityGroup) :
  In x (insertGroupDesc g l) <-> x = g \/ In x l.
Proof.
  induction l as [|y ys IH]; simpl; [intuition congruence|].
  destruct (dayLtb (group_id g) (group_id y)); simpl; rewrite ?IH;
    intuition congruence.
Qed.

Lemma In_sortGroupsDesc (x : ActivityGroup) (l : list ActivityGroup) :
  In x (sortGroupsDesc l) <-> In x l.
Proof.
  induction l as [|y ys IH]; simpl; [tauto|].
  rewrite In_insertGroupDesc, IH. intuition congruence.
Qed.

Lemma sortGroupsDesc_count (l : list ActivityGroup) :
  sumZ (map group_count (sortGroupsDesc l)) = sumZ (map group_count l).
Proof.
  induction l as [|x xs IH]; simpl; [reflexivity|].
  rewrite insertGroupDesc_count, IH. reflexivity.
Qed.

Lemma insertGroupDesc_sorted (g : ActivityGroup) (l : list ActivityGroup) :
  ~ In (group_id g) (map group_id l) ->
  StronglySorted laterDay l -> StronglySorted laterDay (insertGroupDesc g l).
Proof.
  intros Hfresh Hs. induction Hs as [|x xs Hs IH Hall]; simpl.
  - constructor; constructor.
  - simpl in Hfresh.
    destruct (dayLtb (group_id g) (group_id x)) eqn:Hlt.
    + constructor; [apply IH; tauto|].
      rewrite List.Forall_forall in *. intros y Hy.
      apply (proj1 (In_insertGroupDesc _ _ _)) in Hy as [->|Hy];
        [exact Hlt|apply Hall; exact Hy].
    + assert (Hgt : dayLtb (group_id x) (group_id g) = true).
      { apply dayLtb_total; [|exact Hlt]. intros E. apply Hfresh. left.
        congruence. }
      constructor; [constructor; assumption|].
      constructor; [exact Hgt|].
      rewrite List.Forall_forall in *. intros y Hy. unfold laterDay.
      eapply dayLtb_trans; [apply Hall; exact Hy|exact Hgt].
Qed.

Lemma sortGroupsDesc_sorted (l : list ActivityGroup) :
  NoDup (map group_id l) -> StronglySorted laterDay (sortGroupsDesc l).
Proof.
  induction l as [|x xs IH]; simpl; intros Hnd; [constructor|].
  apply NoDup_cons in Hnd as [Hx Hnd].
  apply insertGroupDesc_sorted; [|apply IH; exact Hnd].
  intros Hin. apply Hx. apply list_elem_of_In.
  apply in_map_iff in Hin as (y & Hy & Hin).
  apply (proj1 (In_sortGroupsDesc _ _)) in Hin. apply in_map_iff. exists y.
  split; [exact Hy|exact Hin].
Qed.

Lemma length_unwindChannels (docs : list NotificationEntity) :
  Z.of_nat (length (unwindChannels docs))
  = sumZ (map (fun n => Z.of_nat (length (channels n))) docs).
Proof.
  unfold unwindChannels, sumZ. induction docs as [|n ns IH]; simpl; [reflexivity|].
  rewrite length_app, length_map. lia.
Qed.

Lemma activityMatch_filter (date : Z) (env : string) (coll : list NotificationEntity) :
  activityMatch date env coll = List.filter (createdSince env date) coll.
Proof. apply (DalFacts.statsMatch_filter env date coll). Qed.

(** X13. The counts of [getActivityGraphStats] add up to the number of
    channel entries of the documents of the environment created at or
    after the date: a document counts once per channel, and a document
    without channels does not count at all.  Every day listed has a
    count of at least 1. *)
Theorem getActivityGraphStats_counts (date : Z) (env : string)
    (coll : list NotificationEntity) :
  sumZ (map group_count (getActivityGraphStats date env coll))
  = sumZ (map (fun n => Z.of_nat (length (channels n)))
              (List.filter (createdSince env date) coll))
  /\ Forall (fun g => 1 <= group_count g) (getActivityGraphStats date env coll).
Proof.
  unfold getActivityGraphStats, groupByDay.
  destruct (groupByDay_from (unwindChannels (activityMatch date env coll)) [])
    as (Hsum & _ & Hpos & _); [constructor|constructor|].
  cbn zeta in *. split.
  - rewrite sortGroupsDesc_count, Hsum, length_unwindChannels, activityMatch_filter.
    reflexivity.
  - rewrite List.Forall_forall in *. intros g Hg. apply Hpos.
    apply (proj1 (In_sortGroupsDesc _ _)). exact Hg.
Qed.

(** X14. [getActivityGraphStats] lists each day once, from the latest
    day to the earliest; the days listed are the days on which a
    document of the environment, created at or after the date and having
    a channel, was created. *)
Theorem getActivityGraphStats_days (date : Z) (env : string)
    (coll : list NotificationEntity) :
  StronglySorted laterDay (getActivityGraphStats date env coll)
  /\ (forall d,
      In d (map group_id (getActivityGraphStats date env coll)) <->
      exists n, In n coll /\ createdSince env date n = true
                /\ channels n <> [] /\ dayOf n = d).
Proof.
  unfold getActivityGraphStats, groupByDay.
  destruct (groupByDay_from (unwindChannels (activityMatch date env coll)) [])
    as (_ & Hnd & _ & Hids); [constructor|constructor|].
  cbn zeta in *. split; [apply sortGroupsDesc_sorted; exact Hnd|].
  intros d.
  assert (Hd : In d (map group_id
                       (sortGroupsDesc
                          (fold_left
                             (fun gs '(n, channel) =>
                                groupInsert (dayOf n) (_templateId n) channel gs)
                             (unwindChannels (activityMatch date env coll)) [])))
               <-> In d (map (fun e => dayOf e.1)
                             (unwindChannels (activityMatch date env coll)))).
  { split.
    - intros Hin. apply in_map_iff in Hin as (g & Hg & Hin).
      apply (proj1 (In_sortGroupsDesc _ _)) in Hin.
      destruct (proj1 (Hids d)) as [[]|Hday]; [|exact Hday].
      apply in_map_iff. exists g. split; [exact Hg|exact Hin].
    - intros Hday. pose proof (proj2 (Hids d) (or_intror Hday)) as Hin.
      apply in_map_iff in Hin as (g & Hg & Hin).
      apply in_map_iff. exists g. split; [exact Hg|].
      apply (proj2 (In_sortGroupsDesc _ _)). exact Hin. }
  rewrite Hd, activityMatch_filter, in_map_iff. unfold unwindChannels. split.
  - intros ([n c] & Hday & Hin). cbn [fst] in Hday.
    apply in_flat_map in Hin as (n' & Hn' & Hc).
    apply in_map_iff in Hc as (c' & [= <- <-] & Hc').
    apply filter_In in Hn' as [Hn' Hm].
    exists n'. repeat split; try assumption.
    intros E. rewrite E in Hc'. destruct Hc'.
  - intros (n & Hin & Hm & Hch & Hday).
    destruct (channels n) as [|c cs] eqn:E; [congruence|].
    exists (n, c). split; [exact Hday|].
    apply in_flat_map. exists n. split; [apply filter_In; tauto|].
    rewrite E. left. reflexivity.
Qed.

End DalMore.

(* ===================================================================== *)
(** * Further properties of the client feed store *)
(* ===================================================================== *)

Module FeedStoreMore.
Import FeedStore.

(** ** Reading and writing the [notifications] object *)

Lemma obj_read_set_eq (k : string) (v : option (list IMessage)) (o : Notifications) :
  obj_read k (obj_set k v o) = v.
Proof.
  unfold obj_read. induction o as [|[k' v'] rest IH]; simpl.
  - rewrite bool_decide_eq_true_2 by reflexivity. reflexivity.
  - destruct (bool_decide_reflect (k' = k)) as [->|Hne]; simpl.
    + rewrite bool_decide_eq_true_2 by reflexivity. reflexivity.
    + rewrite bool_decide_eq_false_2 by exact Hne. exact IH.
Qed.


(** ** [fetchPage] and [fetchNextPage] *)



(** X16. A fetch that fails leaves the loading flag on.  When the remote
    call rejects, nothing else has changed.  When it resolves to
    [undefined] and the result is to be appended, the fetch ends in a
    [TypeError] after the has-more flag of the store was set to true,
    with the lists unchanged. *)
Theorem fetchPage_failure (api : Api) (stores : option (list IStore))
    (p : PageNum) (sid : string) (w : World) :
  (forall isRefetch reason,
      getNotificationsList api (calls w) p (getStoreQuery stores sid)
        = Rejected reason ->
      fetchPage api stores p isRefetch sid w
      = (Throw (Rejection reason),
         recordCall (GetNotificationsList p (getStoreQuery stores sid))
           (withStore (withFetching true (store w)) w)))
  /\ (getNotificationsList api (calls w) p (getStoreQuery stores sid)
        = Resolved None ->
      fst (fetchPage api stores p false sid w) = Throw TypeError
      /\ fetching (store (snd (fetchPage api stores p false sid w))) = true
      /\ hasNextPage (store (snd (fetchPage api stores p false sid w))) !! sid
         = Some true
      /\ notifications (store (snd (fetchPage api stores p false sid w)))
         = notifications (store w)).
Proof.
  split.
  - intros isRefetch reason Hr.
    apply FeedStoreFacts.fetchPage_rejected. exact Hr.
  - intros Hr. unfold fetchPage, bind, setFetching, modify, await.
    cbn [calls withStore]. rewrite Hr.
    unfold fewerThanTen, setHasNextPageOf, setPageOf, setNotificationsOf,
      spread, modify, gets, ret, throw, bind.
    cbn [store recordCall withStore withFetching withHasNextPage].
    destruct (page _ !! sid);
      cbn [fst snd store withStore withPage withHasNextPage withFetching
           fetching hasNextPage notifications page];
      rewrite lookup_insert_eq; repeat split.
Qed.

Lemma fetchPage_failure_witness :
  fetching (store (snd (fetchPage rejectingApi None (PNum 1) false "default_store"
                          initialWorld))) = true.
Proof.
  rewrite (proj1 (fetchPage_failure rejectingApi None (PNum 1) "default_store"
                    initialWorld) false "offline" eq_refl).
  reflexivity.
Defined.

(** X17. [fetchNextPage] on a store with more pages, at page [n],
    fetches page [n + 1]; when a list comes back, the page counter is
    [n + 1], the list is appended to the store's list, and the has-more
    flag tells whether at least 10 messages came back. *)
Theorem fetchNextPage_next (api : Api) (stores : option (list IStore))
    (sid : string) (w : World) (n : Z) (fetched : list IMessage) :
  hasNextPage (store w) !! sid = Some true ->
  page (store w) !! sid = Some (PNum n) ->
  getNotificationsList api (calls w) (PNum (n + 1)) (getStoreQuery stores sid)
    = Resolved (Some fetched) ->
  fst (fetchNextPage api stores sid w) = Ok tt
  /\ calls (snd (fetchNextPage api stores sid w))
     = calls w ++ [GetNotificationsList (PNum (n + 1)) (getStoreQuery stores sid)]
  /\ page (store (snd (fetchNextPage api stores sid w))) !! sid = Some (PNum (n + 1))
  /\ obj_read sid (notifications (store (snd (fetchNextPage api stores sid w))))
     = Some (default [] (obj_read sid (notifications (store w))) ++ fetched)
  /\ hasNextPage (store (snd (fetchNextPage api stores sid w))) !! sid
     = Some (negb (length fetched <? 10)%nat).
Proof.
  intros Hmore Hpage Hr.
  rewrite FeedStoreFacts.fetchNextPage_go by exact Hmore.
  rewrite Hpage. cbn [plusOne].
  rewrite (FeedStoreFacts.fetchPage_resolved api stores (PNum (n + 1)) false sid
             (withStore (withPage (<[sid := PNum (n + 1)]> (page (store w)))
                                  (store w)) w)
             (Some fetched) Hr (or_intror (ex_intro _ fetched eq_refl))).
  cbn [fst snd store calls recordCall withStore withPage fetchedStore
       notifications page hasNextPage default].
  rewrite lookup_insert_eq.
  repeat split.
  - apply lookup_insert_eq.
  - apply obj_read_set_eq.
  - apply lookup_insert_eq.
Qed.

Lemma fetchNextPage_next_witness :
  page (store (snd (fetchNextPage (resolvingApi sampleFeed) None "default_store"
                      initialWorld))) !! "default_store" = Some (PNum 1)
  /\ obj_read "default_store"
       (notifications (store (snd (fetchNextPage (resolvingApi sampleFeed) None
                                     "default_store" initialWorld))))
     = Some sampleFeed.
Proof.
  destruct (fetchNextPage_next (resolvingApi sampleFeed) None "default_store"
              initialWorld 0 sampleFeed eq_refl eq_refl eq_refl)
    as (_ & _ & Hp & Hl & _).
  split; [exact Hp|exact Hl].
Defined.

(** ** [markNotificationsAsSeen] *)

(** The messages an explicit [messagesToMark] argument stands for. *)
Lemma getNotificationsToMark_given (given : MessagesToMark) (o : Notifications)
    (sid : string) :
  getNotificationsToMark (Some given) o sid
  = Ok match given with
       | OneMessage m => [m]
       | ManyMessages l => l
       end.
Proof. destruct given; reflexivity. Qed.

(** X18. With explicit messages, [markNotificationsAsSeen] reports these
    messages whatever their seen flag and whatever the store holds (the
    store id may even be unknown): one remote call with their ids, or
    with the ids of those that carry a [read] field when [readExist] is
    true; and no call at all for an empty array. *)
Theorem markNotificationsAsSeen_given (api : Api) (readExist : option bool)
    (given : MessagesToMark) (sid : string) (w : World) :
  let l := match given with
           | OneMessage m => [m]
           | ManyMessages l => l
           end in
  let ids := map _id (List.filter
                        (fun m => match readExist with
                                  | Some true => hasRead m
                                  | _ => true
                                  end) l) in
  calls (snd (markNotificationsAsSeen api readExist (Some given) sid w))
  = calls w ++ (match l with
                | [] => []
                | _ => [MarkMessageAsSeen ids]
                end)
  /\ store (snd (markNotificationsAsSeen api readExist (Some given) sid w)) = store w
  /\ fst (markNotificationsAsSeen api readExist (Some given) sid w) <> Throw TypeError.
Proof.
  intros l ids. unfold markNotificationsAsSeen, bind, gets.
  rewrite getNotificationsToMark_given. fold l.
  assert (Eids : map _id (filterReadNotifications readExist l) = ids).
  { subst ids. unfold filterReadNotifications.
    destruct readExist as [[|]|]; try reflexivity;
      (f_equal; induction l as [|m ms IH]; [reflexivity|]; simpl; congruence). }
  destruct l as [|m ms] eqn:El.
  - cbn [length Nat.ltb Nat.leb]. unfold ret. cbn [fst snd].
    rewrite app_nil_r. repeat split. discriminate.
  - cbn [length Nat.ltb Nat.leb]. rewrite Eids. unfold await.
    destruct (markMessageAsSeen api (calls w) ids); cbn [fst snd recordCall calls store];
      repeat split; discriminate.
Qed.

(** X19. Without explicit messages and on a store id that has no list,
    [markNotificationsAsSeen] ends in a [TypeError] before any remote
    call, and changes nothing. *)
Theorem markNotificationsAsSeen_unknown_store (api : Api)
    (readExist : option bool) (sid : string) (w : World) :
  obj_read sid (notifications (store w)) = None ->
  markNotificationsAsSeen api readExist None sid w = (Throw TypeError, w).
Proof.
  intros Hnone. unfold markNotificationsAsSeen, bind, gets, getNotificationsToMark.
  rewrite Hnone. reflexivity.
Qed.

Lemma markNotificationsAsSeen_unknown_store_witness :
  markNotificationsAsSeen (resolvingApi []) None None "feed2" initialWorld
  = (Throw TypeError, initialWorld).
Proof.
  apply (markNotificationsAsSeen_unknown_store (resolvingApi []) None "feed2"
           initialWorld).
  reflexivity.
Defined.

(** What [markNotificationsAsSeen] does to the world: it records at most
    one remote call, which depends on the component state and the
    arguments only. *)
Lemma markNotificationsAsSeen_world (api : Api) (readExist : option bool)
    (messagesToMark : option MessagesToMark) (sid : string) (w : World) :
  exists sent,
    Forall (fun c => exists ids, c = MarkMessageAsSeen ids) sent
    /\ (forall w0, store w0 = store w ->
       snd (markNotificationsAsSeen api readExist messagesToMark sid w0)
       = {| store := store w0; timers := timers w0; nextHandle := nextHandle w0;
            clock := clock w0; calls := calls w0 ++ sent |}).
Proof.
  unfold markNotificationsAsSeen, bind, gets.
  destruct (getNotificationsToMark messagesToMark (notifications (store w)) sid)
    as [toMark|e] eqn:Hget.
  - destruct (0 <? length toMark)%nat eqn:Hlen.
    + exists [MarkMessageAsSeen (map _id (filterReadNotifications readExist toMark))].
      split; [repeat constructor; eexists; reflexivity|].
      intros w0 Hw0. rewrite <- Hw0 in Hget. rewrite Hget, Hlen. unfold await.
      destruct (markMessageAsSeen api (calls w0) _); reflexivity.
    + exists []. split; [constructor|].
      intros w0 Hw0. rewrite <- Hw0 in Hget. rewrite Hget, Hlen.
      unfold ret. cbn [snd]. rewrite app_nil_r. destruct w0; reflexivity.
  - exists []. split; [constructor|].
    intros w0 Hw0. rewrite <- Hw0 in Hget. rewrite Hget. unfold throw.
    cbn [snd]. rewrite app_nil_r. destruct w0; reflexivity.
Qed.

(** X20. [markNotificationsAsSeen] never touches the component state:
    the messages it reported stay unseen locally, and calling it again
    with the same arguments reports the same messages again. *)
Theorem markNotificationsAsSeen_not_remembered (api : Api)
    (readExist : option bool) (messagesToMark : option MessagesToMark)
    (sid : string) (w : World) :
  let once := snd (markNotificationsAsSeen api readExist messagesToMark sid w) in
  let twice := snd (markNotificationsAsSeen api readExist messagesToMark sid once) in
  store once = store w
  /\ store twice = store w
  /\ exists sent,
      calls once = calls w ++ sent /\ calls twice = calls w ++ sent ++ sent.
Proof.
  intros once twice.
  destruct (markNotificationsAsSeen_world api readExist messagesToMark sid w)
    as (sent & _ & Hsent).
  assert (Honce : once = {| store := store w; timers := timers w;
                            nextHandle := nextHandle w; clock := clock w;
                            calls := calls w ++ sent |})
    by (apply Hsent; reflexivity).
  assert (Htwice : twice = {| store := store once; timers := timers once;
                              nextHandle := nextHandle once; clock := clock once;
                              calls := calls once ++ sent |}).
  { apply Hsent. rewrite Honce. reflexivity. }
  rewrite Htwice, Honce. cbn [store calls].
  split; [reflexivity|]. split; [reflexivity|].
  exists sent. split; [reflexivity|]. rewrite app_assoc. reflexivity.
Qed.

(** ** [updateAction] *)

(** X21. When the remote call of [updateAction] rejects, the rejection
    is thrown and no message is patched. *)
Theorem updateAction_rejected (api : Api) (messageId : string)
    (actionButtonType : ButtonTypeEnum) (st : MessageActionStatusEnum)
    (payload : option Payload) (w : World) (reason : string) :
  api_updateAction api (calls w) messageId actionButtonType st payload
    = Rejected reason ->
  updateAction api messageId actionButtonType st payload w
  = (Throw (Rejection reason),
     recordCall (UpdateAction messageId actionButtonType st payload) w).
Proof.
  intros Hr. unfold updateAction, bind, await. rewrite Hr. reflexivity.
Qed.

Lemma updateAction_rejected_witness :
  store (snd (updateAction rejectingApi "m1" PRIMARY DONE None sampleWorld))
  = store sampleWorld.
Proof.
  rewrite (updateAction_rejected rejectingApi "m1" PRIMARY DONE None sampleWorld
             "offline" eq_refl).
  reflexivity.
Defined.

Lemma patched_list_patchable (messageId : string) (l l' : list IMessage) :
  Forall2 (fun m m' => patchAction messageId m = Some m') l l' ->
  Forall (fun m => _id m = messageId ->
                   exists c a, cta m = Some c /\ action c = Some a) l.
Proof.
  induction 1 as [|m m' l l' Hm _ IH]; constructor; [|exact IH].
  intros Hid. unfold patchAction in Hm.
  rewrite bool_decide_eq_true_2 in Hm by exact Hid.
  destruct (cta m) as [c|] eqn:Hc; [|discriminate].
  destruct (action c) as [a|] eqn:Ha; [|discriminate].
  exists c, a. split; [reflexivity|exact Ha].
Qed.

Lemma patched_patchable (messageId : string) (o o' : Notifications) :
  Forall2 (patchedEntry messageId) o o' -> patchable messageId o.
Proof.
  induction 1 as [|e e' o o' (_ & l & l' & Hl & _ & Hall) _ IH];
    constructor; [|exact IH].
  exists l. split; [exact Hl|]. exact (patched_list_patchable messageId l l' Hall).
Qed.

Lemma mapMutating_outcome (f : IMessage -> option IMessage) (l : list IMessage) :
  fst (mapMutating f l) = Ok tt \/ fst (mapMutating f l) = Throw TypeError.
Proof.
  induction l as [|x xs IH]; simpl; [left; reflexivity|].
  destruct (f x); [|right; reflexivity].
  destruct (mapMutating f xs) as [r ys]. exact IH.
Qed.

Lemma patchStores_outcome (messageId : string) (o : Notifications) :
  fst (patchStores messageId o) = Ok tt
  \/ fst (patchStores messageId o) = Throw TypeError.
Proof.
  induction o as [|[k [l|]] rest IH]; simpl; [left; reflexivity| |right; reflexivity].
  pose proof (mapMutating_outcome (patchAction messageId) l) as Hl.
  destruct (mapMutating (patchAction messageId) l) as [[[]|e] l']; cbn [fst] in Hl.
  - destruct (patchStores messageId rest) as [r rest']. exact IH.
  - destruct Hl as [Hl|Hl]; [discriminate|]. right. exact Hl.
Qed.

(** X22. Once its remote call has resolved, [updateAction] completes
    exactly when every store holds a list and every message with the
    given id has a [cta] with an [action]; otherwise it ends in a
    [TypeError], the remote call having been made. *)
Theorem updateAction_completes_iff (api : Api) (messageId : string)
    (actionButtonType : ButtonTypeEnum) (st : MessageActionStatusEnum)
    (payload : option Payload) (w : World) :
  api_updateAction api (calls w) messageId actionButtonType st payload
    = Resolved tt ->
  (fst (updateAction api messageId actionButtonType st payload w) = Ok tt
   <-> patchable messageId (notifications (store w)))
  /\ (fst (updateAction api messageId actionButtonType st payload w) = Ok tt
      \/ fst (updateAction api messageId actionButtonType st payload w)
         = Throw TypeError)
  /\ calls (snd (updateAction api messageId actionButtonType st payload w))
     = calls w ++ [UpdateAction messageId actionButtonType st payload].
Proof.
  intros Hr. split; [split|].
  - intros Hok.
    destruct (updateAction api messageId actionButtonType st payload w)
      as [r w'] eqn:Hrun.
    cbn [fst] in Hok. subst r.
    apply FeedStoreFacts.updateAction_Ok_inv in Hrun as (o' & Hall & _).
    exact (patched_patchable messageId _ o' Hall).
  - intros Hp.
    destruct (FeedStoreFacts.updateAction_completes api messageId actionButtonType
                st payload w Hr Hp) as [w' ->].
    reflexivity.
  - unfold updateAction, bind, await, gets. rewrite Hr.
    cbn [store recordCall].
    pose proof (patchStores_outcome messageId (notifications (store w))) as Hout.
    destruct (patchStores messageId (notifications (store w))) as [r o'].
    cbn [fst] in Hout. unfold replaceNotifications, modify, ret, throw.
    destruct Hout as [-> | ->]; cbn [fst snd calls withStore]; split;
      try reflexivity; [left|right]; reflexivity.
Qed.

Lemma updateAction_completes_iff_witness :
  fst (updateAction (resolvingApi []) "m9" PRIMARY DONE None
         (worldWith [("default_store", Some [plainMessage "m9"])]))
  = Throw TypeError.
Proof.
  destruct (updateAction_completes_iff (resolvingApi []) "m9" PRIMARY DONE None
              (worldWith [("default_store", Some [plainMessage "m9"])]) eq_refl)
    as (Hiff & [Hok|Hthrow] & _); [|exact Hthrow].
  apply Hiff in Hok. exfalso.
  apply Forall_inv in Hok as (l & Hl & Hall). cbn in Hl. injection Hl as <-.
  apply Forall_inv in Hall. destruct (Hall eq_refl) as (c & a & Hc & _).
  discriminate Hc.
Defined.

Lemma patchAction_again (messageId : string) (m m' : IMessage) :
  patchAction messageId m = Some m' -> patchAction messageId m' = Some m'.
Proof.
  unfold patchAction.
  destruct (bool_decide_reflect (_id m = messageId)) as [Hid|Hid].
  - destruct (cta m) as [c|]; [|discriminate].
    destruct (action c); [|discriminate].
    intros [= <-]. cbn. rewrite bool_decide_eq_true_2 by exact Hid. reflexivity.
  - intros [= <-]. rewrite bool_decide_eq_false_2 by exact Hid. reflexivity.
Qed.

Lemma mapMutating_again (messageId : string) (l l' : list IMessage) :
  Forall2 (fun m m' => patchAction messageId m = Some m') l l' ->
  mapMutating (patchAction messageId) l' = (Ok tt, l').
Proof.
  induction 1 as [|m m' l l' Hm _ IH]; simpl; [reflexivity|].
  rewrite (patchAction_again messageId m m' Hm), IH. reflexivity.
Qed.

Lemma patchStores_again (messageId : string) (o o' : Notifications) :
  Forall2 (patchedEntry messageId) o o' ->
  patchStores messageId o' = (Ok tt, o').
Proof.
  induction 1 as [|e [k' v'] o o' (_ & l & l' & _ & Hl' & Hall) _ IH];
    simpl; [reflexivity|].
  simpl in Hl'. subst v'.
  rewrite (mapMutating_again messageId l l' Hall), IH. reflexivity.
Qed.

(** X23. [updateAction] is idempotent on the component state: after a
    completed run, a second run for the same message (with whatever
    button, status and payload, provided its remote call resolves)
    completes and leaves the component state as the first run left
    it. *)
Theorem updateAction_idempotent (api : Api) (messageId : string)
    (bt1 bt2 : ButtonTypeEnum) (st1 st2 : MessageActionStatusEnum)
    (payload1 payload2 : option Payload) (w w1 : World) :
  updateAction api messageId bt1 st1 payload1 w = (Ok tt, w1) ->
  api_updateAction api (calls w1) messageId bt2 st2 payload2 = Resolved tt ->
  fst (updateAction api messageId bt2 st2 payload2 w1) = Ok tt
  /\ store (snd (updateAction api messageId bt2 st2 payload2 w1)) = store w1.
Proof.
  intros Hrun Hr.
  apply FeedStoreFacts.updateAction_Ok_inv in Hrun as (o' & Hall & ->).
  unfold updateAction, bind, await, gets.
  cbn [calls recordCall withStore] in *. rewrite Hr.
  cbn [store recordCall withStore withNotifications notifications].
  rewrite (patchStores_again messageId _ o' Hall).
  unfold replaceNotifications, modify, ret.
  cbn [fst snd store withStore withNotifications].
  split; reflexivity.
Qed.

Lemma updateAction_idempotent_witness :
  store (snd (updateAction (resolvingApi []) "m1" SECONDARY PENDING None
                (snd (updateAction (resolvingApi []) "m1" PRIMARY DONE None
                        sampleWorld))))
  = store (snd (updateAction (resolvingApi []) "m1" PRIMARY DONE None sampleWorld)).
Proof.
  exact (proj2 (updateAction_idempotent (resolvingApi []) "m1" PRIMARY SECONDARY
                  DONE PENDING None None sampleWorld _ eq_refl eq_refl)).
Defined.

Lemma mapMutating_absent (messageId : string) (l : list IMessage) :
  Forall (fun m => _id m <> messageId) l ->
  mapMutating (patchAction messageId) l = (Ok tt, l).
Proof.
  induction 1 as [|m l Hm _ IH]; simpl; [reflexivity|].
  unfold patchAction at 1. rewrite bool_decide_eq_false_2 by exact Hm.
  rewrite IH. reflexivity.
Qed.

(** X24. [updateAction] for an id that no stored message has (every
    store holding a list) patches nothing: when its remote call has
    resolved, the component state is as before. *)
Theorem updateAction_absent (api : Api) (messageId : string)
    (actionButtonType : ButtonTypeEnum) (st : MessageActionStatusEnum)
    (payload : option Payload) (w : World) :
  api_updateAction api (calls w) messageId actionButtonType st payload
    = Resolved tt ->
  Forall (fun e : string * option (list IMessage) =>
            exists l, snd e = Some l /\ Forall (fun m => _id m <> messageId) l)
         (notifications (store w)) ->
  updateAction api messageId actionButtonType st payload w
  = (Ok tt, recordCall (UpdateAction messageId actionButtonType st payload) w).
Proof.
  intros Hr Habsent. unfold updateAction, bind, await, gets. rewrite Hr.
  cbn [store recordCall].
  assert (Hp : patchStores messageId (notifications (store w))
               = (Ok tt, notifications (store w))).
  { induction Habsent as [|[k v] o (l & Hl & Hall) _ IH]; simpl; [reflexivity|].
    simpl in Hl. subst v.
    rewrite (mapMutating_absent messageId l Hall), IH. reflexivity. }
  rewrite Hp. unfold replaceNotifications, modify, ret.
  destruct w as [s ts nh ck cs]; destruct s; reflexivity.
Qed.

Lemma updateAction_absent_witness :
  store (snd (updateAction (resolvingApi []) "m7" PRIMARY DONE None sampleWorld))
  = store sampleWorld.
Proof.
  rewrite (updateAction_absent (resolvingApi []) "m7" PRIMARY DONE None sampleWorld
             eq_refl).
  - reflexivity.
  - repeat constructor; eexists; (split; [reflexivity|]);
      repeat constructor; discriminate.
Defined.

(** ** What each callback leaves alone *)

(** [fetchPage] in all its outcomes: one remote call; timers, clock and
    the timeout map untouched; the page and has-more maps either
    untouched (the call rejected) or updated at the store id. *)
Lemma fetchPage_frame (api : Api) (stores : option (list IStore)) (p : PageNum)
    (isRefetch : bool) (sid : string) (w : World) :
  let w' := snd (fetchPage api stores p isRefetch sid w) in
  calls w' = calls w ++ [GetNotificationsList p (getStoreQuery stores sid)]
  /\ timers w' = timers w
  /\ nextHandle w' = nextHandle w
  /\ clock w' = clock w
  /\ refetchTimeout (store w') = refetchTimeout (store w)
  /\ ((page (store w') = page (store w)
       /\ hasNextPage (store w') = hasNextPage (store w))
      \/ (exists b,
            hasNextPage (store w') = <[sid := b]> (hasNextPage (store w))
            /\ page (store w')
               = match page (store w) !! sid with
                 | Some _ => page (store w)
                 | None => <[sid := PNum 0]> (page (store w))
                 end)).
Proof.
  cbn zeta.
  destruct (getNotificationsList api (calls w) p (getStoreQuery stores sid))
    as [r|reason] eqn:Hr.
  - assert (Hcases : isRefetch = true \/ is_Some r \/ (isRefetch = false /\ r = None)).
    { destruct isRefetch; [tauto|]. destruct r; [right; left; eexists; reflexivity|].
      tauto. }
    destruct Hcases as [Hc|[Hc|[-> ->]]].
    + rewrite (FeedStoreFacts.fetchPage_resolved api stores p isRefetch sid w r Hr)
        by tauto.
      cbn [snd store calls timers nextHandle clock recordCall withStore fetchedStore
           refetchTimeout page hasNextPage].
      repeat split. right. eexists. split; reflexivity.
    + rewrite (FeedStoreFacts.fetchPage_resolved api stores p isRefetch sid w r Hr)
        by tauto.
      cbn [snd store calls timers nextHandle clock recordCall withStore fetchedStore
           refetchTimeout page hasNextPage].
      repeat split. right. eexists. split; reflexivity.
    + unfold fetchPage, bind, setFetching, modify, await.
      cbn [calls withStore]. rewrite Hr.
      unfold fewerThanTen, setHasNextPageOf, setPageOf, setNotificationsOf,
        spread, modify, gets, ret, throw, bind.
      cbn [store recordCall withStore withFetching withHasNextPage page].
      destruct (page (store w) !! sid);
        cbn [snd store calls timers nextHandle clock withStore withPage
             withHasNextPage withFetching refetchTimeout page hasNextPage];
        repeat split; right; eexists; split; reflexivity.
  - rewrite (FeedStoreFacts.fetchPage_rejected api stores p isRefetch sid w reason Hr).
    cbn [snd store calls timers nextHandle clock recordCall withStore withFetching
         refetchTimeout page hasNextPage].
    repeat split. left. split; reflexivity.
Qed.

(** The world after [refetch]. *)
Lemma refetch_explicit (sid : string) (w : World) :
  snd (refetch sid w)
  = {| store :=
         withRefetchTimeout
           (<[sid := Some (nextHandle w)]>
              match refetchTimeout (store w) !! sid with
              | Some (Some h) => <[sid := None]> (refetchTimeout (store w))
              | _ => refetchTimeout (store w)
              end)
           (withFetching true (store w));
       timers :=
         match refetchTimeout (store w) !! sid with
         | Some (Some h) => withoutTimer h (timers w)
         | _ => timers w
         end ++ [ {| handle := nextHandle w; due := clock w + 250;
                     timer_storeId := sid |} ];
       nextHandle := Pos.succ (nextHandle w);
       clock := clock w;
       calls := calls w |}.
Proof.
  unfold refetch, bind, setFetching, modify, gets.
  cbn [store withStore withFetching refetchTimeout].
  destruct (refetchTimeout (store w) !! sid) as [[h|]|];
    unfold clearTimeout, setRefetchTimeoutOf, setTimeout, modify, ret, bind;
    reflexivity.
Qed.

Lemma refetch_store (sid : string) (w : World) :
  notifications (store (snd (refetch sid w))) = notifications (store w)
  /\ page (store (snd (refetch sid w))) = page (store w)
  /\ hasNextPage (store (snd (refetch sid w))) = hasNextPage (store w)
  /\ calls (snd (refetch sid w)) = calls w
  /\ clock (snd (refetch sid w)) = clock w.
Proof. rewrite refetch_explicit. repeat split. Qed.

(** A timer fires. *)
Lemma fire_world (api : Api) (stores : option (list IStore)) (t : Timer) (w : World) :
  calls (fire api stores t w)
    = calls w ++ [GetNotificationsList (PNum 0) (getStoreQuery stores (timer_storeId t))]
  /\ timers (fire api stores t w) = withoutTimer (handle t) (timers w)
  /\ nextHandle (fire api stores t w) = nextHandle w
  /\ clock (fire api stores t w) = Z.max (clock w) (due t)
  /\ refetchTimeout (store (fire api stores t w)) = refetchTimeout (store w).
Proof.
  unfold fire.
  destruct (fetchPage_frame api stores (PNum 0) true (timer_storeId t)
              (withClock (Z.max (clock w) (due t))
                 (withTimers (withoutTimer (handle t) (timers w)) w)))
    as (Hc & Ht & Hn & Hk & Hr & _).
  cbn zeta in *. rewrite Hc, Ht, Hn, Hk, Hr. repeat split.
Qed.

(** The world after the single pending timer has fired. *)
Lemma advance_one (api : Api) (stores : option (list IStore)) (delay : Z)
    (w : World) (t : Timer) :
  timers w = [t] ->
  due t <= clock w + delay ->
  advance api stores delay w
  = withClock (Z.max (clock (fire api stores t w)) (clock w + delay))
              (fire api stores t w).
Proof.
  intros Ht Hdue. unfold advance. rewrite Ht. cbn [length runTimers].
  rewrite Ht. cbn [firstDue].
  destruct (Z.leb_spec (due t) (clock w + delay)); [reflexivity|lia].
Qed.

(** ** More on [refetch] *)

Section Refetching.

Context (api : Api) (stores : option (list IStore)).

Lemma refetch_single (sid : string) (w : World) :
  timers w = [] ->
  timers (snd (refetch sid w))
  = [ {| handle := nextHandle w; due := clock w + 250; timer_storeId := sid |} ].
Proof.
  intros Hno. rewrite refetch_explicit. cbn [timers]. rewrite Hno.
  destruct (refetchTimeout (store w) !! sid) as [[h|]|]; reflexivity.
Qed.

(** X25. When the timer of a [refetch] fires and a list comes back, the
    store's list is replaced by it and the has-more flag is set from
    it, but the page counter of a store that has one stays where it
    was: the next [fetchNextPage] goes on from the old counter. *)
Theorem refetch_keeps_page (sid : string) (w : World) (p : PageNum) (d : Z)
    (fetched : list IMessage) :
  timers w = [] ->
  page (store w) !! sid = Some p ->
  250 <= d ->
  getNotificationsList api (calls w) (PNum 0) (getStoreQuery stores sid)
    = Resolved (Some fetched) ->
  let w' := advance api stores d (snd (refetch sid w)) in
  obj_read sid (notifications (store w')) = Some fetched
  /\ hasNextPage (store w') !! sid = Some (negb (length fetched <? 10)%nat)
  /\ page (store w') !! sid = Some p
  /\ calls w' = calls w ++ [GetNotificationsList (PNum 0) (getStoreQuery stores sid)].
Proof.
  intros Hno Hpage Hd Hr w'.
  destruct (refetch_store sid w) as (Hn1 & Hp1 & Hh1 & Hc1 & Hk1).
  pose proof (refetch_single sid w Hno) as Ht1.
  subst w'. rewrite (advance_one api stores d _ _ Ht1) by (cbn [due]; lia).
  cbn [store calls withClock]. unfold fire. cbn [handle timer_storeId due].
  set (w1 := withClock _ (withTimers _ (snd (refetch sid w)))).
  assert (Hr1 : getNotificationsList api (calls w1) (PNum 0) (getStoreQuery stores sid)
                = Resolved (Some fetched)).
  { subst w1. cbn [calls withClock withTimers]. rewrite Hc1. exact Hr. }
  rewrite (FeedStoreFacts.fetchPage_resolved api stores (PNum 0) true sid w1
             (Some fetched) Hr1 (or_introl eq_refl)).
  cbn [snd store calls recordCall withStore fetchedStore notifications page
       hasNextPage].
  subst w1. cbn [store calls withClock withTimers].
  rewrite Hp1, Hpage, Hc1.
  split; [apply obj_read_set_eq|]. split; [apply lookup_insert_eq|].
  split; [exact Hpage|reflexivity].
Qed.

Lemma withoutTimer_other (t : Timer) (h : positive) :
  handle t <> h -> withoutTimer h [t] = [t].
Proof.
  intros Hne. unfold withoutTimer. simpl.
  destruct (Pos.eqb_spec (handle t) h); [contradiction|reflexivity].
Qed.

(** X26. The debounce is per store id: [refetch] on one store id does
    not cancel the pending timer of another.  Two calls on different
    store ids, one right after the other, result in two fetches of page
    0, in the order of the calls. *)
Theorem refetch_per_store (sid1 sid2 : string) (w : World) (d : Z) :
  timersTracked w ->
  timers w = [] ->
  sid1 <> sid2 ->
  250 <= d ->
  let w' := advance api stores d (snd (refetch sid2 (snd (refetch sid1 w)))) in
  calls w'
  = calls w ++ [ GetNotificationsList (PNum 0) (getStoreQuery stores sid1);
                 GetNotificationsList (PNum 0) (getStoreQuery stores sid2) ]
  /\ timers w' = [].
Proof.
  intros (_ & _ & Hmap) Hno Hne Hd w'.
  set (t1 := {| handle := nextHandle w; due := clock w + 250; timer_storeId := sid1 |}).
  set (t2 := {| handle := Pos.succ (nextHandle w); due := clock w + 250;
                timer_storeId := sid2 |}).
  set (w1 := snd (refetch sid1 w)).
  assert (Ht1 : timers w1 = [t1]) by (apply refetch_single; exact Hno).
  assert (Hw1 : nextHandle w1 = Pos.succ (nextHandle w) /\ clock w1 = clock w
                /\ calls w1 = calls w
                /\ refetchTimeout (store w1) !! sid2 = refetchTimeout (store w) !! sid2).
  { subst w1. rewrite refetch_explicit.
    cbn [nextHandle clock calls store refetchTimeout withRefetchTimeout].
    repeat split.
    rewrite lookup_insert_ne by exact Hne.
    destruct (refetchTimeout (store w) !! sid1) as [[h|]|]; [|reflexivity..].
    apply lookup_insert_ne. exact Hne. }
  destruct Hw1 as (Hn1 & Hk1 & Hc1 & Hm1).
  set (w2 := snd (refetch sid2 w1)).
  assert (Hw2 : timers w2 = [t1; t2] /\ calls w2 = calls w /\ clock w2 = clock w).
  { subst w2. rewrite refetch_explicit. cbn [timers calls clock].
    rewrite Hm1, Ht1, Hn1, Hk1, Hc1. repeat split.
    destruct (refetchTimeout (store w) !! sid2) as [[h|]|] eqn:Hh; [|reflexivity..].
    rewrite withoutTimer_other; [reflexivity|].
    cbn [handle t1]. destruct (Hmap sid2 h Hh) as [Hlt _].
    intros <-. lia. }
  destruct Hw2 as (Ht2 & Hc2 & Hk2).
  subst w'. fold w1. fold w2. unfold advance.
  rewrite Ht2. cbn [length runTimers]. rewrite Ht2. cbn [firstDue due t1 t2].
  rewrite Hk2.
  destruct (Z.leb_spec (clock w + 250) (clock w + d)) as [_|]; [|lia].
  rewrite Z.leb_refl.
  destruct (fire_world api stores t1 w2) as (Hfc & Hft & _ & _ & _).
  assert (Hft' : timers (fire api stores t1 w2) = [t2]).
  { rewrite Hft, Ht2. unfold withoutTimer. cbn [List.filter handle t1 t2].
    rewrite Pos.eqb_refl. cbn [negb].
    destruct (Pos.eqb_spec (Pos.succ (nextHandle w)) (nextHandle w)); [lia|].
    reflexivity. }
  rewrite Hft'. cbn [firstDue due t2].
  destruct (Z.leb_spec (clock w + 250) (clock w + d)) as [_|]; [|lia].
  destruct (fire_world api stores t2 (fire api stores t1 w2))
    as (Hfc2 & Hft2 & _ & _ & _).
  cbn [calls timers withClock].
  rewrite Hfc2, Hft2, Hfc, Hft', Hc2.
  rewrite (FeedStoreFacts.withoutTimer_self t2 (handle t2) eq_refl).
  cbn [timer_storeId t1 t2]. rewrite <- app_assoc. split; reflexivity.
Qed.

(** X27. Two [refetch] calls on a store id that are 250 ms or more
    apart each get their fetch: the timer of the first call has fired
    before the second call, which finds nothing to cancel. *)
Theorem refetch_apart (sid : string) (w : World) (d1 d2 : Z) :
  timers w = [] ->
  250 <= d1 ->
  250 <= d2 ->
  let w' := advance api stores d2
              (snd (refetch sid (advance api stores d1 (snd (refetch sid w))))) in
  calls w'
  = calls w ++ [ GetNotificationsList (PNum 0) (getStoreQuery stores sid);
                 GetNotificationsList (PNum 0) (getStoreQuery stores sid) ]
  /\ timers w' = [].
Proof.
  intros Hno Hd1 Hd2 w'.
  destruct (refetch_store sid w) as (_ & _ & _ & Hc1 & Hk1).
  pose proof (refetch_single sid w Hno) as Ht1.
  destruct (FeedStoreFacts.advance_single api stores d1 (snd (refetch sid w)) _ Ht1)
    as (Hc2 & Ht2); [cbn [due]; lia|].
  set (w2 := advance api stores d1 (snd (refetch sid w))) in *.
  destruct (refetch_store sid w2) as (_ & _ & _ & Hc3 & Hk3).
  pose proof (refetch_single sid w2 Ht2) as Ht3.
  destruct (FeedStoreFacts.advance_single api stores d2 (snd (refetch sid w2)) _ Ht3)
    as (Hc4 & Ht4); [cbn [due]; lia|].
  subst w'. fold w2. rewrite Hc4, Ht4, Hc3, Hc2, Hc1.
  cbn [timer_storeId]. rewrite <- app_assoc. split; reflexivity.
Qed.

(** During a burst of [refetch] calls: one timer is pending, it belongs
    to the store, the timeout map holds its handle, it is due 250 ms
    from now, and nothing was fetched. *)
Lemma refetchBurst_pending (sid : string) (w : World) (gaps : list Z) :
  timers w = [] ->
  Forall (fun gap => 0 <= gap < 250) gaps ->
  let w' := refetchBurst api stores sid gaps w in
  calls w' = calls w
  /\ exists h,
      timers w' = [ {| handle := h; due := clock w' + 250; timer_storeId := sid |} ]
      /\ refetchTimeout (store w') !! sid = Some (Some h).
Proof.
  intros Hno Hgaps. unfold refetchBurst.
  assert (Hstart : calls (snd (refetch sid w)) = calls w
          /\ exists h,
               timers (snd (refetch sid w))
               = [ {| handle := h; due := clock (snd (refetch sid w)) + 250;
                      timer_storeId := sid |} ]
               /\ refetchTimeout (store (snd (refetch sid w))) !! sid = Some (Some h)).
  { destruct (refetch_store sid w) as (_ & _ & _ & Hc & Hk).
    split; [exact Hc|]. exists (nextHandle w). rewrite Hk. split.
    - apply refetch_single. exact Hno.
    - rewrite refetch_explicit. cbn [store refetchTimeout withRefetchTimeout].
      apply lookup_insert_eq. }
  revert Hstart. generalize (snd (refetch sid w)) as w0.
  induction Hgaps as [|gap gaps Hgap _ IH]; intros w0 Hstart; [exact Hstart|].
  cbn [fold_left]. apply IH.
  destruct Hstart as (Hc & h & Ht & Hm).
  assert (Hidle : advance api stores gap w0 = withClock (clock w0 + gap) w0).
  { apply FeedStoreFacts.advance_idle; [lia|]. rewrite Ht. cbn [firstDue due].
    destruct (Z.leb_spec (clock w0 + 250) (clock w0 + gap)); [lia|reflexivity]. }
  rewrite Hidle. rewrite refetch_explicit.
  cbn [store timers calls clock nextHandle refetchTimeout withClock
       withRefetchTimeout].
  rewrite Hm, Ht.
  rewrite (FeedStoreFacts.withoutTimer_self
             {| handle := h; due := clock w0 + 250; timer_storeId := sid |} h
             eq_refl).
  split; [exact Hc|]. eexists. split; [reflexivity|].
  apply lookup_insert_eq.
Qed.

(** X28. However many times [refetch] is called on a store id, as long
    as each call comes less than 250 ms after the one before, a single
    fetch of page 0 results, 250 ms after the last call. *)
Theorem refetchBurst_one_fetch (sid : string) (w : World) (gaps : list Z) (d : Z) :
  timers w = [] ->
  Forall (fun gap => 0 <= gap < 250) gaps ->
  250 <= d ->
  calls (refetchBurst api stores sid gaps w) = calls w
  /\ calls (advance api stores d (refetchBurst api stores sid gaps w))
     = calls w ++ [GetNotificationsList (PNum 0) (getStoreQuery stores sid)]
  /\ timers (advance api stores d (refetchBurst api stores sid gaps w)) = [].
Proof.
  intros Hno Hgaps Hd.
  destruct (refetchBurst_pending sid w gaps Hno Hgaps) as (Hc & h & Ht & _).
  cbn zeta in *.
  destruct (FeedStoreFacts.advance_single api stores d _ _ Ht) as (Hc' & Ht');
    [cbn [due]; lia|].
  rewrite Hc', Ht', Hc. cbn [timer_storeId]. repeat split.
Qed.

End Refetching.

Lemma refetch_per_store_witness :
  calls (advance (resolvingApi sampleFeed) None 250
           (snd (refetch "archive" (snd (refetch "default_store" initialWorld)))))
  = [GetNotificationsList (PNum 0) []; GetNotificationsList (PNum 0) []].
Proof.
  refine (proj1 (refetch_per_store (resolvingApi sampleFeed) None
                   "default_store" "archive" initialWorld 250 _ eq_refl _ _)).
  - split; [constructor|]. split; [intros t []|].
    intros sid h Hh. cbn [store initialWorld initialStore refetchTimeout] in Hh.
    rewrite lookup_empty in Hh. discriminate.
  - discriminate.
  - lia.
Defined.

Lemma refetch_apart_witness :
  calls (advance (resolvingApi sampleFeed) None 300
           (snd (refetch "default_store"
                   (advance (resolvingApi sampleFeed) None 250
                      (snd (refetch "default_store" initialWorld))))))
  = [GetNotificationsList (PNum 0) []; GetNotificationsList (PNum 0) []].
Proof.
  refine (proj1 (refetch_apart (resolvingApi sampleFeed) None "default_store"
                   initialWorld 250 300 eq_refl _ _)); lia.
Defined.

Lemma refetchBurst_one_fetch_witness :
  calls (advance (resolvingApi sampleFeed) None 250
           (refetchBurst (resolvingApi sampleFeed) None "default_store"
              [100; 249; 0; 200] initialWorld))
  = [GetNotificationsList (PNum 0) []].
Proof.
  refine (proj1 (proj2 (refetchBurst_one_fetch (resolvingApi sampleFeed) None
                          "default_store" initialWorld [100; 249; 0; 200] 250
                          eq_refl _ _))); [|lia].
  repeat constructor; lia.
Defined.

Lemma refetch_keeps_page_witness :
  let w := snd (fetchNextPage (resolvingApi sampleFeed) None "default_store"
                  initialWorld) in
  page (store (advance (resolvingApi sampleFeed) None 250
                 (snd (refetch "default_store" w)))) !! "default_store"
  = Some (PNum 1).
Proof.
  intros w.
  refine (proj1 (proj2 (proj2 (refetch_keeps_page (resolvingApi sampleFeed) None
                                 "default_store" w (PNum 1) 250 sampleFeed
                                 eq_refl eq_refl _ eq_refl)))).
  lia.
Defined.

(** ** Invariants of the provider *)

Section Invariants.

Context (api : Api) (stores : option (list IStore)).

Lemma fetchNextPage_frame (sid : string) (w : World) :
  timers (snd (fetchNextPage api stores sid w)) = timers w
  /\ nextHandle (snd (fetchNextPage api stores sid w)) = nextHandle w
  /\ refetchTimeout (store (snd (fetchNextPage api stores sid w)))
     = refetchTimeout (store w).
Proof.
  destruct (hasNextPage (store w) !! sid) as [[|]|] eqn:Hmore.
  - rewrite FeedStoreFacts.fetchNextPage_go by exact Hmore.
    destruct (fetchPage_frame api stores (plusOne (page (store w) !! sid)) false sid
                (withStore (withPage (<[sid := plusOne (page (store w) !! sid)]>
                                        (page (store w))) (store w)) w))
      as (_ & Ht & Hn & _ & Hr & _).
    cbn zeta in *. rewrite Ht, Hn, Hr. repeat split.
  - rewrite FeedStoreFacts.fetchNextPage_stop by congruence. repeat split.
  - rewrite FeedStoreFacts.fetchNextPage_stop by congruence. repeat split.
Qed.

Lemma updateAction_frame (messageId : string) (actionButtonType : ButtonTypeEnum)
    (st : MessageActionStatusEnum) (payload : option Payload) (w : World) :
  let w' := snd (updateAction api messageId actionButtonType st payload w) in
  timers w' = timers w
  /\ nextHandle w' = nextHandle w
  /\ refetchTimeout (store w') = refetchTimeout (store w)
  /\ page (store w') = page (store w)
  /\ hasNextPage (store w') = hasNextPage (store w)
  /\ calls w' = calls w ++ [UpdateAction messageId actionButtonType st payload].
Proof.
  cbn zeta. unfold updateAction, bind, await, gets.
  destruct (api_updateAction api (calls w) messageId actionButtonType st payload)
    as [[]|reason]; [|repeat split].
  cbn [store recordCall].
  destruct (patchStores messageId (notifications (store w))) as [r o'].
  unfold replaceNotifications, modify, ret, throw.
  destruct r; repeat split.
Qed.

(** *** At most one pending timer per store id *)

Lemma NoDup_map_filter {A B} (f : A -> B) (keep : A -> bool) (l : list A) :
  NoDup (map f l) -> NoDup (map f (List.filter keep l)).
Proof.
  induction l as [|x xs IH]; simpl; intros Hnd; [constructor|].
  apply NoDup_cons in Hnd as [Hx Hnd].
  destruct (keep x); simpl; [|apply IH; exact Hnd].
  apply NoDup_cons. split; [|apply IH; exact Hnd].
  intros Hin. apply Hx. apply list_elem_of_In. apply list_elem_of_In in Hin.
  apply in_map_iff in Hin as (y & Hy & Hin). apply filter_In in Hin as [Hin _].
  apply in_map_iff. exists y. split; [exact Hy|exact Hin].
Qed.

Lemma timersTracked_subset (w w' : World) (keep : Timer -> bool) :
  timers w' = List.filter keep (timers w) ->
  nextHandle w' = nextHandle w ->
  refetchTimeout (store w') = refetchTimeout (store w) ->
  timersTracked w -> timersTracked w'.
Proof.
  intros Ht Hn Hr (Hnd & Htim & Hmap). unfold timersTracked.
  rewrite Ht, Hn, Hr. split; [|split].
  - apply NoDup_map_filter. exact Hnd.
  - intros t Hin. apply filter_In in Hin as [Hin _]. exact (Htim t Hin).
  - exact Hmap.
Qed.

Lemma timersTracked_same (w w' : World) :
  timers w' = timers w ->
  nextHandle w' = nextHandle w ->
  refetchTimeout (store w') = refetchTimeout (store w) ->
  timersTracked w -> timersTracked w'.
Proof.
  intros Ht Hn Hr. apply (timersTracked_subset w w' (fun _ => true)); try assumption.
  rewrite Ht. symmetry. apply forallb_filter_id. apply forallb_forall. reflexivity.
Qed.

Lemma timersTracked_refetch (sid : string) (w : World) :
  timersTracked w -> timersTracked (snd (refetch sid w)).
Proof.
  intros (Hnd & Htim & Hmap). rewrite refetch_explicit. unfold timersTracked.
  cbn [store timers nextHandle refetchTimeout withRefetchTimeout].
  set (rt := refetchTimeout (store w)) in *.
  set (rt' := <[sid := Some (nextHandle w)]>
                match rt !! sid with
                | Some (Some h) => <[sid := None]> rt
                | _ => rt
                end).
  set (kept := match rt !! sid with
               | Some (Some h) => withoutTimer h (timers w)
               | _ => timers w
               end).
  assert (Hrt_eq : rt' !! sid = Some (Some (nextHandle w)))
    by apply lookup_insert_eq.
  assert (Hrt_ne : forall other, other <> sid -> rt' !! other = rt !! other).
  { intros other Hne. subst rt'. rewrite lookup_insert_ne by congruence.
    destruct (rt !! sid) as [[h|]|]; [|reflexivity..].
    apply lookup_insert_ne. congruence. }
  assert (Hkept : forall t, In t kept -> In t (timers w) /\ timer_storeId t <> sid).
  { intros t Hin. subst kept. destruct (rt !! sid) as [[h|]|] eqn:Hsid.
    - unfold withoutTimer in Hin. apply filter_In in Hin as [Hin Hh].
      split; [exact Hin|]. intros Hst.
      destruct (Htim t Hin) as [_ Ht]. rewrite Hst in Ht.
      fold rt in Ht. rewrite Hsid in Ht. injection Ht as ->.
      rewrite Pos.eqb_refl in Hh. discriminate.
    - split; [exact Hin|]. intros Hst.
      destruct (Htim t Hin) as [_ Ht]. rewrite Hst in Ht. fold rt in Ht. congruence.
    - split; [exact Hin|]. intros Hst.
      destruct (Htim t Hin) as [_ Ht]. rewrite Hst in Ht. fold rt in Ht. congruence. }
  assert (Hkept_nd : NoDup (map timer_storeId kept)).
  { subst kept. destruct (rt !! sid) as [[h|]|]; try exact Hnd.
    apply NoDup_map_filter. exact Hnd. }
  split; [|split].
  - rewrite map_app. apply NoDup_app. split; [exact Hkept_nd|].
    split; [|apply NoDup_singleton].
    intros s Hs Hs'. apply list_elem_of_In in Hs. cbn in Hs'.
    apply list_elem_of_singleton in Hs'. subst s.
    apply in_map_iff in Hs as (t & Ht & Hin). destruct (Hkept t Hin). contradiction.
  - intros t Hin. apply in_app_iff in Hin as [Hin|[<-|[]]].
    + destruct (Hkept t Hin) as [Hold Hne]. destruct (Htim t Hold) as [Hlt Ht].
      split; [lia|]. rewrite Hrt_ne by exact Hne. exact Ht.
    + cbn [handle timer_storeId]. split; [lia|exact Hrt_eq].
  - intros s h Hs. destruct (decide (s = sid)) as [->|Hne].
    + rewrite Hrt_eq in Hs. injection Hs as <-. split; [lia|].
      intros s' Hs'. destruct (decide (s' = sid)) as [->|Hne']; [reflexivity|].
      rewrite Hrt_ne in Hs' by exact Hne'. destruct (Hmap s' _ Hs') as [Hlt _]. lia.
    + rewrite Hrt_ne in Hs by exact Hne. destruct (Hmap s h Hs) as [Hlt Hown].
      split; [lia|]. intros s' Hs'. destruct (decide (s' = sid)) as [->|Hne'].
      * rewrite Hrt_eq in Hs'. injection Hs' as E. lia.
      * rewrite Hrt_ne in Hs' by exact Hne'. exact (Hown s' Hs').
Qed.

Lemma timersTracked_fire (t : Timer) (w : World) :
  timersTracked w -> timersTracked (fire api stores t w).
Proof.
  destruct (fire_world api stores t w) as (_ & Ht & Hn & _ & Hr).
  exact (timersTracked_subset w _ _ Ht Hn Hr).
Qed.

Lemma timersTracked_runTimers (fuel : nat) (deadline : Z) :
  forall w, timersTracked w -> timersTracked (runTimers api stores fuel deadline w).
Proof.
  induction fuel as [|fuel IH]; intros w Hw; simpl; [exact Hw|].
  destruct (firstDue deadline (timers w)) as [t|]; [|exact Hw].
  apply IH, timersTracked_fire. exact Hw.
Qed.

Lemma timersTracked_step (a : Action) (w : World) :
  timersTracked w -> timersTracked (step api stores a w).
Proof.
  intros Hw. destruct a as [sid|messageId|messageId bt st payload|sid
                            |readExist messagesToMark sid|delay]; cbn [step].
  - destruct (fetchNextPage_frame sid w) as (Ht & Hn & Hr).
    exact (timersTracked_same w _ Ht Hn Hr Hw).
  - unfold markAsRead, await.
    destruct (markMessageAsRead api (calls w) messageId);
      exact (timersTracked_same w _ eq_refl eq_refl eq_refl Hw).
  - destruct (updateAction_frame messageId bt st payload w) as (Ht & Hn & Hr & _).
    exact (timersTracked_same w _ Ht Hn Hr Hw).
  - apply timersTracked_refetch. exact Hw.
  - destruct (markNotificationsAsSeen_world api readExist messagesToMark sid w)
      as (sent & _ & Hsent).
    rewrite (Hsent w eq_refl).
    exact (timersTracked_same w _ eq_refl eq_refl eq_refl Hw).
  - unfold advance.
    apply (timersTracked_same
             (runTimers api stores (length (timers w)) (clock w + delay) w));
      try reflexivity.
    apply timersTracked_runTimers. exact Hw.
Qed.

(** X29. Whatever callbacks are called and however time passes, from
    the initial state on each store id has at most one pending refetch
    timer, and the timeout map holds its handle under that store id. *)
Theorem one_timer_per_store (actions : list Action) :
  let w := runActions api stores actions initialWorld in
  NoDup (map timer_storeId (timers w))
  /\ (forall t, In t (timers w) ->
                refetchTimeout (store w) !! timer_storeId t = Some (Some (handle t))).
Proof.
  cbn zeta.
  assert (Hinv : timersTracked (runActions api stores actions initialWorld)).
  { unfold runActions.
    assert (H0 : timersTracked initialWorld).
    { split; [constructor|]. split; [intros t []|].
      intros sid h Hh. cbn [store initialWorld initialStore refetchTimeout] in Hh.
      rewrite lookup_empty in Hh. discriminate. }
    revert H0. generalize initialWorld.
    induction actions as [|a rest IH]; intros w Hw; [exact Hw|].
    cbn [fold_left]. apply IH, timersTracked_step. exact Hw. }
  destruct Hinv as (Hnd & Htim & _). split; [exact Hnd|].
  intros t Hin. exact (proj2 (Htim t Hin)).
Qed.

(** *** Page counters are numbers *)

Lemma pagesKnown_fetchPage (p : PageNum) (isRefetch : bool) (sid : string) (w : World) :
  countingPage p ->
  pagesKnown w -> pagesKnown (snd (fetchPage api stores p isRefetch sid w)).
Proof.
  intros Hp (Hkeys & Hnum & Hcalls).
  destruct (fetchPage_frame api stores p isRefetch sid w)
    as (Hc & _ & _ & _ & _ & Hmaps).
  cbn zeta in *. unfold pagesKnown. rewrite Hc. split; [|split].
  - intros s Hs. destruct Hmaps as [[-> Hh]|(b & Hh & ->)].
    + rewrite Hh in Hs. exact (Hkeys s Hs).
    + rewrite Hh in Hs. destruct (decide (s = sid)) as [->|Hne].
      * destruct (page (store w) !! sid) eqn:E; [rewrite E; eexists; reflexivity|].
        rewrite lookup_insert_eq. eexists; reflexivity.
      * rewrite lookup_insert_ne in Hs by congruence.
        destruct (page (store w) !! sid); [exact (Hkeys s Hs)|].
        rewrite lookup_insert_ne by congruence. exact (Hkeys s Hs).
  - intros s q Hq. destruct Hmaps as [[Hpg _]|(b & _ & Hpg)]; rewrite Hpg in Hq.
    + exact (Hnum s q Hq).
    + destruct (page (store w) !! sid) eqn:E; [exact (Hnum s q Hq)|].
      destruct (decide (s = sid)) as [->|Hne].
      * rewrite lookup_insert_eq in Hq. injection Hq as <-. cbn. lia.
      * rewrite lookup_insert_ne in Hq by congruence. exact (Hnum s q Hq).
  - apply Forall_app. split; [exact Hcalls|]. constructor; [exact Hp|constructor].
Qed.

Lemma pagesKnown_same (w w' : World) (made : list ApiCall) :
  page (store w') = page (store w) ->
  hasNextPage (store w') = hasNextPage (store w) ->
  calls w' = calls w ++ made ->
  Forall fetchesCountingPage made ->
  pagesKnown w -> pagesKnown w'.
Proof.
  intros Hp Hh Hc Hmade (Hkeys & Hnum & Hcalls). unfold pagesKnown.
  rewrite Hp, Hh, Hc. split; [exact Hkeys|]. split; [exact Hnum|].
  apply Forall_app. split; assumption.
Qed.

Lemma pagesKnown_fetchNextPage (sid : string) (w : World) :
  pagesKnown w -> pagesKnown (snd (fetchNextPage api stores sid w)).
Proof.
  intros Hw. destruct (hasNextPage (store w) !! sid) as [[|]|] eqn:Hmore.
  - rewrite FeedStoreFacts.fetchNextPage_go by exact Hmore.
    destruct Hw as (Hkeys & Hnum & Hcalls).
    destruct (Hkeys sid) as [q Hq]; [rewrite Hmore; eexists; reflexivity|].
    pose proof (Hnum sid q Hq) as Hcount.
    rewrite Hq. destruct q as [n|]; [|contradiction]. cbn [plusOne].
    apply pagesKnown_fetchPage; [cbn in *; lia|].
    split; [|split]; cbn [store withStore withPage page hasNextPage calls].
    + intros s Hs. destruct (decide (s = sid)) as [->|Hne].
      * rewrite lookup_insert_eq. eexists; reflexivity.
      * rewrite lookup_insert_ne by congruence. exact (Hkeys s Hs).
    + intros s q' Hq'. destruct (decide (s = sid)) as [->|Hne].
      * rewrite lookup_insert_eq in Hq'. injection Hq' as <-. cbn in *. lia.
      * rewrite lookup_insert_ne in Hq' by congruence. exact (Hnum s q' Hq').
    + exact Hcalls.
  - rewrite FeedStoreFacts.fetchNextPage_stop by congruence. exact Hw.
  - rewrite FeedStoreFacts.fetchNextPage_stop by congruence. exact Hw.
Qed.

Lemma pagesKnown_fire (t : Timer) (w : World) :
  pagesKnown w -> pagesKnown (fire api stores t w).
Proof.
  intros Hw. unfold fire. apply pagesKnown_fetchPage; [cbn; lia|].
  exact (pagesKnown_same w _ [] eq_refl eq_refl (eq_sym (app_nil_r _))
           (List.Forall_nil _) Hw).
Qed.

Lemma pagesKnown_runTimers (fuel : nat) (deadline : Z) :
  forall w, pagesKnown w -> pagesKnown (runTimers api stores fuel deadline w).
Proof.
  induction fuel as [|fuel IH]; intros w Hw; simpl; [exact Hw|].
  destruct (firstDue deadline (timers w)) as [t|]; [|exact Hw].
  apply IH, pagesKnown_fire. exact Hw.
Qed.

Lemma pagesKnown_step (a : Action) (w : World) :
  pagesKnown w -> pagesKnown (step api stores a w).
Proof.
  intros Hw. destruct a as [sid|messageId|messageId bt st payload|sid
                            |readExist messagesToMark sid|delay]; cbn [step].
  - apply pagesKnown_fetchNextPage. exact Hw.
  - unfold markAsRead, await.
    destruct (markMessageAsRead api (calls w) messageId);
      apply (pagesKnown_same w _ [MarkMessageAsRead messageId]);
      try reflexivity; try exact Hw; repeat constructor.
  - destruct (updateAction_frame messageId bt st payload w)
      as (_ & _ & _ & Hp & Hh & Hc).
    apply (pagesKnown_same w _ _ Hp Hh Hc); [repeat constructor|exact Hw].
  - destruct (refetch_store sid w) as (_ & Hp & Hh & Hc & _).
    apply (pagesKnown_same w _ [] Hp Hh); [|constructor|exact Hw].
    rewrite app_nil_r. exact Hc.
  - destruct (markNotificationsAsSeen_world api readExist messagesToMark sid w)
      as (sent & Hsent & Hworld).
    rewrite (Hworld w eq_refl).
    apply (pagesKnown_same w _ sent); try reflexivity; [|exact Hw].
    eapply Forall_impl; [exact Hsent|]. intros c [ids ->]. exact I.
  - unfold advance.
    apply (pagesKnown_same
             (runTimers api stores (length (timers w)) (clock w + delay) w) _ []);
      try reflexivity; [symmetry; apply app_nil_r|constructor|].
    apply pagesKnown_runTimers. exact Hw.
Qed.

(** X30. Whatever callbacks are called and however time passes, from the
    initial state on every page the provider asks the remote side for
    has a number from 0 on (never [NaN]), every page counter is such a
    number, and every store id with a has-more flag has a page
    counter. *)
Theorem pages_are_numbers (actions : list Action) :
  let w := runActions api stores actions initialWorld in
  Forall fetchesCountingPage (calls w)
  /\ (forall sid p, page (store w) !! sid = Some p -> countingPage p)
  /\ (forall sid, is_Some (hasNextPage (store w) !! sid) ->
                  is_Some (page (store w) !! sid)).
Proof.
  cbn zeta.
  assert (Hinv : pagesKnown (runActions api stores actions initialWorld)).
  { unfold runActions.
    assert (H0 : pagesKnown initialWorld).
    { split; [|split]; cbn [store initialWorld initialStore page hasNextPage calls].
      - intros sid [b Hb]. destruct (decide (sid = "default_store")) as [->|Hne].
        + rewrite lookup_singleton_eq. eexists; reflexivity.
        + rewrite lookup_singleton_ne in Hb by congruence. discriminate.
      - intros sid p Hp. destruct (decide (sid = "default_store")) as [->|Hne].
        + rewrite lookup_singleton_eq in Hp. injection Hp as <-. cbn. lia.
        + rewrite lookup_singleton_ne in Hp by congruence. discriminate.
      - constructor. }
    revert H0. generalize initialWorld.
    induction actions as [|a rest IH]; intros w Hw; [exact Hw|].
    cbn [fold_left]. apply IH, pagesKnown_step. exact Hw. }
  destruct Hinv as (Hkeys & Hnum & Hcalls). repeat split; assumption.
Qed.

End Invariants.

End FeedStoreMore.
